(** * RF103 host library: a shallow embedding of the Si5351 clock source,
    the FX3 firmware loader and the R820T2 tuner register shadow.

    C [double] is modelled by Rocq's primitive binary64 floats, so every
    floating-point operation of the source is evaluated with IEEE rounding.
    Fixed-width C integers are modelled by [Z] with their wrap-around
    written out. *)

From Stdlib Require Import ZArith List Bool Lia PrimFloat Floats Uint63 QArith Qabs.
Import ListNotations.

Set Warnings "-inexact-float -abstract-large-number".

Open Scope Z_scope.

(** ** Machine integers and doubles *)

Definition u8 (z : Z) : Z := z mod 2 ^ 8.
Definition u16 (z : Z) : Z := z mod 2 ^ 16.
Definition u32 (z : Z) : Z := z mod 2 ^ 32.

(** Truncation toward zero of a finite double, as in a C cast to an integer
    type (the casts of the source only see finite, in-range values). *)
Definition float_trunc_Z (x : float) : Z :=
  match Prim2SF x with
  | S754_finite s m e =>
      let q := if 0 <=? e then Z.shiftl (Zpos m) e else Z.shiftr (Zpos m) (- e) in
      if s then - q else q
  | _ => 0
  end.

(** Conversion of a (small, non-negative) integer to double: exact below 2^53. *)
Definition float_of_Z (z : Z) : float := of_uint63 (Uint63.of_Z z).

(** [modf]: fractional part and integral part, both exact. *)
Definition modf (x : float) : float * float :=
  let ip := if (abs x <? 4503599627370496)%float then float_of_Z (float_trunc_Z x) else x in
  ((x - ip)%float, ip).

(** The exact rational value of a finite double. *)
Definition Q_of_float (x : float) : Q :=
  match Prim2SF x with
  | S754_finite s m e =>
      let n := if s then Zneg m else Zpos m in
      if 0 <=? e then inject_Z (n * 2 ^ e) else Qmake n (Pos.pow 2 (Z.to_pos (- e)))
  | _ => 0%Q
  end.

(** ** Si5351 clock source (clock_source.c) *)
Module ClockSource.

Record clock_source := {
  crystal_frequency : float;
  frequency_correction : float
}.

Definition SI5351_FREQ : float := 27e6%float.
Definition SI5351_FREQ_CORR : float := 0.9999314%float.
Definition SI5351_MAX_VCO_FREQ : float := 900e6%float.
Definition SI5351_MAX_DENOMINATOR : Z := 1048575.

Definition SI5351_REGISTER_CLK_BASE := 16.
Definition SI5351_REGISTER_MSNA_BASE := 26.
Definition SI5351_REGISTER_MSNB_BASE := 34.
Definition SI5351_REGISTER_MS0_BASE := 42.
Definition SI5351_REGISTER_MS1_BASE := 50.
Definition SI5351_REGISTER_PLL_RESET := 177.

Definition SI5351_VALUE_PLLA_RESET := 32.
Definition SI5351_VALUE_PLLB_RESET := 128.
Definition SI5351_VALUE_MS_INT := 64.
Definition SI5351_VALUE_CLK_SRC_MS := 12.
Definition SI5351_VALUE_CLK_DRV_8MA := 3.
Definition SI5351_VALUE_MS_SRC_PLLA := 0.
Definition SI5351_VALUE_MS_SRC_PLLB := 32.

(** The state [clock_source_open] leaves behind. *)
Definition clock_source_default : clock_source :=
  {| crystal_frequency := SI5351_FREQ; frequency_correction := SI5351_FREQ_CORR |}.

(** *** rational_approximation *)

Definition epsilon : float := 1e-5%float.

(** The inner [for (m = (an + 1) / 2; m <= an; ++m)] loop over the
    semiconvergents; [best] is [(delta, *b, *c)]. [fuel] is the number of
    iterations of the loop, [an - (an + 1) / 2 + 1]. *)
Fixpoint semiconvergents (fuel : nat) (m an h0 h1 k0 k1 max_denominator : Z)
    (f0 : float) (best : float * Z * Z) : float * Z * Z :=
  match fuel with
  | O => best
  | S fuel' =>
      if m <=? an then
        let hm := u32 (m * h1 + h0) in
        let km := u32 (m * k1 + k0) in
        if km >? max_denominator then best
        else
          let d := abs (float_of_Z hm / float_of_Z km - f0)%float in
          let '(delta, _, _) := best in
          let best' := if (d <? delta)%float then (d, hm, km) else best in
          semiconvergents fuel' (u32 (m + 1)) an h0 h1 k0 k1 max_denominator f0 best'
      else best
  end.

(** The outer loop [for (i = 0; i < 100; ++i)]; [f] is the current
    fractional remainder, [(h0, h1)] and [(k0, k1)] the last two convergents. *)
Fixpoint cf_loop (fuel : nat) (f f0 : float) (h0 h1 k0 k1 max_denominator : Z)
    (best : float * Z * Z) : float * Z * Z :=
  match fuel with
  | O => best
  | S fuel' =>
      if (f <=? epsilon)%float then best
      else
        let '(f', anf) := modf (1 / f)%float in
        let an := u32 (float_trunc_Z anf) in
        let first := u32 (u32 (an + 1) / 2) in
        let best' := semiconvergents (Z.to_nat (an - first + 1)) first an h0 h1 k0 k1
                       max_denominator f0 best in
        let hn := u32 (an * h1 + h0) in
        let kn := u32 (an * k1 + k0) in
        cf_loop fuel' f' f0 h1 hn k1 kn max_denominator best'
  end.

(** [rational_approximation value max_denominator = (a, b, c)]. *)
Definition rational_approximation (value : float) (max_denominator : Z) : Z * Z * Z :=
  let '(f0, af) := modf value in
  let a := u32 (float_trunc_Z af) in
  let '(_, b, c) := cf_loop 100 f0 f0 1 0 0 1 max_denominator (f0, 0, 1) in
  (a, b, c).

(** *** The register encodings (AN619) *)

Definition configure_clock_input_and_pll_data (a b c : Z) : list Z :=
  let b_over_c := u32 (128 * b) / c in
  let msn_p1 := u32 (128 * a + b_over_c - 512) in
  let msn_p2 := u32 (128 * b - c * b_over_c) in
  let msn_p3 := c in
  map u8
    [ Z.shiftr (Z.land msn_p3 65280) 8;
      Z.land msn_p3 255;
      Z.shiftr (Z.land msn_p1 196608) 16;
      Z.shiftr (Z.land msn_p1 65280) 8;
      Z.land msn_p1 255;
      Z.lor (Z.shiftr (Z.land msn_p3 983040) 12) (Z.shiftr (Z.land msn_p2 983040) 16);
      Z.shiftr (Z.land msn_p2 65280) 8;
      Z.land msn_p2 255 ].

Definition configure_clock_output_data (output_ms rdiv : Z) : list Z :=
  let ms_p1 := u32 (128 * output_ms - 512) in
  let ms_p2 := 0 in
  let ms_p3 := 1 in
  map u8
    [ Z.shiftr (Z.land ms_p3 65280) 8;
      Z.land ms_p3 255;
      Z.lor (Z.shiftl rdiv 5) (Z.shiftr (Z.land ms_p1 196608) 16);
      Z.shiftr (Z.land ms_p1 65280) 8;
      Z.land ms_p1 255;
      Z.lor (Z.shiftr (Z.land ms_p3 983040) 12) (Z.shiftr (Z.land ms_p2 983040) 16);
      Z.shiftr (Z.land ms_p2 65280) 8;
      Z.land ms_p2 255 ].

(** *** clock_source_set_clock *)

(** Outcomes of [clock_source_set_clock]; the source returns [-1] for every
    failure, the constructor names the error message it prints. *)
Inductive set_clock_error :=
  | InvalidIndex
  | FrequencyTooLow
  | InvalidOutputMS
  | I2CFailure.

Record clock_params := {
  cp_rdiv : Z;
  cp_r_frequency : float;
  cp_output_ms : Z;
  cp_feedback_ms : float;
  cp_a : Z;
  cp_b : Z;
  cp_c : Z
}.

(** One I2C register-block write: start register and bytes. *)
Definition i2c_write := (Z * list Z)%type.

(** The [while (r_frequency < 1e6 && rdiv <= 7)] loop; nine rounds are more
    than the loop can run. *)
Fixpoint rdiv_loop (fuel : nat) (r_frequency : float) (rdiv : Z) : float * Z :=
  match fuel with
  | O => (r_frequency, rdiv)
  | S fuel' =>
      if (r_frequency <? 1e6)%float && (rdiv <=? 7)
      then rdiv_loop fuel' (r_frequency * 2)%float (rdiv + 1)
      else (r_frequency, rdiv)
  end.

(** The parameter computation of [clock_source_set_clock], up to the first
    I2C write. *)
Definition compute_clock (this : clock_source) (index : Z) (frequency : float)
    : set_clock_error + clock_params :=
  if negb ((index =? 0) || (index =? 1)) then inl InvalidIndex
  else
    let '(r_frequency, rdiv) := rdiv_loop 9 frequency 0 in
    if (r_frequency <? 1e6)%float then inl FrequencyTooLow
    else
      let output_ms := Z.land (u32 (float_trunc_Z (SI5351_MAX_VCO_FREQ / r_frequency)%float))
                         (u32 (Z.lnot 1)) in
      let vco_frequency := (r_frequency * float_of_Z output_ms)%float in
      if (output_ms <? 4) || (output_ms >? 2048) then inl InvalidOutputMS
      else
        let feedback_ms :=
          (vco_frequency / (crystal_frequency this / frequency_correction this))%float in
        let '(a, b, c) := rational_approximation feedback_ms SI5351_MAX_DENOMINATOR in
        inr {| cp_rdiv := rdiv; cp_r_frequency := r_frequency; cp_output_ms := output_ms;
               cp_feedback_ms := feedback_ms; cp_a := a; cp_b := b; cp_c := c |}.

(** The four I2C writes of a successful [clock_source_set_clock], in order. *)
Definition set_clock_writes (index : Z) (p : clock_params) : list i2c_write :=
  [ (if index =? 0 then SI5351_REGISTER_MSNA_BASE else SI5351_REGISTER_MSNB_BASE,
     configure_clock_input_and_pll_data (cp_a p) (cp_b p) (cp_c p));
    (if index =? 0 then SI5351_REGISTER_MS0_BASE else SI5351_REGISTER_MS1_BASE,
     configure_clock_output_data (cp_output_ms p) (cp_rdiv p));
    (SI5351_REGISTER_PLL_RESET,
     [if index =? 0 then SI5351_VALUE_PLLA_RESET else SI5351_VALUE_PLLB_RESET]);
    (SI5351_REGISTER_CLK_BASE + index,
     [Z.lor (Z.lor (Z.lor SI5351_VALUE_MS_INT SI5351_VALUE_CLK_SRC_MS) SI5351_VALUE_CLK_DRV_8MA)
            (if index =? 0 then SI5351_VALUE_MS_SRC_PLLA else SI5351_VALUE_MS_SRC_PLLB)]) ].

(** Issue the writes in order, [i2c_ok n] telling whether the [n]-th
    succeeds; stop at the first failure. Returns the writes performed. *)
Fixpoint issue_writes (i2c_ok : nat -> bool) (n : nat) (ws : list i2c_write)
    : bool * list i2c_write :=
  match ws with
  | [] => (true, [])
  | w :: ws' =>
      if i2c_ok n then
        let '(ok, done) := issue_writes i2c_ok (S n) ws' in (ok, w :: done)
      else (false, [w])
  end.

(** [clock_source_set_clock]: the chosen parameters and the writes sent. *)
Definition clock_source_set_clock (this : clock_source) (i2c_ok : nat -> bool)
    (index : Z) (frequency : float) : (set_clock_error + clock_params) * list i2c_write :=
  match compute_clock this index frequency with
  | inl e => (inl e, [])
  | inr p =>
      let '(ok, sent) := issue_writes i2c_ok 0 (set_clock_writes index p) in
      if ok then (inr p, sent) else (inl I2CFailure, sent)
  end.

(** [f * 2 * ... * 2] ([k] doublings), the value of [r_frequency] after
    [k] rounds of the R-divider loop. *)
Definition dbl (k : nat) (f : float) : float := Nat.iter k (fun r => (r * 2)%float) f.

(** The value [a + b/c] of a parameter choice, as a rational. *)
Definition pll_ratio (p : clock_params) : Q :=
  (inject_Z (cp_a p) + inject_Z (cp_b p) / inject_Z (cp_c p))%Q.

(** The denominator of a candidate [(delta, b, c)] is within bounds. *)
Definition best_c_ok (max_denominator : Z) (best : float * Z * Z) : Prop :=
  let '(_, _, c) := best in 0 <= c <= max_denominator.

(** The multisynth parameters [(P1, P2, P3)] held by the eight register
    bytes that [configure_clock_input_and_pll] and [configure_clock_output]
    write: P3[15:8], P3[7:0], P1[17:16], P1[15:8], P1[7:0],
    P3[19:16] and P2[19:16], P2[15:8], P2[7:0]. *)
Definition msn_params (data : list Z) : Z * Z * Z :=
  match data with
  | [d0; d1; d2; d3; d4; d5; d6; d7] =>
      (Z.land d2 3 * 65536 + d3 * 256 + d4,
       Z.land d5 15 * 65536 + d6 * 256 + d7,
       Z.shiftr d5 4 * 65536 + d0 * 256 + d1)
  | _ => (0, 0, 0)
  end.

(** The parameters [set_clock] chooses for 32 MHz on clock 0. *)
Definition set_clock_demo_params : clock_params :=
  Eval vm_compute in
  match compute_clock clock_source_default 0 32e6 with
  | inr p => p
  | inl _ => {| cp_rdiv := 0; cp_r_frequency := 0; cp_output_ms := 0; cp_feedback_ms := 0;
                cp_a := 0; cp_b := 0; cp_c := 0 |}
  end.

End ClockSource.

(** ** FX3 firmware loader (firmware.c) *)
Module Firmware.

(** The image buffer: byte [i] of [image], for [0 <= i < size]. The source
    reads whole words through a [uint32_t *] (little-endian host); reads
    past the buffer, which well-formed images never make, are given the
    value 0. *)
Definition byte_at (image : list Z) (i : Z) : Z :=
  if i <? 0 then 0 else nth (Z.to_nat i) image 0.

Definition word_at (image : list Z) (i : Z) : Z :=
  byte_at image i + byte_at image (i + 1) * 2 ^ 8 +
  byte_at image (i + 2) * 2 ^ 16 + byte_at image (i + 3) * 2 ^ 24.

(** The failures of [validate_image], named after the message printed; the
    source returns [-1] for each. *)
Inductive validate_error :=
  | TooSmall
  | BadMagic
  | BadI2CConfig
  | BadImageType
  | LoadSzTooBig
  | BadChecksum.

(** [while (loadSz--) checksum += *current++;] *)
Fixpoint add_words (image : list Z) (current : Z) (n : nat) (checksum : Z) : Z :=
  match n with
  | O => checksum
  | S n' => add_words image (current + 4) n' (u32 (checksum + word_at image current))
  end.

(** The section walk of [validate_image]; [current] is a byte offset and
    [end - 2] is [size - 8]. Returns the offset after the zero [loadSz]
    word and the checksum. Each round advances [current] by at least 12
    bytes below [size], so [size] rounds are more than enough. *)
Fixpoint validate_sections (fuel : nat) (image : list Z) (size current checksum : Z)
    : validate_error + (Z * Z) :=
  match fuel with
  | O => inl LoadSzTooBig
  | S fuel' =>
      let loadSz := word_at image current in
      if loadSz =? 0 then inr (current + 4, checksum)
      else
        let current := current + 8 in
        if current + 4 * loadSz >=? size - 8 then inl LoadSzTooBig
        else validate_sections fuel' image size (current + 4 * loadSz)
               (add_words image current (Z.to_nat loadSz) checksum)
  end.

(** [validate_image]: the outcome, and whether the warning
    "image file longer than expected" was printed. *)
Definition validate_image (image : list Z) (size : Z) : (validate_error + unit) * bool :=
  if size <? 10240 then (inl TooSmall, false)
  else if negb ((byte_at image 0 =? 67) && (byte_at image 1 =? 89)) then (inl BadMagic, false)
  else if negb (byte_at image 2 =? 28) then (inl BadI2CConfig, false)
  else if negb (byte_at image 3 =? 176) then (inl BadImageType, false)
  else
    match validate_sections (Z.to_nat size) image size 4 0 with
    | inl e => (inl e, false)
    | inr (current, checksum) =>
        let expected_checksum := word_at image (current + 4) in
        let warn := negb (current + 8 =? size) in
        if checksum =? expected_checksum then (inr tt, warn) else (inl BadChecksum, warn)
    end.

(** One [libusb_control_transfer] of vendor request 0xA0: [wValue],
    [wIndex], the byte offset of the data in the image and [wLength]. *)
Record usb_call := {
  uc_value : Z;
  uc_index : Z;
  uc_data : Z;
  uc_length : Z
}.

Definition max_write_size : Z := 2 * 1024.

(** The [for (nleft = loadSz * 4; nleft > 0; )] loop. [usb n] is the return
    value of the [n]-th control transfer. Returns the index of the next
    transfer, or [None] when the load fails, and the transfers issued. *)
Fixpoint transfer_chunks (fuel : nat) (usb : nat -> Z) (n : nat)
    (address data nleft : Z) : option nat * list usb_call :=
  match fuel with
  | O => (Some n, [])
  | S fuel' =>
      if nleft >? 0 then
        let wLength := u16 (if nleft >? max_write_size then max_write_size else nleft) in
        let call := {| uc_value := Z.land address 65535; uc_index := Z.shiftr address 16;
                       uc_data := data; uc_length := wLength |} in
        let ret := usb n in
        if ret <? 0 then (None, [call])
        else if negb (ret =? wLength) then (None, [call])
        else
          let '(r, calls) := transfer_chunks fuel' usb (S n) address (data + wLength)
                               (nleft - wLength) in
          (r, call :: calls)
      else (Some n, [])
  end.

(** The section walk of [transfer_image]; returns the next transfer index
    and the offset of the entry address, or [None]. *)
Fixpoint transfer_sections (fuel : nat) (usb : nat -> Z) (n : nat) (image : list Z)
    (current : Z) : option (nat * Z) * list usb_call :=
  match fuel with
  | O => (Some (n, current), [])
  | S fuel' =>
      let loadSz := word_at image current in
      if loadSz =? 0 then (Some (n, current + 4), [])
      else
        let address := word_at image (current + 4) in
        let data := current + 8 in
        let nleft := u32 (loadSz * 4) in
        match transfer_chunks (Z.to_nat (nleft / max_write_size) + 1) usb n address data nleft with
        | (None, calls) => (None, calls)
        | (Some n', calls) =>
            let '(r, calls') := transfer_sections fuel' usb n' image (data + 4 * loadSz) in
            (r, calls ++ calls')
        end
  end.

(** [transfer_image]: the return value, whether the warning of the final
    transfer was printed, and the transfers issued. The final transfer
    (to the entry address, no data) has data offset 0. *)
Definition transfer_image (image : list Z) (usb : nat -> Z) : Z * bool * list usb_call :=
  match transfer_sections (length image) usb 0 image 4 with
  | (None, calls) => (-1, false, calls)
  | (Some (n, current), calls) =>
      let entryAddr := word_at image current in
      let call := {| uc_value := Z.land entryAddr 65535; uc_index := Z.shiftr entryAddr 16;
                     uc_data := 0; uc_length := 0 |} in
      let ret := usb n in
      (0, ret <? 0, calls ++ [call])
  end.

(** The system calls of [load_image] before validation: [open], [fstat],
    [malloc], and the [read] loop (a read failure is fatal; a read returning
    the whole file is the successful case). *)
Record load_env := {
  open_ok : bool;
  fstat_ok : bool;
  malloc_ok : bool;
  read_ok : bool
}.

(** [load_image]: the return value and the transfers issued. *)
Definition load_image (env : load_env) (image : list Z) (usb : nat -> Z) : Z * list usb_call :=
  if negb (open_ok env) then (-1, [])
  else if negb (fstat_ok env) then (-1, [])
  else if negb (malloc_ok env) then (-1, [])
  else if negb (read_ok env) then (-1, [])
  else
    match fst (validate_image image (Z.of_nat (length image))) with
    | inl _ => (-1, [])
    | inr _ =>
        let '(r, _, calls) := transfer_image image usb in (r, calls)
    end.

(** [usb n], [usb (n + 1)], ... are the lengths of [calls]: every
    transfer of the list moved exactly the bytes it asked for. *)
Definition no_call : usb_call :=
  {| uc_value := 0; uc_index := 0; uc_data := 0; uc_length := 0 |}.

Definition calls_ok (usb : nat -> Z) (n : nat) (calls : list usb_call) : Prop :=
  forall i, (i < length calls)%nat -> usb (n + i)%nat = uc_length (nth i calls no_call).

(** What a run of transfers that started at index [n] did: it either
    stopped after [calls] with all of them complete, the next index being
    [n'], or failed at its last transfer, all earlier ones complete. *)
Definition transfers_done (usb : nat -> Z) (n : nat) (res : option nat)
    (calls : list usb_call) : Prop :=
  Forall (fun c => 0 < uc_length c) calls /\
  match res with
  | Some n' => n' = (n + length calls)%nat /\ calls_ok usb n calls
  | None => exists pre c, calls = pre ++ [c] /\ calls_ok usb n pre /\
                          usb (n + length pre)%nat <> uc_length c
  end.

(** Every system call of [load_image] succeeds. *)
Definition load_env_ok : load_env :=
  {| open_ok := true; fstat_ok := true; malloc_ok := true; read_ok := true |}.

(** *** Well-formed images *)

(** The little-endian bytes of a 32-bit word. *)
Definition le_word (w : Z) : list Z :=
  [Z.land w 255; Z.land (Z.shiftr w 8) 255; Z.land (Z.shiftr w 16) 255;
   Z.land (Z.shiftr w 24) 255].

Record section := {
  sec_address : Z;
  sec_payload : list Z
}.

Definition encode_section (s : section) : list Z :=
  le_word (Z.of_nat (length (sec_payload s))) ++ le_word (sec_address s) ++
  concat (map le_word (sec_payload s)).

(** Header, sections, the zero [loadSz] word, entry address, checksum, then
    trailing bytes. *)
Definition firmware_image (secs : list section) (entry checksum : Z) (pad : list Z)
    : list Z :=
  [67; 89; 28; 176] ++ concat (map encode_section secs) ++
  le_word 0 ++ le_word entry ++ le_word checksum ++ pad.

(** A section as the walk expects it: a non-empty payload of 32-bit words
    whose length fits the [loadSz] word. *)
Definition section_ok (s : section) : Prop :=
  sec_payload s <> [] /\ Z.of_nat (length (sec_payload s)) < 2 ^ 32 /\
  Forall (fun w => 0 <= w < 2 ^ 32) (sec_payload s).

(** The 32-bit wraparound sum of all payload words. *)
Definition payload_sum (secs : list section) : Z :=
  fold_left (fun acc w => u32 (acc + w)) (concat (map sec_payload secs)) 0.

End Firmware.

(** ** R820T2 tuner register shadow (tuner.c) *)
Module Tuner.

(** The build configuration of tuner.c: the BBRF103 presets, with the
    boundary spur prevention enabled. *)
Inductive tuner_params_t := TUNER_PARAMS_BBRF103 | TUNER_PARAMS_LIBRTLSDR.
Definition TUNER_PARAMS : tuner_params_t := TUNER_PARAMS_BBRF103.
Definition TUNER_BOUNDARY_SPUR_PREVENTION : bool := true.

Definition R820T2_REGISTERS : Z := 32.
Definition R820T2_REGISTERS_READ_MASK : Z := 0xffffffff.
Definition R820T2_REGISTERS_WRITE_MASK : Z := 0xfffffff0.
Definition DEFAULT_TUNER_XTAL_FREQUENCY : Z := 32000000.
Definition DEFAULT_TUNER_IF_FREQUENCY : Z := 7000000.
Definition CALIBRATION_LO_FREQUENCY : float := 88e6%float.

(** A register field descriptor [{reg, mask, shift}]. *)
Record field := mk_field { f_reg : Z; f_mask : Z; f_shift : Z }.

Definition R820T2_VCO_INDICATOR := mk_field 0x02 0x7f 0.
Definition R820T2_RF_INDICATOR := mk_field 0x03 0xff 0.
Definition R820T2_FIL_CAL_CODE := mk_field 0x04 0x0f 0.
Definition R820T2_PWD_LT := mk_field 0x05 0x80 7.
Definition R820T2_PWD_LNA1 := mk_field 0x05 0x20 5.
Definition R820T2_LNA_GAIN_MODE := mk_field 0x05 0x10 4.
Definition R820T2_LNA_GAIN := mk_field 0x05 0x0f 0.
Definition R820T2_PWD_PDET1 := mk_field 0x06 0x80 7.
Definition R820T2_PWD_PDET3 := mk_field 0x06 0x40 6.
Definition R820T2_FILT_3DB := mk_field 0x06 0x20 5.
Definition R820T2_PW_LNA := mk_field 0x06 0x07 0.
Definition R820T2_PWD_MIX := mk_field 0x07 0x40 6.
Definition R820T2_PW0_MIX := mk_field 0x07 0x20 5.
Definition R820T2_MIXGAIN_MODE := mk_field 0x07 0x10 4.
Definition R820T2_MIX_GAIN := mk_field 0x07 0x0f 0.
Definition R820T2_PWD_AMP := mk_field 0x08 0x80 7.
Definition R820T2_PW0_AMP := mk_field 0x08 0x40 6.
Definition R820T2_IMR_G := mk_field 0x08 0x3f 0.
Definition R820T2_PWD_IFFILT := mk_field 0x09 0x80 7.
Definition R820T2_PW1_IFFILT := mk_field 0x09 0x40 6.
Definition R820T2_IMR_P := mk_field 0x09 0x3f 0.
Definition R820T2_PWD_FILT := mk_field 0x0a 0x80 7.
Definition R820T2_PW_FILT := mk_field 0x0a 0x60 5.
Definition R820T2_FILT_CODE := mk_field 0x0a 0x0f 0.
Definition R820T2_FILT_BW := mk_field 0x0b 0xe0 5.
Definition R820T2_FILT_CAP := mk_field 0x0b 0x60 5.
Definition R820T2_CAL_TRIGGER := mk_field 0x0b 0x10 4.
Definition R820T2_HPF := mk_field 0x0b 0x0f 0.
Definition R820T2_PWD_VGA := mk_field 0x0c 0x40 6.
Definition R820T2_VGA_MODE := mk_field 0x0c 0x10 4.
Definition R820T2_VGA_CODE := mk_field 0x0c 0x0f 0.
Definition R820T2_LNA_VTHH := mk_field 0x0d 0xf0 4.
Definition R820T2_LNA_VTHL := mk_field 0x0d 0x0f 0.
Definition R820T2_MIX_VTH_H := mk_field 0x0e 0xf0 4.
Definition R820T2_MIX_VTH_L := mk_field 0x0e 0x0f 0.
Definition R820T2_CLK_OUT_ENB := mk_field 0x0f 0x10 4.
Definition R820T2_CALI_CLK := mk_field 0x0f 0x04 2.
Definition R820T2_CLK_AGC_ENB := mk_field 0x0f 0x02 1.
Definition R820T2_SEL_DIV := mk_field 0x10 0xe0 5.
Definition R820T2_REFDIV := mk_field 0x10 0x10 4.
Definition R820T2_XTAL_DRIVE := mk_field 0x10 0x08 3.
Definition R820T2_CAPX := mk_field 0x10 0x03 0.
Definition R820T2_PW_LDO_A := mk_field 0x11 0xc0 6.
Definition R820T2_VCO_CURRENT := mk_field 0x12 0xe0 5.
Definition R820T2_PW_SDM := mk_field 0x12 0x08 3.
Definition R820T2_SI2C := mk_field 0x14 0xc0 6.
Definition R820T2_NI2C := mk_field 0x14 0x3f 0.
Definition R820T2_SDM_INL := mk_field 0x15 0xff 0.
Definition R820T2_SDM_INH := mk_field 0x16 0xff 0.
Definition R820T2_PW_LDO_D := mk_field 0x17 0xc0 6.
Definition R820T2_OPEN_D := mk_field 0x17 0x08 3.
Definition R820T2_PWD_RFFILT := mk_field 0x19 0x80 7.
Definition R820T2_SW_AGC := mk_field 0x19 0x10 4.
Definition R820T2_RFMUX := mk_field 0x1a 0xc0 6.
Definition R820T2_PLL_AUTO_CLK := mk_field 0x1a 0x0c 2.
Definition R820T2_RFFILT := mk_field 0x1a 0x03 0.
Definition R820T2_TF_NCH := mk_field 0x1b 0xf0 4.
Definition R820T2_TF_LP := mk_field 0x1b 0x0f 0.
Definition R820T2_PDET3_GAIN := mk_field 0x1c 0xf0 4.
Definition R820T2_PDET1_GAIN := mk_field 0x1d 0x38 3.
Definition R820T2_PDET2_GAIN := mk_field 0x1d 0x07 0.
Definition R820T2_PDET_CLK := mk_field 0x1e 0x3f 0.
Definition R820T2_FILT_EXT := mk_field 0x1e 0x40 6.

(** The register matrix of tuner.c. *)
Definition register_map : list field := [
  R820T2_VCO_INDICATOR; R820T2_RF_INDICATOR; R820T2_FIL_CAL_CODE;
  R820T2_PWD_LT; R820T2_PWD_LNA1; R820T2_LNA_GAIN_MODE; R820T2_LNA_GAIN;
  R820T2_PWD_PDET1; R820T2_PWD_PDET3; R820T2_FILT_3DB; R820T2_PW_LNA;
  R820T2_PWD_MIX; R820T2_PW0_MIX; R820T2_MIXGAIN_MODE; R820T2_MIX_GAIN;
  R820T2_PWD_AMP; R820T2_PW0_AMP; R820T2_IMR_G; R820T2_PWD_IFFILT;
  R820T2_PW1_IFFILT; R820T2_IMR_P; R820T2_PWD_FILT; R820T2_PW_FILT;
  R820T2_FILT_CODE; R820T2_FILT_BW; R820T2_FILT_CAP; R820T2_CAL_TRIGGER;
  R820T2_HPF; R820T2_PWD_VGA; R820T2_VGA_MODE; R820T2_VGA_CODE;
  R820T2_LNA_VTHH; R820T2_LNA_VTHL; R820T2_MIX_VTH_H; R820T2_MIX_VTH_L;
  R820T2_CLK_OUT_ENB; R820T2_CALI_CLK; R820T2_CLK_AGC_ENB; R820T2_SEL_DIV;
  R820T2_REFDIV; R820T2_XTAL_DRIVE; R820T2_CAPX; R820T2_PW_LDO_A;
  R820T2_VCO_CURRENT; R820T2_PW_SDM; R820T2_SI2C; R820T2_NI2C;
  R820T2_SDM_INL; R820T2_SDM_INH; R820T2_PW_LDO_D; R820T2_OPEN_D;
  R820T2_PWD_RFFILT; R820T2_SW_AGC; R820T2_RFMUX; R820T2_PLL_AUTO_CLK;
  R820T2_RFFILT; R820T2_TF_NCH; R820T2_TF_LP; R820T2_PDET3_GAIN;
  R820T2_PDET1_GAIN; R820T2_PDET2_GAIN; R820T2_PDET_CLK; R820T2_FILT_EXT
].

(** The register shadow [uint8_t registers[32]], indexed by register. *)
Definition reg_get (regs : list Z) (i : Z) : Z := nth (Z.to_nat i) regs 0.

Fixpoint set_nth (l : list Z) (n : nat) (v : Z) : list Z :=
  match l, n with
  | [], _ => []
  | _ :: t, O => v :: t
  | h :: t, S n' => h :: set_nth t n' v
  end.

Definition reg_set (regs : list Z) (i v : Z) : list Z := set_nth regs (Z.to_nat i) v.

(** The registers [from, from + len). *)
Definition zseq (from len : Z) : list Z :=
  map (fun k => from + Z.of_nat k) (seq 0 (Z.to_nat len)).

Record tuner := mk_tuner {
  xtal_frequency : Z;
  if_frequency : Z;
  registers : list Z;
  registers_dirty_mask : Z
}.

Definition with_registers (this : tuner) (regs : list Z) : tuner :=
  mk_tuner (xtal_frequency this) (if_frequency this) regs (registers_dirty_mask this).

Definition with_dirty_mask (this : tuner) (mask : Z) : tuner :=
  mk_tuner (xtal_frequency this) (if_frequency this) (registers this) mask.

(** The I2C transactions of usb_device_i2c_write and usb_device_i2c_read,
    with the bytes written (from the shadow) or delivered by the device,
    and the return code. *)
Record xfer := mk_xfer { x_write : bool; x_from : Z; x_data : list Z; x_ret : Z }.

(** The device: the return code of the n-th I2C transaction, and the byte
    it delivers for register i when it is a read. *)
Record bus := mk_bus { bus_ret : nat -> Z; bus_data : nat -> Z -> Z }.

Record world := mk_world { w_tuner : tuner; w_log : list xfer; w_bus : bus }.

(** A state monad over [world]; [None] is a failed [assert] (abort). *)
Definition M (A : Type) : Type := world -> option (A * world).

Definition ret {A} (a : A) : M A := fun w => Some (a, w).

Definition bind {A B} (m : M A) (k : A -> M B) : M B :=
  fun w => match m w with Some (a, w') => k a w' | None => None end.

Notation "'let*' x ':=' m 'in' k" := (bind m (fun x => k))
  (at level 200, x pattern, m at level 100, k at level 200, right associativity).

Definition get_tuner : M tuner := fun w => Some (w_tuner w, w).

Definition put_tuner (this : tuner) : M unit :=
  fun w => Some (tt, mk_world this (w_log w) (w_bus w)).

Definition get_log : M (list xfer) := fun w => Some (w_log w, w).

Definition assert (b : bool) : M unit := fun w => if b then Some (tt, w) else None.

(** usb_device_i2c_write(usb, R820T2_ADDR_WRITE, from, registers + from, len) *)
Definition usb_device_i2c_write (from len : Z) : M Z := fun w =>
  let n := length (w_log w) in
  let r := bus_ret (w_bus w) n in
  let data := map (reg_get (registers (w_tuner w))) (zseq from len) in
  Some (r, mk_world (w_tuner w) (w_log w ++ [mk_xfer true from data r]) (w_bus w)).

Fixpoint store (regs : list Z) (from : Z) (data : list Z) : list Z :=
  match data with
  | [] => regs
  | d :: ds => store (reg_set regs from d) (from + 1) ds
  end.

(** usb_device_i2c_read(usb, R820T2_ADDR_READ, from, registers + from, len):
    on success the bytes land in the shadow; on failure the shadow is kept. *)
Definition usb_device_i2c_read (from len : Z) : M Z := fun w =>
  let n := length (w_log w) in
  let r := bus_ret (w_bus w) n in
  let data := map (bus_data (w_bus w) n) (zseq from len) in
  let this := w_tuner w in
  let this' := if r <? 0 then this else with_registers this (store (registers this) from data) in
  Some (r, mk_world this' (w_log w ++ [mk_xfer false from data r]) (w_bus w)).

Definition r82xx_bitrev (byte : Z) : Z :=
  let lut := [0x0; 0x8; 0x4; 0xc; 0x2; 0xa; 0x6; 0xe;
              0x1; 0x9; 0x5; 0xd; 0x3; 0xb; 0x7; 0xf] in
  u8 (Z.lor (Z.shiftl (nth (Z.to_nat (Z.land byte 0xf)) lut 0) 4)
            (nth (Z.to_nat (Z.shiftr byte 4)) lut 0)).

(** [for (j = from; j < upto; j++) registers[j] = r82xx_bitrev(registers[j]);] *)
Definition bitrev_range (regs : list Z) (from upto : Z) : list Z :=
  fold_left (fun rs j => reg_set rs j (r82xx_bitrev (reg_get rs j))) (zseq from (upto - from)) regs.

(** *** Field access *)

Definition tuner_get_value (this : tuner) (where' : field) : Z :=
  let reg := f_reg where' in
  Z.shiftr (Z.land (reg_get (registers this) reg) (f_mask where')) (f_shift where').

Definition tuner_set_value (this : tuner) (where' : field) (value : Z) : tuner :=
  let value := u8 value in
  let reg := f_reg where' in
  let r := u8 (Z.land (reg_get (registers this) reg) (Z.lnot (f_mask where'))) in
  let r := u8 (Z.lor r (Z.shiftl value (f_shift where'))) in
  mk_tuner (xtal_frequency this) (if_frequency this) (reg_set (registers this) reg r)
           (u32 (Z.lor (registers_dirty_mask this) (Z.shiftl 1 reg))).

(** The byte [tuner_set_value] leaves in register [f_reg f] when it held [r]. *)
Definition field_byte (r : Z) (f : field) (v : Z) : Z :=
  u8 (Z.lor (u8 (Z.land r (Z.lnot (f_mask f)))) (Z.shiftl (u8 v) (f_shift f))).

Definition set_value (where' : field) (value : Z) : M unit :=
  let* this := get_tuner in put_tuner (tuner_set_value this where' value).

Definition tuner_read_value (where' : field) : M (Z * Z) :=
  let reg := f_reg where' in
  let* r := usb_device_i2c_read 0 (reg + 1) in
  if r <? 0 then ret (-1, 0) else
  let* this := get_tuner in
  let regs := bitrev_range (registers this) 0 (reg + 1) in
  let mask := u32 (Z.land (registers_dirty_mask this) (Z.lnot (Z.shiftl 1 (reg + 1) - 1))) in
  let* _ := put_tuner (with_dirty_mask (with_registers this regs) mask) in
  ret (0, Z.shiftr (Z.land (reg_get regs reg) (f_mask where')) (f_shift where')).

Fixpoint read_registers_loop (fuel : nat) (mask i from : Z) : M Z :=
  match fuel with
  | O => ret 0
  | S fuel' =>
      if (i =? R820T2_REGISTERS) || (Z.land (Z.shiftl 1 i) mask =? 0) then
        if 0 <=? from then
          let* r := usb_device_i2c_read from (i - from) in
          if r <? 0 then ret (-1) else
          let* this := get_tuner in
          let* _ := put_tuner (with_registers this (bitrev_range (registers this) from i)) in
          read_registers_loop fuel' mask (i + 1) (-1)
        else read_registers_loop fuel' mask (i + 1) from
      else read_registers_loop fuel' mask (i + 1) (if from <? 0 then i else from)
  end.

Definition tuner_read_registers (register_mask : Z) : M Z :=
  let mask := Z.land register_mask R820T2_REGISTERS_READ_MASK in
  let* r := read_registers_loop (Z.to_nat R820T2_REGISTERS + 1) mask 0 (-1) in
  if r <? 0 then ret (-1) else
  let* this := get_tuner in
  let* _ := put_tuner (with_dirty_mask this (u32 (Z.land (registers_dirty_mask this) (Z.lnot mask)))) in
  ret 0.

Definition tuner_write_value (where' : field) (value : Z) : M Z :=
  let value := u8 value in
  let* _ := assert (Z.land (Z.shiftl value (f_shift where')) (Z.lnot (f_mask where')) =? 0) in
  let* _ := assert (Z.shiftl 1 (f_shift where') <=? f_mask where') in
  let reg := f_reg where' in
  let* this := get_tuner in
  let r := u8 (Z.land (reg_get (registers this) reg) (Z.lnot (f_mask where'))) in
  let r := u8 (Z.lor r (Z.shiftl value (f_shift where'))) in
  let* _ := put_tuner (mk_tuner (xtal_frequency this) (if_frequency this)
                   (reg_set (registers this) reg r)
                   (u32 (Z.lor (registers_dirty_mask this) (Z.shiftl 1 reg)))) in
  let* ret' := usb_device_i2c_write reg 1 in
  if ret' <? 0 then ret (-1) else
  let* this := get_tuner in
  let* _ := put_tuner (with_dirty_mask this
                   (u32 (Z.land (registers_dirty_mask this) (Z.lnot (Z.shiftl 1 reg))))) in
  ret 0.

Fixpoint write_registers_loop (fuel : nat) (mask i from : Z) : M Z :=
  match fuel with
  | O => ret 0
  | S fuel' =>
      if (i =? R820T2_REGISTERS) || (Z.land (Z.shiftl 1 i) mask =? 0) then
        if 0 <=? from then
          let* r := usb_device_i2c_write from (i - from) in
          if r <? 0 then ret (-1) else
          write_registers_loop fuel' mask (i + 1) (-1)
        else write_registers_loop fuel' mask (i + 1) from
      else write_registers_loop fuel' mask (i + 1) (if from <? 0 then i else from)
  end.

Definition tuner_write_registers (register_mask : Z) : M Z :=
  let mask := Z.land register_mask R820T2_REGISTERS_WRITE_MASK in
  let* r := write_registers_loop (Z.to_nat R820T2_REGISTERS + 1) mask 0 (-1) in
  if r <? 0 then ret (-1) else
  let* this := get_tuner in
  let* _ := put_tuner (with_dirty_mask this (u32 (Z.land (registers_dirty_mask this) (Z.lnot mask)))) in
  ret 0.

(** [tuner_write_registers(this, this->registers_dirty_mask)] *)
Definition flush_dirty : M Z :=
  let* this := get_tuner in tuner_write_registers (registers_dirty_mask this).

(** *** PLL *)

Record tuner_pll_parameters := mk_pll {
  refdiv : Z;
  sel_div : Z;
  ni2c : Z;
  si2c : Z;
  pw_sdm : Z;
  sdm : Z
}.

Definition MIN_VCO_FREQUENCY : float := 1.77e9%float.
Definition MAX_SEL_DIV : Z := 5.
Definition MIN_MULTIPLIER : float := 13%float.
Definition MAX_MULTIPLIER : float := (MIN_MULTIPLIER + 128)%float.
Definition SDM_FRAC_PRECISION : Z := 65536.

(** [while (sel_div <= MAX_SEL_DIV && vco_frequency < MIN_VCO_FREQUENCY)]:
    at most six iterations, after which [sel_div = 6]. *)
Fixpoint sel_div_loop (fuel : nat) (sel_div : Z) (vco_frequency : float) : Z * float :=
  match fuel with
  | O => (sel_div, vco_frequency)
  | S fuel' =>
      if (sel_div <=? MAX_SEL_DIV) && (vco_frequency <? MIN_VCO_FREQUENCY)%float
      then sel_div_loop fuel' (sel_div + 1) (vco_frequency * 2)%float
      else (sel_div, vco_frequency)
  end.

(** The PLL feedback multiplier for a given REFDIV setting; the source
    leaves [multiplier] unset for any other value, which never occurs. *)
Definition tuner_pll_multiplier (refdiv : Z) (vco_frequency : float) (xtal_frequency : Z) : float :=
  if refdiv =? 0 then (vco_frequency / float_of_Z (u32 (2 * xtal_frequency)))%float
  else if refdiv =? 1 then (vco_frequency / float_of_Z xtal_frequency)%float
  else nan.

(** [uint32_t mult_scaled = (uint32_t) (multiplier * SDM_FRAC_PRECISION + 0.5);] *)
Definition tuner_mult_scaled (multiplier : float) : Z :=
  u32 (float_trunc_Z (multiplier * float_of_Z SDM_FRAC_PRECISION + 0.5)%float).

Definition boundary_spur_prevention (mult_int mult_frac : Z) : Z * Z :=
  let BOUNDARY_MARGIN := SDM_FRAC_PRECISION / 128 in
  let LOWER_HALF_MARGIN := SDM_FRAC_PRECISION / 2 - BOUNDARY_MARGIN / 2 in
  let UPPER_HALF_MARGIN := SDM_FRAC_PRECISION / 2 + BOUNDARY_MARGIN / 2 in
  if mult_frac <? BOUNDARY_MARGIN then (mult_int, 0)
  else if mult_frac >? SDM_FRAC_PRECISION - BOUNDARY_MARGIN then (u32 (mult_int + 1), 0)
  else if (mult_frac <? SDM_FRAC_PRECISION / 2) && (mult_frac >? LOWER_HALF_MARGIN)
  then (mult_int, LOWER_HALF_MARGIN)
  else if (mult_frac >? SDM_FRAC_PRECISION / 2) && (mult_frac <? UPPER_HALF_MARGIN)
  then (mult_int, UPPER_HALF_MARGIN)
  else (mult_int, mult_frac).

(** [None] is the [return -1] of the source. *)
Definition tuner_compute_pll_parameters (xtal_frequency : Z) (frequency : float)
    : option tuner_pll_parameters :=
  let refdiv := match TUNER_PARAMS with
                | TUNER_PARAMS_BBRF103 => 1
                | TUNER_PARAMS_LIBRTLSDR => 0
                end in
  let '(sel_div, vco_frequency) := sel_div_loop 7 0 (frequency * 2)%float in
  if sel_div >? MAX_SEL_DIV then None else
  let multiplier := tuner_pll_multiplier refdiv vco_frequency xtal_frequency in
  if (multiplier <? MIN_MULTIPLIER)%float then None else
  if (MAX_MULTIPLIER <=? multiplier)%float then None else
  let mult_scaled := tuner_mult_scaled multiplier in
  let mult_int := mult_scaled / SDM_FRAC_PRECISION in
  let mult_frac := mult_scaled mod SDM_FRAC_PRECISION in
  let '(mult_int, mult_frac) :=
    if TUNER_BOUNDARY_SPUR_PREVENTION then boundary_spur_prevention mult_int mult_frac
    else (mult_int, mult_frac) in
  Some {| refdiv := refdiv;
          sel_div := sel_div;
          ni2c := u8 (u32 (mult_int - 13) / 4);
          si2c := u8 (u32 (mult_int - 13) mod 4);
          pw_sdm := if mult_frac =? 0 then 1 else 0;
          sdm := u16 mult_frac |}.

Definition tuner_apply_pll_parameters (pll_params : tuner_pll_parameters) : M Z :=
  let* r := tuner_write_value R820T2_PLL_AUTO_CLK 0 in
  if r <? 0 then ret (-1) else
  let* r := tuner_write_value R820T2_VCO_CURRENT 4 in
  if r <? 0 then ret (-1) else
  let* _ := set_value R820T2_REFDIV (refdiv pll_params) in
  let* _ := set_value R820T2_SEL_DIV (sel_div pll_params) in
  let* _ := set_value R820T2_PW_SDM (pw_sdm pll_params) in
  let* _ := set_value R820T2_SI2C (si2c pll_params) in
  let* _ := set_value R820T2_NI2C (ni2c pll_params) in
  let* _ := set_value R820T2_SDM_INL (Z.land (sdm pll_params) 0xff) in
  let* _ := set_value R820T2_SDM_INH (Z.land (Z.shiftr (sdm pll_params) 8) 0xff) in
  let* r := flush_dirty in
  if r <? 0 then ret (-1) else
  let* (r, vco_indicator) := tuner_read_value R820T2_VCO_INDICATOR in
  if r <? 0 then ret (-1) else
  let* r :=
    (if Z.land vco_indicator 0x40 =? 0 then
       let* r := tuner_write_value R820T2_VCO_CURRENT 3 in
       if r <? 0 then ret (-1) else
       (* the inner [vco_indicator] shadows the outer one *)
       let* (r, _) := tuner_read_value R820T2_VCO_INDICATOR in
       if r <? 0 then ret (-1) else ret 0
     else ret 0) in
  if r <? 0 then ret (-1) else
  (* an unlocked PLL only prints a warning *)
  let* r := tuner_write_value R820T2_PLL_AUTO_CLK 2 in
  if r <? 0 then ret (-1) else ret 0.

Definition tuner_set_pll (frequency : float) : M Z :=
  let* this := get_tuner in
  match tuner_compute_pll_parameters (xtal_frequency this) frequency with
  | None => ret (-1)
  | Some pll_params =>
      let* r := tuner_apply_pll_parameters pll_params in
      if r <? 0 then ret (-1) else ret 0
  end.

(** *** RF multiplexer and tracking filter *)

Record tuner_mux_parameters := mk_mux {
  open_d : Z;
  rfmux : Z;
  rffilt : Z;
  tf_nch : Z;
  tf_lp : Z
}.

(** [{lower_frequency, {open_d, rf_mux_ploy, tf_c}}] *)
Definition mux_params_table : list (float * (Z * Z * Z)) := [
  (0.0%float, (0x08, 0x02, 0xdf));
  (50e6%float, (0x08, 0x02, 0xbe));
  (55e6%float, (0x08, 0x02, 0x8b));
  (60e6%float, (0x08, 0x02, 0x7b));
  (65e6%float, (0x08, 0x02, 0x69));
  (70e6%float, (0x08, 0x02, 0x58));
  (75e6%float, (0x00, 0x02, 0x44));
  (80e6%float, (0x00, 0x02, 0x44));
  (90e6%float, (0x00, 0x02, 0x34));
  (100e6%float, (0x00, 0x02, 0x34));
  (110e6%float, (0x00, 0x02, 0x24));
  (120e6%float, (0x00, 0x02, 0x24));
  (140e6%float, (0x00, 0x02, 0x14));
  (180e6%float, (0x00, 0x02, 0x13));
  (220e6%float, (0x00, 0x02, 0x13));
  (250e6%float, (0x00, 0x02, 0x11));
  (280e6%float, (0x00, 0x02, 0x00));
  (310e6%float, (0x00, 0x41, 0x00));
  (450e6%float, (0x00, 0x41, 0x00));
  (588e6%float, (0x00, 0x40, 0x00));
  (650e6%float, (0x00, 0x40, 0x00))
].

(** [for (idx = 0; idx < size - 1; ++idx)
       if (frequency < table[idx+1].lower_frequency) break;] *)
Fixpoint mux_search (rows : list (float * (Z * Z * Z))) (idx : nat) (frequency : float) : nat :=
  match rows with
  | _ :: ((lower_frequency, _) :: _) as rest =>
      if (frequency <? lower_frequency)%float then idx else mux_search rest (S idx) frequency
  | _ => idx
  end.

Definition tuner_compute_mux_parameters (frequency : float) : tuner_mux_parameters :=
  let idx := mux_search mux_params_table 0 frequency in
  let '(_, (open_d, rf_mux_ploy, tf_c)) := nth idx mux_params_table (0.0%float, (0, 0, 0)) in
  {| open_d := Z.shiftr open_d 3;
     rfmux := Z.shiftr (Z.land rf_mux_ploy 0xc0) 6;
     rffilt := Z.land rf_mux_ploy 0x03;
     tf_nch := Z.shiftr (Z.land tf_c 0xf0) 4;
     tf_lp := Z.land tf_c 0x0f |}.

Definition tuner_apply_mux_parameters (mux_params : tuner_mux_parameters) : M Z :=
  let* _ := set_value R820T2_OPEN_D (open_d mux_params) in
  let* _ := set_value R820T2_RFMUX (rfmux mux_params) in
  let* _ := set_value R820T2_RFFILT (rffilt mux_params) in
  let* _ := set_value R820T2_TF_NCH (tf_nch mux_params) in
  let* _ := set_value R820T2_TF_LP (tf_lp mux_params) in
  let* _ := set_value R820T2_XTAL_DRIVE 0 in
  let* _ := set_value R820T2_CAPX 0 in
  let* _ := set_value R820T2_PWD_AMP 1 in
  let* _ := set_value R820T2_PW0_AMP 0 in
  let* _ := set_value R820T2_IMR_G 0 in
  let* _ := set_value R820T2_PWD_IFFILT 0 in
  let* _ := set_value R820T2_PW1_IFFILT 0 in
  let* _ := set_value R820T2_IMR_P 0 in
  let* r := flush_dirty in
  if r <? 0 then ret (-1) else ret 0.

Definition tuner_set_mux (frequency : float) : M Z :=
  let mux_params := tuner_compute_mux_parameters frequency in
  let* r := tuner_apply_mux_parameters mux_params in
  if r <? 0 then ret (-1) else ret 0.

Definition tuner_set_frequency (frequency : float) : M Z :=
  let* r := tuner_set_mux frequency in
  if r <? 0 then ret (-1) else
  let* this := get_tuner in
  let lo_frequency := (frequency + float_of_Z (if_frequency this))%float in
  let* r := tuner_set_pll lo_frequency in
  if r <? 0 then ret (-1) else ret 0.

Definition tuner_set_harmonic_frequency (frequency : float) (harmonic : Z) : M Z :=
  if (harmonic <? 0) || (Z.rem harmonic 2 =? 0) then ret (-1) else
  let* r := tuner_set_mux frequency in
  if r <? 0 then ret (-1) else
  let* this := get_tuner in
  let lo_frequency := ((frequency + float_of_Z (if_frequency this)) / float_of_Z harmonic)%float in
  let* r := tuner_set_pll lo_frequency in
  if r <? 0 then ret (-1) else ret 0.

(** *** Gains, IF bandwidth, standby *)

(** The index found by [for (idx = 0; idx < size; ++idx) if (x == table[idx]) break;]. *)
Fixpoint table_index (table : list Z) (x : Z) : Z :=
  match table with
  | [] => 0
  | t :: table' => if x =? t then 0 else 1 + table_index table' x
  end.

Definition tuner_lna_gains_table : list Z :=
  [0; 2; 4; 6; 8; 10; 12; 14; 16; 18; 20; 22; 24; 26; 28; 30].
Definition tuner_mixer_gains_table : list Z :=
  [0; 1; 2; 3; 4; 5; 6; 7; 8; 9; 10; 11; 12; 13; 14; 15].
Definition tuner_vga_gains_table : list Z :=
  [0; 1; 2; 3; 4; 5; 6; 7; 8; 9; 10; 11; 12; 13; 14; 15].

Definition tuner_set_lna_gain (gain : Z) : M Z :=
  let idx := table_index tuner_lna_gains_table gain in
  if idx =? Z.of_nat (length tuner_lna_gains_table) then ret (-1) else
  let* r := tuner_write_value R820T2_LNA_GAIN (u8 idx) in
  if r <? 0 then ret (-1) else ret 0.

Definition tuner_set_lna_agc (agc : Z) : M Z :=
  let* r := tuner_write_value R820T2_LNA_GAIN_MODE (if agc =? 0 then 1 else 0) in
  if r <? 0 then ret (-1) else ret 0.

Definition tuner_set_mixer_gain (gain : Z) : M Z :=
  let idx := table_index tuner_mixer_gains_table gain in
  if idx =? Z.of_nat (length tuner_mixer_gains_table) then ret (-1) else
  let* r := tuner_write_value R820T2_MIX_GAIN (u8 idx) in
  if r <? 0 then ret (-1) else ret 0.

Definition tuner_set_mixer_agc (agc : Z) : M Z :=
  let* r := tuner_write_value R820T2_MIXGAIN_MODE (if agc =? 0 then 0 else 1) in
  if r <? 0 then ret (-1) else ret 0.

Definition tuner_set_vga_gain (gain : Z) : M Z :=
  let idx := table_index tuner_vga_gains_table gain in
  if idx =? Z.of_nat (length tuner_vga_gains_table) then ret (-1) else
  let* r := tuner_write_value R820T2_VGA_CODE (u8 idx) in
  if r <? 0 then ret (-1) else ret 0.

(** [{bandwidth, reg0x0a, reg0x0b}] *)
Definition tuner_if_bandwidth_table : list (Z * Z * Z) := [
  (300000, 0x0f, 0xe8); (450000, 0x0f, 0xe9); (600000, 0x0f, 0xea);
  (900000, 0x0f, 0xeb); (1100000, 0x0f, 0xec); (1200000, 0x0f, 0xed);
  (1300000, 0x0f, 0xee); (1500000, 0x0e, 0xef); (1800000, 0x0f, 0xaf);
  (2200000, 0x0f, 0x8f); (3000000, 0x04, 0x8f); (5000000, 0x0b, 0x6b);
  (6000000, 0x10, 0x6b); (7000000, 0x10, 0x2a); (8000000, 0x10, 0x0b)
].

Definition tuner_set_if_bandwidth (bandwidth : Z) : M Z :=
  let idx := table_index (map (fun e => fst (fst e)) tuner_if_bandwidth_table) bandwidth in
  if idx =? Z.of_nat (length tuner_if_bandwidth_table) then ret (-1) else
  let '(_, reg0x0a, reg0x0b) := nth (Z.to_nat idx) tuner_if_bandwidth_table (0, 0, 0) in
  let* _ := set_value R820T2_FILT_CODE (Z.land reg0x0a 0x0f) in
  let* _ := set_value R820T2_FILT_BW (Z.shiftr (Z.land reg0x0b 0xe0) 5) in
  let* _ := set_value R820T2_HPF (Z.land reg0x0b 0x0f) in
  let* r := flush_dirty in
  if r <? 0 then ret (-1) else ret 0.

Definition standby_registers : list (Z * Z) := [
  (0x06, 0xb1); (0x05, 0xa0); (0x07, 0x3a); (0x08, 0x40);
  (0x09, 0xc0); (0x0a, 0x36); (0x0c, 0x35); (0x0f, 0x68);
  (0x11, 0x03); (0x17, 0xf4); (0x19, 0x0c)
].

Definition tuner_standby : M Z :=
  let* this := get_tuner in
  let this := fold_left (fun t rv =>
                 mk_tuner (xtal_frequency t) (if_frequency t)
                   (reg_set (registers t) (fst rv) (snd rv))
                   (u32 (Z.lor (registers_dirty_mask t) (Z.shiftl 1 (fst rv)))))
                standby_registers this in
  let* _ := put_tuner this in
  let* r := flush_dirty in
  if r <? 0 then ret (-1) else ret 0.

(** *** Opening: initial registers, calibration *)

Definition init_registers : list Z :=
  match TUNER_PARAMS with
  | TUNER_PARAMS_BBRF103 =>
      [0x00; 0x00; 0x00; 0x00; 0x00; 0x90; 0x80; 0x60;
       0x80; 0x40; 0xa0; 0x6f; 0x40; 0x63; 0x75; 0xf8;
       0x7c; 0x83; 0x80; 0x00; 0x0f; 0x00; 0xc0; 0x30;
       0x48; 0xcc; 0x62; 0x00; 0x54; 0xae; 0x0a; 0xc0]
  | TUNER_PARAMS_LIBRTLSDR =>
      [0x00; 0x00; 0x00; 0x00; 0x00; 0x80; 0x13; 0x70;
       0xc0; 0x40; 0xdb; 0x6b; 0xeb; 0x53; 0x75; 0x68;
       0x6c; 0xbb; 0x80; 0x31; 0x0f; 0x00; 0xc0; 0x30;
       0x48; 0xec; 0x60; 0x00; 0x24; 0xdd; 0x0e; 0x40]
  end.

Definition tuner_init_registers : M Z :=
  let* this := get_tuner in
  let* _ := put_tuner (with_registers this init_registers) in
  let* r := tuner_write_registers R820T2_REGISTERS_WRITE_MASK in
  if r <? 0 then ret (-1) else ret 0.

(** One pass of the calibration loop: [inl r] is an early [return r],
    [inr cal_code] the calibration code read at its end. *)
Definition tuner_calibrate_attempt : M (Z + Z) :=
  let* r := tuner_write_value R820T2_FILT_CAP 0 in
  if r <? 0 then ret (inl (-1)) else
  let* r := tuner_write_value R820T2_CALI_CLK 1 in
  if r <? 0 then ret (inl (-1)) else
  let* r := tuner_write_value R820T2_CAPX 1 in
  if r <? 0 then ret (inl (-1)) else
  let* r := tuner_set_pll CALIBRATION_LO_FREQUENCY in
  if r <? 0 then ret (inl (-1)) else
  let* r := tuner_write_value R820T2_CAL_TRIGGER 1 in
  if r <? 0 then ret (inl (-1)) else
  (* usleep(2000) *)
  let* r := tuner_write_value R820T2_CAL_TRIGGER 0 in
  if r <? 0 then ret (inl (-1)) else
  let* r := tuner_write_value R820T2_CALI_CLK 0 in
  if r <? 0 then ret (inl (-1)) else
  let* (r, cal_code) := tuner_read_value R820T2_FIL_CAL_CODE in
  if r <? 0 then ret (inl (-1)) else ret (inr cal_code).

Definition n_calibration_attempts : nat := 5.

Fixpoint calibrate_loop (n : nat) : M Z :=
  match n with
  | O => ret (-1) (* unable to calibrate tuner after 5 attempts *)
  | S n' =>
      let* o := tuner_calibrate_attempt in
      match o with
      | inl r => ret r
      | inr cal_code =>
          if negb (cal_code =? 0) && negb (cal_code =? 0x0f) then ret 0
          else calibrate_loop n'
      end
  end.

Definition tuner_calibrate : M Z := calibrate_loop n_calibration_attempts.

(** [tuner_open]: 0 for the returned handle, -1 for the null pointer. *)
Definition tuner_open : M Z :=
  let* _ := put_tuner (mk_tuner DEFAULT_TUNER_XTAL_FREQUENCY DEFAULT_TUNER_IF_FREQUENCY
                                 (repeat 0 32) 0) in
  let* r := tuner_init_registers in
  if r <? 0 then ret (-1) else
  let* r := tuner_calibrate in
  if r <? 0 then ret (-1) else
  let* r := tuner_read_registers 0xffffffff in
  if r <? 0 then ret (-1) else ret 0.

(** *** The public tuner operations *)

Inductive tuner_call :=
  | TunerOpen
  | SetXtalFrequency (xtal_frequency : Z)
  | SetIfFrequency (if_frequency : Z)
  | SetFrequency (frequency : float)
  | SetHarmonicFrequency (frequency : float) (harmonic : Z)
  | SetLnaGain (gain : Z)
  | SetLnaAgc (agc : Z)
  | SetMixerGain (gain : Z)
  | SetMixerAgc (agc : Z)
  | SetVgaGain (gain : Z)
  | SetIfBandwidth (bandwidth : Z)
  | TunerStart
  | TunerStop
  | TunerStandby.

Definition tuner_api (c : tuner_call) : M Z :=
  match c with
  | TunerOpen => tuner_open
  | SetXtalFrequency x =>
      let* this := get_tuner in
      let* _ := put_tuner (mk_tuner (u32 x) (if_frequency this) (registers this)
                                    (registers_dirty_mask this)) in
      ret 0
  | SetIfFrequency x =>
      let* this := get_tuner in
      let* _ := put_tuner (mk_tuner (xtal_frequency this) (u32 x) (registers this)
                                    (registers_dirty_mask this)) in
      ret 0
  | SetFrequency f => tuner_set_frequency f
  | SetHarmonicFrequency f h => tuner_set_harmonic_frequency f h
  | SetLnaGain g => tuner_set_lna_gain g
  | SetLnaAgc a => tuner_set_lna_agc a
  | SetMixerGain g => tuner_set_mixer_gain g
  | SetMixerAgc a => tuner_set_mixer_agc a
  | SetVgaGain g => tuner_set_vga_gain g
  | SetIfBandwidth bw => tuner_set_if_bandwidth bw
  | TunerStart => ret 0
  | TunerStop => ret 0
  | TunerStandby => tuner_standby
  end.

Fixpoint tuner_api_run (cs : list tuner_call) : M (list Z) :=
  match cs with
  | [] => ret []
  | c :: cs' =>
      let* r := tuner_api c in
      let* rs := tuner_api_run cs' in
      ret (r :: rs)
  end.

(** *** Shadow operations and the registers they leave unflushed *)

Inductive shadow_op :=
  | OpSetValue (where' : field) (value : Z)
  | OpWriteValue (where' : field) (value : Z)
  | OpWriteRegisters (register_mask : Z)
  | OpReadValue (where' : field)
  | OpReadRegisters (register_mask : Z).

Definition shadow_step (o : shadow_op) : M Z :=
  match o with
  | OpSetValue f v => let* _ := set_value f v in ret 0
  | OpWriteValue f v => tuner_write_value f v
  | OpWriteRegisters m => tuner_write_registers m
  | OpReadValue f => let* (r, _) := tuner_read_value f in ret r
  | OpReadRegisters m => tuner_read_registers m
  end.

(** The operations on fields of the register map. *)
Definition shadow_op_ok (o : shadow_op) : Prop :=
  match o with
  | OpSetValue f _ | OpWriteValue f _ | OpReadValue f => In f register_map
  | _ => True
  end.

(** What happens to the shadow: a register is written, or a range of
    registers is transferred to or from the device by a successful I2C
    transaction. *)
Inductive shadow_event :=
  | EvShadow (reg : Z)
  | EvTransfer (from len : Z).

Definition op_shadow_events (o : shadow_op) : list shadow_event :=
  match o with
  | OpSetValue f _ | OpWriteValue f _ => [EvShadow (f_reg f)]
  | _ => []
  end.

Definition xfer_events (new : list xfer) : list shadow_event :=
  flat_map (fun x => if 0 <=? x_ret x
                     then [EvTransfer (x_from x) (Z.of_nat (length (x_data x)))]
                     else []) new.

Fixpoint run_shadow_ops (os : list shadow_op) : M (list shadow_event) :=
  match os with
  | [] => ret []
  | o :: os' =>
      let* l0 := get_log in
      let* _ := shadow_step o in
      let* l1 := get_log in
      let* evs := run_shadow_ops os' in
      ret (op_shadow_events o ++ xfer_events (skipn (length l0) l1) ++ evs)
  end.

(** Register [i] has been written in the shadow and not transferred since;
    [acc] is its status before the events. *)
Definition unflushed (acc : bool) (evs : list shadow_event) (i : Z) : bool :=
  fold_left (fun acc e =>
               match e with
               | EvShadow r => if r =? i then true else acc
               | EvTransfer from len => if (from <=? i) && (i <? from + len) then false else acc
               end) evs acc.

(** Bit [j] of the dirty mask of [w'] against the events [evs] from [w]:
    set when the register is still unflushed, and equal to that status when
    the I2C transactions [new] all succeeded. *)
Definition dirty_tracks (w : world) (evs : list shadow_event) (new : list xfer) (w' : world) : Prop :=
  forall j, 0 <= j < 32 ->
    (unflushed (Z.testbit (registers_dirty_mask (w_tuner w)) j) evs j = true ->
     Z.testbit (registers_dirty_mask (w_tuner w')) j = true) /\
    (Forall (fun x => 0 <= x_ret x) new ->
     Z.testbit (registers_dirty_mask (w_tuner w')) j =
     unflushed (Z.testbit (registers_dirty_mask (w_tuner w)) j) evs j).

(** The codes read back by [tuner_read_value(R820T2_FIL_CAL_CODE)]: the
    successful five-byte reads from register 0. *)
Definition cal_read (x : xfer) : list Z :=
  if negb (x_write x) && (x_from x =? 0) && (length (x_data x) =? 5)%nat && (0 <=? x_ret x)
  then [Z.land (r82xx_bitrev (nth 4 (x_data x) 0)) 0x0f] else [].

Definition cal_codes (new : list xfer) : list Z := flat_map cal_read new.

(** *** Specification predicates *)

(** [m] keeps the crystal and IF frequencies, the number of shadow registers
    and the device, and only appends transactions satisfying [P] to the log. *)
Definition frame {A} (P : xfer -> Prop) (m : M A) : Prop :=
  forall w a w', m w = Some (a, w') ->
    xtal_frequency (w_tuner w') = xtal_frequency (w_tuner w) /\
    if_frequency (w_tuner w') = if_frequency (w_tuner w) /\
    length (registers (w_tuner w')) = length (registers (w_tuner w)) /\
    w_bus w' = w_bus w /\
    exists new, w_log w' = w_log w ++ new /\ Forall P new.

(** [m] keeps the property [Q] of the tuner. *)
Definition preserves {A} (Q : tuner -> Prop) (m : M A) : Prop :=
  forall w a w', m w = Some (a, w') -> Q (w_tuner w) -> Q (w_tuner w').

(** [m] never fails an assertion. *)
Definition safe {A} (m : M A) : Prop := forall w, m w <> None.

(** Two fields that share no bit of the shadow. *)
Definition field_disjoint (f g : field) : bool :=
  negb (f_reg f =? f_reg g) || (Z.land (f_mask f) (f_mask g) =? 0).

(** The shadow has its 32 registers and the fields [fst fv] hold the
    values [snd fv]. *)
Definition fields_hold (fvs : list (field * Z)) (this : tuner) : Prop :=
  length (registers this) = 32%nat /\
  Forall (fun fv => tuner_get_value this (fst fv) = snd fv) fvs.

(** The PLL fields written by [tuner_apply_pll_parameters]. *)
Definition pll_fields (p : tuner_pll_parameters) : list (field * Z) :=
  [(R820T2_REFDIV, refdiv p); (R820T2_SEL_DIV, sel_div p); (R820T2_PW_SDM, pw_sdm p);
   (R820T2_SI2C, si2c p); (R820T2_NI2C, ni2c p);
   (R820T2_SDM_INL, Z.land (sdm p) 0xff); (R820T2_SDM_INH, Z.land (Z.shiftr (sdm p) 8) 0xff)].

(** The value a field reads back after [tuner_set_value] stored [v] in it. *)
Definition field_value (f : field) (v : Z) : Z :=
  Z.land (u8 v) (Z.shiftr (f_mask f) (f_shift f)).

(** The first assertion of [tuner_write_value]: [v] has no bit outside the field. *)
Definition field_fits (f : field) (v : Z) : bool :=
  Z.land (Z.shiftl (u8 v) (f_shift f)) (Z.lnot (f_mask f)) =? 0.

Definition stored_fields (fvs : list (field * Z)) : list (field * Z) :=
  map (fun fv => (fst fv, field_value (fst fv) (snd fv))) fvs.

(** Every PLL parameter fits in its field. *)
Definition pll_fits (p : tuner_pll_parameters) : bool :=
  forallb (fun fv => field_fits (fst fv) (snd fv)) (pll_fields p).

(** If [m] succeeds from a tuner satisfying [Pre], its result and final
    tuner satisfy [Post]. *)
Definition hoare {A} (Pre : tuner -> Prop) (m : M A) (Post : A -> tuner -> Prop) : Prop :=
  forall w a w', m w = Some (a, w') -> Pre (w_tuner w) -> Post a (w_tuner w').

(** Whenever [m] succeeds from a tuner with its 32 registers, the tuner keeps
    them and the result [a] and the transactions [new] appended to the log
    satisfy [Q a new]. *)
Definition log_spec {A} (m : M A) (Q : A -> list xfer -> Prop) : Prop :=
  forall w a w', length (registers (w_tuner w)) = 32%nat -> m w = Some (a, w') ->
    length (registers (w_tuner w')) = 32%nat /\
    exists new, w_log w' = w_log w ++ new /\ Q a new.

(** The outcome of [tuner_calibrate_attempt]: an early [return -1] reads no
    calibration code, a completed attempt reads exactly [cal_code]. *)
Definition attempt_post (o : Z + Z) (new : list xfer) : Prop :=
  match o with
  | inl r => r = -1 /\ cal_codes new = []
  | inr cal_code => cal_codes new = [cal_code]
  end.

(** *** Observations used by the specifications of the public operations *)

(** An I2C write stays within registers 4 to 31, the ones the device lets
    the host write. *)
Definition writes_above_3 (x : xfer) : Prop :=
  x_write x = true -> 4 <= x_from x /\ x_from x + Z.of_nat (length (x_data x)) <= 32.

(** [m] only appends transactions satisfying [P] to the log. *)
Definition log_only {A} (P : xfer -> Prop) (m : M A) : Prop :=
  forall w a w', m w = Some (a, w') -> exists new, w_log w' = w_log w ++ new /\ Forall P new.

(** The body of [tuner_set_if_bandwidth] once the table row [(_, a, b)]
    (the values for registers 0x0a and 0x0b) has been found. *)
Definition if_bandwidth_body (a b : Z) : M Z :=
  let* _ := set_value R820T2_FILT_CODE (Z.land a 0x0f) in
  let* _ := set_value R820T2_FILT_BW (Z.shiftr (Z.land b 0xe0) 5) in
  let* _ := set_value R820T2_HPF (Z.land b 0x0f) in
  let* r := flush_dirty in
  if r <? 0 then ret (-1) else ret 0.

(** The fields [tuner_apply_mux_parameters] sets, with their values. *)
Definition mux_fields (p : tuner_mux_parameters) : list (field * Z) :=
  [(R820T2_OPEN_D, open_d p); (R820T2_RFMUX, rfmux p); (R820T2_RFFILT, rffilt p);
   (R820T2_TF_NCH, tf_nch p); (R820T2_TF_LP, tf_lp p);
   (R820T2_XTAL_DRIVE, 0); (R820T2_CAPX, 0); (R820T2_PWD_AMP, 1); (R820T2_PW0_AMP, 0);
   (R820T2_IMR_G, 0); (R820T2_PWD_IFFILT, 0); (R820T2_PW1_IFFILT, 0); (R820T2_IMR_P, 0)].

(** *** Sample configurations *)

(** A tuner with a zeroed shadow, on a device whose first I2C transaction
    succeeds and whose later ones return [ret1]. *)
Definition shadow_demo_world (ret1 : Z) : world :=
  mk_world (mk_tuner DEFAULT_TUNER_XTAL_FREQUENCY DEFAULT_TUNER_IF_FREQUENCY (repeat 0 32) 0) []
           (mk_bus (fun n => if Nat.eqb n 0 then 0 else ret1) (fun _ _ => 0)).

(** Set the LNA and mixer gains (registers 5 and 7), then flush both. *)
Definition shadow_demo_ops : list shadow_op :=
  [OpSetValue R820T2_LNA_GAIN 1; OpSetValue R820T2_MIX_GAIN 1; OpWriteRegisters 0xa0].

Definition shadow_demo_events : list shadow_event :=
  Eval vm_compute in
  match run_shadow_ops shadow_demo_ops (shadow_demo_world 0) with
  | Some (evs, _) => evs | None => [] end.

Definition shadow_demo_final : world :=
  Eval vm_compute in
  match run_shadow_ops shadow_demo_ops (shadow_demo_world 0) with
  | Some (_, w') => w' | None => shadow_demo_world 0 end.

(** [tuner_set_frequency] at 100 MHz on the zeroed tuner. *)
Definition set_frequency_demo_final : world :=
  Eval vm_compute in
  match tuner_set_frequency 100e6 (shadow_demo_world 0) with
  | Some (_, w') => w' | None => shadow_demo_world 0 end.

(** [tuner_calibrate] on the zeroed tuner, whose device reads back zeros. *)
Definition calibrate_demo_final : world :=
  Eval vm_compute in
  match tuner_calibrate (shadow_demo_world 0) with
  | Some (_, w') => w' | None => shadow_demo_world 0 end.

(** [tuner_open] on a device whose I2C transactions all succeed and whose
    reads return 0x55, so the calibration code read back is valid. *)
Definition open_demo_world : world :=
  mk_world (w_tuner (shadow_demo_world 0)) [] (mk_bus (fun _ => 0) (fun _ _ => 0x55)).

Definition open_demo_final : world :=
  Eval vm_compute in
  match tuner_open open_demo_world with Some (_, w') => w' | None => open_demo_world end.

(** Single operations on the zeroed tuner. *)
Definition lna_gain_demo_final : world :=
  Eval vm_compute in
  match tuner_set_lna_gain 8 (shadow_demo_world 0) with
  | Some (_, w') => w' | None => shadow_demo_world 0 end.

Definition lna_agc_demo_final : world :=
  Eval vm_compute in
  match tuner_set_lna_agc 0 (shadow_demo_world 0) with
  | Some (_, w') => w' | None => shadow_demo_world 0 end.

Definition if_bandwidth_demo_final : world :=
  Eval vm_compute in
  match tuner_set_if_bandwidth 6000000 (shadow_demo_world 0) with
  | Some (_, w') => w' | None => shadow_demo_world 0 end.

Definition set_mux_demo_final : world :=
  Eval vm_compute in
  match tuner_set_mux 100e6 (shadow_demo_world 0) with
  | Some (_, w') => w' | None => shadow_demo_world 0 end.

Definition standby_demo_final : world :=
  Eval vm_compute in
  match tuner_standby (shadow_demo_world 0) with
  | Some (_, w') => w' | None => shadow_demo_world 0 end.

Definition init_demo_final : world :=
  Eval vm_compute in
  match tuner_init_registers (shadow_demo_world 0) with
  | Some (_, w') => w' | None => shadow_demo_world 0 end.

(** A session: open, set a gain, a bandwidth and a frequency, then go to
    standby. *)
Definition api_demo_ops : list tuner_call :=
  [TunerOpen; SetLnaGain 8; SetIfBandwidth 6000000; SetFrequency 100e6; TunerStandby].

Definition api_demo_final : world :=
  Eval vm_compute in
  match tuner_api_run api_demo_ops open_demo_world with
  | Some (_, w') => w' | None => open_demo_world end.

End Tuner.

(** ** The rf103 library (librf103.c) *)

Module RF103.

(** [enum RFMode] (declared in rf103.h, which is not among the sources). *)
Inductive RFMode := HF_MODE | VHF_MODE.

Definition RFMode_eqb (a b : RFMode) : bool :=
  match a, b with
  | HF_MODE, HF_MODE | VHF_MODE, VHF_MODE => true
  | _, _ => false
  end.

(** The argument of [rf103_set_rf_mode]: one of the two modes, or any other
    value of the enum type (the [default] case). *)
Inductive rf_mode_arg := Mode (m : RFMode) | OtherMode (v : Z).

(** The clock outputs the library drives (declared outside the sources). *)
Inductive clock_index := ADC_CLOCK | TUNER_CLOCK.

Definition STARTFX3 : Z := 0xaa.
Definition STOPFX3 : Z := 0xab.
Definition TESTFX3 : Z := 0xac.

Definition GPIO_LED_RED : Z := 0x01.
Definition GPIO_LED_YELLOW : Z := 0x02.
Definition GPIO_LED_BLUE : Z := 0x04.
Definition GPIO_SEL0 : Z := 0x08.
Definition GPIO_SEL1 : Z := 0x10.
Definition GPIO_SHDWN : Z := 0x20.
Definition GPIO_DITHER : Z := 0x40.
Definition GPIO_RANDOM : Z := 0x80.

Definition initial_gpio_register : Z :=
  Z.lor (Z.lor (Z.lor GPIO_SEL1 GPIO_LED_BLUE) GPIO_LED_YELLOW) GPIO_LED_RED.

(** [struct rf103]; pointers are [Z], 0 being NULL. The [usb_device] and
    [clock_source] handles, fixed by [rf103_open], and [status], always
    [STATUS_READY], are left out. *)
Record rf103 := mk_rf103 {
  rf_mode : RFMode;
  has_tuner : Z;
  tuner : Z;
  adc : Z;
  sample_rate : float
}.

(** The calls the library makes to the USB device, clock source, tuner and
    ADC layers, with their arguments. *)
Inductive ext_call :=
  | UsbDeviceOpen (index gpio_register : Z)
  | UsbDeviceClose
  | UsbDeviceControl (request : Z)
  | UsbDeviceGpioSet (bit_pattern bit_mask : Z)
  | UsbDeviceGpioOn (bit_pattern : Z)
  | UsbDeviceGpioOff (bit_pattern : Z)
  | UsbDeviceGpioToggle (bit_pattern : Z)
  | ClockSourceOpen
  | ClockSourceClose
  | ClockSourceSetClock (index : clock_index) (frequency : float)
  | ClockSourceStartClock (index : clock_index)
  | ClockSourceStopClock (index : clock_index)
  | TunerOpen
  | TunerClose (t : Z)
  | TunerGetXtalFrequency (t : Z)
  | TunerStart (t : Z)
  | AdcOpenAsync (frame_size num_frames : Z)
  | AdcClose (a : Z)
  | AdcSetSampleRate (a : Z) (sample_rate : Z)
  | AdcStart (a : Z)
  | AdcStop (a : Z)
  | AdcResetStatus (a : Z).

(** The device: the handle, the calls made so far, and the value returned by
    the [n]-th call ([w_ret]) and the first byte it reads back ([w_data]). *)
Record world := mk_world {
  w_rf : rf103;
  w_calls : list ext_call;
  w_ret : nat -> Z;
  w_data : nat -> Z
}.

Definition M (A : Type) : Type := world -> A * world.

Definition ret {A} (a : A) : M A := fun w => (a, w).

Definition bind {A B} (m : M A) (k : A -> M B) : M B :=
  fun w => let '(a, w') := m w in k a w'.

Notation "'let*' x ':=' m 'in' k" := (bind m (fun x => k))
  (at level 200, x pattern, m at level 100, k at level 200, right associativity).

Definition get_rf : M rf103 := fun w => (w_rf w, w).

Definition put_rf (this : rf103) : M unit :=
  fun w => (tt, mk_world this (w_calls w) (w_ret w) (w_data w)).

(** Make call [c]; its return value comes from the device. *)
Definition call (c : ext_call) : M Z := fun w =>
  (w_ret w (length (w_calls w)),
   mk_world (w_rf w) (w_calls w ++ [c]) (w_ret w) (w_data w)).

(** A call with an input buffer: the return value and the first byte read. *)
Definition call_in (c : ext_call) : M (Z * Z) := fun w =>
  let n := length (w_calls w) in
  ((w_ret w n, w_data w n), mk_world (w_rf w) (w_calls w ++ [c]) (w_ret w) (w_data w)).

Definition with_tuner (this : rf103) (t : Z) : rf103 :=
  mk_rf103 (rf_mode this) (has_tuner this) t (adc this) (sample_rate this).

Definition with_adc (this : rf103) (a : Z) : rf103 :=
  mk_rf103 (rf_mode this) (has_tuner this) (tuner this) a (sample_rate this).

Definition with_sample_rate (this : rf103) (r : float) : rf103 :=
  mk_rf103 (rf_mode this) (has_tuner this) (tuner this) (adc this) r.

(** [has_tuner] (tuner.c): [usb_device_control(TESTFX3)] reads four bytes;
    a failure counts as no tuner. *)
Definition has_tuner_probe : M Z :=
  let* (r, data0) := call_in (UsbDeviceControl TESTFX3) in
  if r <? 0 then ret 0 else ret (if data0 =? 0 then 1 else 0).

(** [rf103_open]: whether a handle is returned. *)
Definition rf103_open (index : Z) : M bool :=
  let* usb_device := call (UsbDeviceOpen index initial_gpio_register) in
  if usb_device =? 0 then ret false else
  let* clock_source := call ClockSourceOpen in
  if clock_source =? 0 then let* _ := call UsbDeviceClose in ret false else
  let* t := has_tuner_probe in
  let* _ := put_rf (mk_rf103 HF_MODE t 0 0 0%float) in
  ret true.

Definition rf103_close : M unit :=
  let* this := get_rf in
  let* _ := (if adc this =? 0 then ret 0 else call (AdcClose (adc this))) in
  let* _ := (if tuner this =? 0 then ret 0 else call (TunerClose (tuner this))) in
  let* _ := call ClockSourceClose in
  let* _ := call UsbDeviceClose in
  ret tt.

Definition rf103_set_rf_mode (rf_mode_value : rf_mode_arg) : M Z :=
  match rf_mode_value with
  | Mode HF_MODE =>
      let* this := get_rf in
      let* _ := (if tuner this =? 0 then ret 0 else call (TunerClose (tuner this))) in
      let* _ := put_rf (with_tuner this 0) in
      ret 0
  | Mode VHF_MODE =>
      let* this := get_rf in
      if has_tuner this =? 0 then ret (-1) else
      let* t := call TunerOpen in
      let* _ := put_rf (with_tuner this t) in
      if t =? 0 then ret (-1) else ret 0
  | OtherMode _ => ret (-1)
  end.

Definition LED_BITS : Z := Z.lor (Z.lor GPIO_LED_RED GPIO_LED_YELLOW) GPIO_LED_BLUE.

Definition rf103_led_on (led_pattern : Z) : M Z :=
  if negb (Z.land led_pattern (Z.lnot LED_BITS) =? 0) then ret (-1)
  else call (UsbDeviceGpioOn led_pattern).

Definition rf103_led_off (led_pattern : Z) : M Z :=
  if negb (Z.land led_pattern (Z.lnot LED_BITS) =? 0) then ret (-1)
  else call (UsbDeviceGpioOff led_pattern).

Definition rf103_led_toggle (led_pattern : Z) : M Z :=
  if negb (Z.land led_pattern (Z.lnot LED_BITS) =? 0) then ret (-1)
  else call (UsbDeviceGpioToggle led_pattern).

Definition rf103_adc_dither (dither : Z) : M Z :=
  if negb (dither =? 0) then call (UsbDeviceGpioOn GPIO_DITHER)
  else call (UsbDeviceGpioOff GPIO_DITHER).

(** The [adc_set_random] after the two [return]s is unreachable. *)
Definition rf103_adc_random (random : Z) : M Z :=
  if negb (random =? 0) then call (UsbDeviceGpioOn GPIO_RANDOM)
  else call (UsbDeviceGpioOff GPIO_RANDOM).

Definition rf103_hf_attenuation (attenuation : float) : M Z :=
  let a := float_trunc_Z attenuation in
  let bit_pattern :=
    if a =? 0 then Some GPIO_SEL1
    else if a =? 10 then Some (Z.lor GPIO_SEL0 GPIO_SEL1)
    else if a =? 20 then Some GPIO_SEL0
    else None in
  match bit_pattern with
  | None => ret (-1)
  | Some p => call (UsbDeviceGpioSet p (Z.lor GPIO_SEL0 GPIO_SEL1))
  end.

Definition rf103_set_sample_rate (rate : float) : M Z :=
  let* this := get_rf in
  let* _ := put_rf (with_sample_rate this rate) in
  ret 0.

Definition rf103_set_async_params (frame_size num_frames : Z) : M Z :=
  let* this := get_rf in
  if negb (adc this =? 0) then ret (-1) else
  let* a := call (AdcOpenAsync frame_size num_frames) in
  let* _ := put_rf (with_adc this a) in
  if a =? 0 then ret (-1) else ret 0.

(** The [if (this->rf_mode == VHF_MODE && this->tuner)] block of
    [rf103_start_streaming]; [tuner_start] always returns 0, so its check
    never fails. *)
Definition start_tuner_clock (this : rf103) : M Z :=
  let* xtal := call (TunerGetXtalFrequency (tuner this)) in
  let* r := call (ClockSourceSetClock TUNER_CLOCK (float_of_Z xtal)) in
  if r <? 0 then ret (-1) else
  let* r := call (ClockSourceStartClock TUNER_CLOCK) in
  if r <? 0 then ret (-1) else
  let* _ := call (TunerStart (tuner this)) in
  ret 0.

Definition rf103_start_streaming : M Z :=
  let* this := get_rf in
  let* r := call (ClockSourceSetClock ADC_CLOCK (sample_rate this)) in
  if r <? 0 then ret (-1) else
  let* r := call (ClockSourceStartClock ADC_CLOCK) in
  if r <? 0 then ret (-1) else
  let* r := (if RFMode_eqb (rf_mode this) VHF_MODE && negb (tuner this =? 0)
             then start_tuner_clock this else ret 0) in
  if r <? 0 then ret (-1) else
  let* _ := call (AdcSetSampleRate (adc this) (u32 (float_trunc_Z (sample_rate this)))) in
  let* r := call (AdcStart (adc this)) in
  if r <? 0 then ret (-1) else
  let* r := call (UsbDeviceControl STARTFX3) in
  if r <? 0 then ret (-1) else ret 0.

Definition rf103_stop_streaming : M Z :=
  let* this := get_rf in
  let* r := call (UsbDeviceControl STOPFX3) in
  if r <? 0 then ret (-1) else
  let* r := call (AdcStop (adc this)) in
  if r <? 0 then ret (-1) else
  let* r := call (ClockSourceStopClock ADC_CLOCK) in
  if r <? 0 then ret (-1) else ret 0.

Definition rf103_reset_status : M Z :=
  let* this := get_rf in
  let* r := call (AdcResetStatus (adc this)) in
  if r <? 0 then ret (-1) else ret 0.

(** The public operations on an open handle. *)
Inductive rf103_op :=
  | SetRfMode (m : rf_mode_arg)
  | LedOn (p : Z) | LedOff (p : Z) | LedToggle (p : Z)
  | AdcDither (d : Z) | AdcRandom (r : Z)
  | HfAttenuation (x : float)
  | SetSampleRate (x : float)
  | SetAsyncParams (frame_size num_frames : Z)
  | StartStreaming | StopStreaming | ResetStatus.

Definition rf103_api (o : rf103_op) : M Z :=
  match o with
  | SetRfMode m => rf103_set_rf_mode m
  | LedOn p => rf103_led_on p
  | LedOff p => rf103_led_off p
  | LedToggle p => rf103_led_toggle p
  | AdcDither d => rf103_adc_dither d
  | AdcRandom r => rf103_adc_random r
  | HfAttenuation x => rf103_hf_attenuation x
  | SetSampleRate x => rf103_set_sample_rate x
  | SetAsyncParams fs nf => rf103_set_async_params fs nf
  | StartStreaming => rf103_start_streaming
  | StopStreaming => rf103_stop_streaming
  | ResetStatus => rf103_reset_status
  end.

Fixpoint rf103_api_run (os : list rf103_op) : M (list Z) :=
  match os with
  | [] => ret []
  | o :: os' =>
      let* r := rf103_api o in
      let* rs := rf103_api_run os' in
      ret (r :: rs)
  end.

(** The calls that only the VHF branch of [rf103_start_streaming] makes. *)
Definition tuner_clock_call (c : ext_call) : bool :=
  match c with
  | ClockSourceSetClock TUNER_CLOCK _ | ClockSourceStartClock TUNER_CLOCK
  | TunerGetXtalFrequency _ | TunerStart _ => true
  | _ => false
  end.

(** The GPIO bits a call drives: the pattern of on/off/toggle, the mask of
    a set. *)
Definition gpio_bits (c : ext_call) : Z :=
  match c with
  | UsbDeviceGpioSet _ mask => mask
  | UsbDeviceGpioOn p | UsbDeviceGpioOff p | UsbDeviceGpioToggle p => p
  | _ => 0
  end.

(** [m] keeps [Inv] on the handle and only makes calls satisfying [P]. *)
Definition steps {A} (Inv : rf103 -> Prop) (P : ext_call -> Prop) (m : M A) : Prop :=
  forall w a w', Inv (w_rf w) -> m w = (a, w') ->
  Inv (w_rf w') /\ exists new, w_calls w' = w_calls w ++ new /\ Forall P new.

(** The calls [rf103_start_streaming] makes in HF mode, in order. *)
Definition hf_streaming_calls (this : rf103) : list ext_call :=
  [ClockSourceSetClock ADC_CLOCK (sample_rate this); ClockSourceStartClock ADC_CLOCK;
   AdcSetSampleRate (adc this) (u32 (float_trunc_Z (sample_rate this)));
   AdcStart (adc this); UsbDeviceControl STARTFX3].

(** *** Sample configurations *)

(** A device on which every call returns 1 and whose TESTFX3 probe reads
    0, so a tuner is found. *)
Definition rf_demo_device : world :=
  mk_world (mk_rf103 HF_MODE 0 0 0 0%float) [] (fun _ => 1) (fun _ => 0).

Definition rf_demo_opened : world := snd (rf103_open 0 rf_demo_device).

Definition rf_demo_ops : list rf103_op :=
  [SetRfMode (Mode VHF_MODE); SetSampleRate 32e6; SetAsyncParams 65536 8;
   StartStreaming; LedOn 1; HfAttenuation 10].

Definition rf_demo_final : world := snd (rf103_api_run rf_demo_ops rf_demo_opened).

End RF103.

(** * Proofs *)

(** ** Clock source: the R-divider loop *)
Module ClockSourceProofs.
Import ClockSource.

Lemma rdiv_loop_spec (f : float) :
  let '(r, rdiv) := rdiv_loop 9 f 0 in
  0 <= rdiv <= 8 /\ r = dbl (Z.to_nat rdiv) f /\
  (forall k, (k < Z.to_nat rdiv)%nat -> (dbl k f <? 1e6)%float = true) /\
  (rdiv < 8 -> (r <? 1e6)%float = false).
Proof.
  unfold rdiv_loop; cbn -[PrimFloat.mul PrimFloat.ltb].
  repeat match goal with
         | |- context [if PrimFloat.ltb ?x ?y && _ then _ else _] =>
             destruct (PrimFloat.ltb x y) eqn:?; cbn -[PrimFloat.mul PrimFloat.ltb]
         end;
  (split; [lia|]); (split; [reflexivity|]);
  (split; [intros k Hk; unfold dbl; cbn in Hk;
           do 9 (destruct k as [|k]; [cbn -[PrimFloat.mul PrimFloat.ltb]; first [assumption | lia]|]);
           lia
          | intros; first [assumption | lia]]).
Qed.

Lemma compute_clock_inr (this : clock_source) (index : Z) (frequency : float)
    (p : clock_params) :
  compute_clock this index frequency = inr p ->
  (index = 0 \/ index = 1) /\
  rdiv_loop 9 frequency 0 = (cp_r_frequency p, cp_rdiv p) /\
  (cp_r_frequency p <? 1e6)%float = false.
Proof.
  unfold compute_clock.
  destruct ((index =? 0) || (index =? 1)) eqn:Hi; cbn [negb]; [|discriminate].
  destruct (rdiv_loop 9 frequency 0) as [r rdiv] eqn:Hl.
  destruct (r <? 1e6)%float eqn:Hr; [discriminate|].
  match goal with |- context [if ?b then inl InvalidOutputMS else _] =>
    destruct b; [discriminate|] end.
  match goal with |- context [rational_approximation ?x ?y] =>
    destruct (rational_approximation x y) as [[a b] c] end.
  intros H; injection H as <-; cbn [cp_rdiv cp_r_frequency cp_output_ms cp_feedback_ms cp_a cp_b cp_c].
  split; [|auto].
  apply orb_true_iff in Hi; destruct Hi as [Hi|Hi]; apply Z.eqb_eq in Hi; auto.
Qed.

Lemma set_clock_inr (this : clock_source) (i2c_ok : nat -> bool) (index : Z)
    (frequency : float) (p : clock_params) (sent : list i2c_write) :
  clock_source_set_clock this i2c_ok index frequency = (inr p, sent) ->
  compute_clock this index frequency = inr p.
Proof.
  unfold clock_source_set_clock.
  destruct (compute_clock this index frequency) as [e|q]; [discriminate|].
  destruct (issue_writes i2c_ok 0 (set_clock_writes index q)) as [[|] done];
    intros H; inversion H; reflexivity.
Qed.

Lemma rdiv_loop_reject (this : clock_source) (i2c_ok : nat -> bool) (index : Z)
    (frequency : float) :
  (index = 0 \/ index = 1) ->
  (forall k, (k <= 8)%nat -> (dbl k frequency <? 1e6)%float = true) ->
  clock_source_set_clock this i2c_ok index frequency = (inl FrequencyTooLow, []).
Proof.
  intros Hi Hlow.
  assert (Hidx : ((index =? 0) || (index =? 1)) = true)
    by (destruct Hi; subst; reflexivity).
  unfold clock_source_set_clock, compute_clock; rewrite Hidx; cbn [negb].
  pose proof (rdiv_loop_spec frequency) as Hs.
  destruct (rdiv_loop 9 frequency 0) as [r rdiv].
  destruct Hs as (Hb & Hr & _ & Hlast).
  assert (Hr8 : (r <? 1e6)%float = true).
  { rewrite Hr; apply Hlow; lia. }
  rewrite Hr8; reflexivity.
Qed.

Lemma rdiv_loop_smallest (f : float) (R : nat) :
  (R <= 7)%nat ->
  (dbl R f <? 1e6)%float = false ->
  (forall k, (k < R)%nat -> (dbl k f <? 1e6)%float = true) ->
  rdiv_loop 9 f 0 = (dbl R f, Z.of_nat R).
Proof.
  intros HR Hge Hlt.
  pose proof (rdiv_loop_spec f) as Hs.
  destruct (rdiv_loop 9 f 0) as [r rdiv].
  destruct Hs as (Hb & Hr & Hbelow & Hlast).
  destruct (Nat.lt_trichotomy (Z.to_nat rdiv) R) as [Hl|[He|Hg]].
  - assert (Hlt' : (r <? 1e6)%float = true) by (rewrite Hr; apply Hlt; exact Hl).
    rewrite Hlast in Hlt' by lia; discriminate.
  - subst R; rewrite Hr, Z2Nat.id by lia; reflexivity.
  - rewrite Hbelow in Hge by exact Hg; discriminate.
Qed.

(** The R-divider exponent is the smallest [R] with [frequency * 2^R >= 1 MHz]. *)
Lemma set_clock_rdiv_smallest (this : clock_source) (i2c_ok : nat -> bool)
    (index : Z) (frequency : float) (R : nat) :
  (index = 0 \/ index = 1) ->
  (R <= 7)%nat ->
  (dbl R frequency <? 1e6)%float = false ->
  (forall k, (k < R)%nat -> (dbl k frequency <? 1e6)%float = true) ->
  fst (clock_source_set_clock this i2c_ok index frequency) <> inl FrequencyTooLow /\
  (forall p sent, clock_source_set_clock this i2c_ok index frequency = (inr p, sent) ->
     cp_rdiv p = Z.of_nat R /\ cp_r_frequency p = dbl R frequency).
Proof.
  intros Hi HR Hge Hlt.
  pose proof (rdiv_loop_smallest frequency R HR Hge Hlt) as Hl.
  split.
  - assert (Hidx : ((index =? 0) || (index =? 1)) = true)
      by (destruct Hi; subst; reflexivity).
    unfold clock_source_set_clock, compute_clock; rewrite Hidx; cbn [negb].
    rewrite Hl, Hge.
    match goal with |- context [if ?b then inl InvalidOutputMS else _] =>
      destruct b end.
    + discriminate.
    + match goal with |- context [rational_approximation ?x ?y] =>
        destruct (rational_approximation x y) as [[a b] c] end.
      destruct (issue_writes _ _ _) as [[|] done]; discriminate.
  - intros p sent H.
    apply set_clock_inr, compute_clock_inr in H.
    destruct H as (_ & H & _); rewrite Hl in H; injection H as -> ->; auto.
Qed.

(** Claim C2 (amended). For index 0 or 1: when some [R] in [0,7] is the
    smallest exponent with [f * 2^R >= 1 MHz], [set_clock] does not fail with
    FrequencyTooLow and, when it succeeds, uses that [R] and [f_r = f * 2^R];
    when [f * 2^R < 1 MHz] for every [R] in [0,8] it fails with
    FrequencyTooLow before any I2C write. With the default crystal and all
    writes acknowledged, 999,999 Hz and 500,000 Hz both succeed with [R = 1]
    and 3,900 Hz fails with FrequencyTooLow. *)
Theorem set_clock_rdiv_selection (this : clock_source) (i2c_ok : nat -> bool)
    (index : Z) (frequency : float) :
  (index = 0 \/ index = 1) ->
  (forall R : nat, (R <= 7)%nat ->
     (dbl R frequency <? 1e6)%float = false ->
     (forall k, (k < R)%nat -> (dbl k frequency <? 1e6)%float = true) ->
     fst (clock_source_set_clock this i2c_ok index frequency) <> inl FrequencyTooLow /\
     (forall p sent, clock_source_set_clock this i2c_ok index frequency = (inr p, sent) ->
        cp_rdiv p = Z.of_nat R /\ cp_r_frequency p = dbl R frequency)) /\
  ((forall k, (k <= 8)%nat -> (dbl k frequency <? 1e6)%float = true) ->
     clock_source_set_clock this i2c_ok index frequency = (inl FrequencyTooLow, [])) /\
  match fst (clock_source_set_clock clock_source_default (fun _ => true) index 999999) with
  | inr p => cp_rdiv p = 1 | inl _ => False end /\
  match fst (clock_source_set_clock clock_source_default (fun _ => true) index 500000) with
  | inr p => cp_rdiv p = 1 | inl _ => False end /\
  fst (clock_source_set_clock clock_source_default (fun _ => true) index 3900) =
    inl FrequencyTooLow.
Proof.
  intros Hi.
  split; [intros R HR Hge Hlt; exact (set_clock_rdiv_smallest this i2c_ok index frequency R Hi HR Hge Hlt)|].
  split; [intros Hlow; exact (rdiv_loop_reject this i2c_ok index frequency Hi Hlow)|].
  destruct Hi as [-> | ->]; vm_compute; repeat split.
Qed.

Lemma set_clock_rdiv_selection_witness :
  (0 = 0 \/ 0 = 1) /\
  clock_source_set_clock clock_source_default (fun _ => true) 0 1000 =
    (inl FrequencyTooLow, []).
Proof.
  split; [left; reflexivity|].
  destruct (set_clock_rdiv_selection clock_source_default (fun _ => true) 0 1000
              (or_introl eq_refl)) as (_ & Hrej & _).
  apply Hrej; intros k Hk.
  do 9 (destruct k as [|k]; [vm_compute; reflexivity|]).
  exfalso; lia.
Defined.

(** Counterexample to claim C2: 500,000 Hz is already at 1 MHz after one
    doubling, so [set_clock] uses [R = 1], not [R = 2]; and 5,000 Hz is not
    rejected but gets [R = 8], whose bits fall outside the 3-bit R field of
    the output multisynth register (byte 2 carries no R bits). *)
Lemma set_clock_rdiv_counterexample :
  match fst (clock_source_set_clock clock_source_default (fun _ => true) 0 500000) with
  | inr p => cp_rdiv p = 1 /\ cp_rdiv p <> 2 | inl _ => False end /\
  match fst (clock_source_set_clock clock_source_default (fun _ => true) 0 5000) with
  | inr p => cp_rdiv p = 8 /\
             Z.shiftr (nth 2 (configure_clock_output_data (cp_output_ms p) (cp_rdiv p)) 0) 5 = 0
  | inl _ => False end.
Proof.
  vm_compute; repeat split; discriminate.
Qed.

(** ** Clock source: the synthesizer parameters *)

Lemma semiconvergents_c_ok (fuel : nat) (m an h0 h1 k0 k1 max_denominator : Z)
    (f0 : float) (best : float * Z * Z) :
  best_c_ok max_denominator best ->
  best_c_ok max_denominator
    (semiconvergents fuel m an h0 h1 k0 k1 max_denominator f0 best).
Proof.
  revert m best; induction fuel as [|fuel IH]; intros m best Hb; cbn [semiconvergents];
    [exact Hb|].
  destruct (m <=? an); [|exact Hb].
  destruct (u32 (m * k1 + k0) >? max_denominator) eqn:Hk; [exact Hb|].
  destruct best as [[delta b] c].
  apply IH.
  destruct (_ <? delta)%float; [|exact Hb].
  unfold best_c_ok; split.
  - apply Z.mod_pos_bound; lia.
  - rewrite Z.gtb_ltb, Z.ltb_ge in Hk; exact Hk.
Qed.

Lemma cf_loop_c_ok (fuel : nat) (f f0 : float) (h0 h1 k0 k1 max_denominator : Z)
    (best : float * Z * Z) :
  best_c_ok max_denominator best ->
  best_c_ok max_denominator (cf_loop fuel f f0 h0 h1 k0 k1 max_denominator best).
Proof.
  revert f h0 h1 k0 k1 best; induction fuel as [|fuel IH];
    intros f h0 h1 k0 k1 best Hb; cbn [cf_loop]; [exact Hb|].
  destruct (f <=? epsilon)%float; [exact Hb|].
  destruct (modf (1 / f)%float) as [f' anf].
  apply IH, semiconvergents_c_ok, Hb.
Qed.

Lemma rational_approximation_c_ok (value : float) (max_denominator : Z) :
  1 <= max_denominator ->
  let '(_, _, c) := rational_approximation value max_denominator in
  0 <= c <= max_denominator.
Proof.
  intros Hm; unfold rational_approximation.
  destruct (modf value) as [f0 af].
  pose proof (cf_loop_c_ok 100 f0 f0 1 0 0 1 max_denominator (f0, 0, 1)) as H.
  destruct (cf_loop 100 f0 f0 1 0 0 1 max_denominator (f0, 0, 1)) as [[d b] c].
  apply H; cbn; lia.
Qed.

Lemma land_not1_even (x : Z) : Z.even (Z.land x (u32 (Z.lnot 1))) = true.
Proof.
  rewrite <- Z.negb_odd, <- Z.bit0_odd, Z.land_spec.
  replace (Z.testbit (u32 (Z.lnot 1)) 0) with false by reflexivity.
  now rewrite andb_false_r.
Qed.

Lemma compute_clock_params (this : clock_source) (index : Z) (frequency : float)
    (p : clock_params) :
  compute_clock this index frequency = inr p ->
  cp_output_ms p =
    Z.land (u32 (float_trunc_Z (SI5351_MAX_VCO_FREQ / cp_r_frequency p)%float))
      (u32 (Z.lnot 1)) /\
  4 <= cp_output_ms p <= 2048 /\ Z.even (cp_output_ms p) = true /\
  0 <= cp_c p <= SI5351_MAX_DENOMINATOR /\
  cp_feedback_ms p =
    (cp_r_frequency p * float_of_Z (cp_output_ms p) /
     (crystal_frequency this / frequency_correction this))%float.
Proof.
  unfold compute_clock.
  destruct (negb _); [discriminate|].
  destruct (rdiv_loop 9 frequency 0) as [r rdiv].
  destruct (r <? 1e6)%float; [discriminate|].
  match goal with |- context [if ?b then inl InvalidOutputMS else _] =>
    destruct b eqn:Hms; [discriminate|] end.
  match goal with |- context [rational_approximation ?x ?y] =>
    pose proof (rational_approximation_c_ok x y) as Hc;
    destruct (rational_approximation x y) as [[a b] c] end.
  intros H; injection H as <-; cbn [cp_rdiv cp_r_frequency cp_output_ms cp_feedback_ms cp_a cp_b cp_c].
  apply orb_false_iff in Hms; destruct Hms as [H4 H2048].
  apply Z.ltb_ge in H4; rewrite Z.gtb_ltb, Z.ltb_ge in H2048.
  split; [reflexivity|].
  split; [lia|]. split; [apply land_not1_even|].
  split; [apply Hc; unfold SI5351_MAX_DENOMINATOR; lia | reflexivity].
Qed.

End ClockSourceProofs.

(** ** Firmware loader: image layout *)
Module FirmwareProofs.
Import Firmware.

Lemma byte_at_app (l1 l2 : list Z) (i : Z) :
  Z.of_nat (length l1) <= i ->
  byte_at (l1 ++ l2) i = byte_at l2 (i - Z.of_nat (length l1)).
Proof.
  intros Hi; unfold byte_at.
  destruct (i <? 0) eqn:H0; [apply Z.ltb_lt in H0; lia|].
  destruct (i - Z.of_nat (length l1) <? 0) eqn:H1; [apply Z.ltb_lt in H1; lia|].
  rewrite app_nth2 by lia.
  f_equal; rewrite Z2Nat.inj_sub by lia; rewrite Nat2Z.id; reflexivity.
Qed.

Lemma word_at_app (l1 l2 : list Z) (i : Z) :
  Z.of_nat (length l1) <= i ->
  word_at (l1 ++ l2) i = word_at l2 (i - Z.of_nat (length l1)).
Proof.
  intros Hi; unfold word_at.
  rewrite !byte_at_app by lia.
  repeat match goal with
         | |- context [?a + ?k - ?b] =>
             replace (a + k - b) with (a - b + k) by lia
         end.
  reflexivity.
Qed.

Lemma length_le_word (w : Z) : length (le_word w) = 4%nat.
Proof. reflexivity. Qed.

Lemma word_at_le_word (w : Z) (l : list Z) :
  0 <= w < 2 ^ 32 -> word_at (le_word w ++ l) 0 = w.
Proof.
  intros Hw; unfold word_at.
  change (byte_at (le_word w ++ l) 0) with (Z.land w 255).
  change (byte_at (le_word w ++ l) (0 + 1)) with (Z.land (Z.shiftr w 8) 255).
  change (byte_at (le_word w ++ l) (0 + 2)) with (Z.land (Z.shiftr w 16) 255).
  change (byte_at (le_word w ++ l) (0 + 3)) with (Z.land (Z.shiftr w 24) 255).
  change 255 with (Z.ones 8).
  rewrite !Z.land_ones, !Z.shiftr_div_pow2 by lia.
  replace (2 ^ 16) with (2 ^ 8 * 2 ^ 8) by reflexivity.
  replace (2 ^ 24) with (2 ^ 8 * 2 ^ 8 * 2 ^ 8) by reflexivity.
  rewrite <- !Z.div_div by lia.
  assert (Hq : w / 2 ^ 8 / 2 ^ 8 / 2 ^ 8 < 2 ^ 8)
    by (rewrite !Z.div_div by lia; apply Z.div_lt_upper_bound; lia).
  rewrite (Z.mod_small (w / 2 ^ 8 / 2 ^ 8 / 2 ^ 8)) by (split; [apply Z.div_pos; [apply Z.div_pos; [apply Z.div_pos|]|]; lia | exact Hq]).
  pose proof (Z.div_mod w (2 ^ 8)); pose proof (Z.div_mod (w / 2 ^ 8) (2 ^ 8));
  pose proof (Z.div_mod (w / 2 ^ 8 / 2 ^ 8) (2 ^ 8)); lia.
Qed.

Lemma length_concat_le_word (ws : list Z) :
  length (concat (map le_word ws)) = (4 * length ws)%nat.
Proof.
  induction ws as [|w ws IH]; [reflexivity|].
  cbn [map concat]; rewrite length_app, IH; cbn; lia.
Qed.

Lemma length_encode_section (s : section) :
  length (encode_section s) = (8 + 4 * length (sec_payload s))%nat.
Proof.
  unfold encode_section; rewrite !length_app, length_concat_le_word; reflexivity.
Qed.

Lemma add_words_le_words (ws : list Z) :
  forall (pre rest : list Z) (acc : Z),
  Forall (fun w => 0 <= w < 2 ^ 32) ws ->
  add_words (pre ++ concat (map le_word ws) ++ rest) (Z.of_nat (length pre))
    (length ws) acc =
  fold_left (fun acc w => u32 (acc + w)) ws acc.
Proof.
  induction ws as [|w ws IH]; intros pre rest acc Hws; [reflexivity|].
  inversion Hws as [|? ? Hw Hws']; subst.
  cbn [length add_words map concat fold_left].
  rewrite word_at_app by lia; rewrite Z.sub_diag.
  rewrite <- app_assoc, word_at_le_word by exact Hw.
  replace (Z.of_nat (length pre) + 4) with (Z.of_nat (length (pre ++ le_word w)))
    by (rewrite length_app, length_le_word; lia).
  rewrite app_assoc.
  apply IH, Hws'.
Qed.

Lemma length_concat_encode (secs : list section) :
  Forall section_ok secs ->
  (12 * length secs <= length (concat (map encode_section secs)))%nat.
Proof.
  induction 1 as [|s secs [Hne _] _ IH]; [cbn; lia|].
  cbn [map concat length]; rewrite length_app, length_encode_section.
  destruct (sec_payload s); [congruence|]; cbn [length] in *; lia.
Qed.

Lemma validate_sections_walk (secs : list section) :
  forall (pre tail image : list Z) (acc size : Z) (fuel : nat),
  Forall section_ok secs ->
  image = pre ++ concat (map encode_section secs) ++ tail ->
  Z.of_nat (length pre + length (concat (map encode_section secs))) < size - 8 ->
  validate_sections (length secs + fuel) image size (Z.of_nat (length pre)) acc =
  validate_sections fuel image size
    (Z.of_nat (length pre + length (concat (map encode_section secs))))
    (fold_left (fun acc w => u32 (acc + w)) (concat (map sec_payload secs)) acc).
Proof.
  induction secs as [|s secs IH]; intros pre tail image acc size fuel Hok Himg Hsize.
  - cbn; rewrite Nat.add_0_r; reflexivity.
  - inversion Hok as [|? ? [Hne [Hlen Hws]] Hok']; subst.
    cbn [map concat] in *; rewrite !length_app, length_encode_section in *.
    assert (HL : word_at (pre ++ (encode_section s ++ concat (map encode_section secs)) ++ tail)
                   (Z.of_nat (length pre)) = Z.of_nat (length (sec_payload s))).
    { rewrite word_at_app, Z.sub_diag by lia.
      unfold encode_section; rewrite <- !app_assoc; apply word_at_le_word; lia. }
    assert (Hadd : add_words (pre ++ (encode_section s ++ concat (map encode_section secs)) ++ tail)
                     (Z.of_nat (length pre) + 8) (Z.to_nat (Z.of_nat (length (sec_payload s)))) acc =
                   fold_left (fun acc w => u32 (acc + w)) (sec_payload s) acc).
    { rewrite Nat2Z.id.
      replace (pre ++ (encode_section s ++ concat (map encode_section secs)) ++ tail) with
        ((pre ++ le_word (Z.of_nat (length (sec_payload s))) ++ le_word (sec_address s)) ++
         concat (map le_word (sec_payload s)) ++ (concat (map encode_section secs) ++ tail))
        by (unfold encode_section; rewrite <- !app_assoc; reflexivity).
      replace (Z.of_nat (length pre) + 8) with
        (Z.of_nat (length (pre ++ le_word (Z.of_nat (length (sec_payload s))) ++ le_word (sec_address s))))
        by (rewrite !length_app, !length_le_word; lia).
      apply add_words_le_words; exact Hws. }
    cbn [length Nat.add validate_sections].
    rewrite HL.
    destruct (Z.of_nat (length (sec_payload s)) =? 0) eqn:H0.
    { apply Z.eqb_eq in H0; destruct (sec_payload s); [congruence|cbn in H0; lia]. }
    destruct (Z.of_nat (length pre) + 8 + 4 * Z.of_nat (length (sec_payload s)) >=? size - 8) eqn:Hc.
    { rewrite Z.geb_le in Hc; lia. }
    rewrite Hadd.
    replace (Z.of_nat (length pre) + 8 + 4 * Z.of_nat (length (sec_payload s))) with
      (Z.of_nat (length (pre ++ encode_section s))) by (rewrite length_app, length_encode_section; lia).
    rewrite (IH (pre ++ encode_section s) tail) by
      (try exact Hok'; try (rewrite <- !app_assoc; reflexivity);
       rewrite length_app, length_encode_section; lia).
    rewrite fold_left_app, length_app, length_encode_section.
    f_equal; lia.
Qed.

Lemma validate_firmware_image (secs : list section) (entry checksum : Z) (pad : list Z) :
  Forall section_ok secs ->
  0 <= checksum < 2 ^ 32 ->
  10240 <= Z.of_nat (length (firmware_image secs entry checksum pad)) ->
  validate_image (firmware_image secs entry checksum pad)
    (Z.of_nat (length (firmware_image secs entry checksum pad))) =
  (if payload_sum secs =? checksum then inr tt else inl BadChecksum,
   negb (length pad =? 0)%nat).
Proof.
  intros Hok Hcks Hsize.
  pose proof (length_concat_encode secs Hok) as Hlc.
  assert (Hlen : length (firmware_image secs entry checksum pad) =
                 (4 + length (concat (map encode_section secs)) + 12 + length pad)%nat)
    by (unfold firmware_image; rewrite !length_app, !length_le_word; cbn; lia).
  set (image := firmware_image secs entry checksum pad) in *.
  set (lc := length (concat (map encode_section secs))) in *.
  unfold validate_image.
  destruct (Z.of_nat (length image) <? 10240) eqn:Hs; [apply Z.ltb_lt in Hs; lia|].
  change (byte_at image 0) with 67; change (byte_at image 1) with 89;
  change (byte_at image 2) with 28; change (byte_at image 3) with 176; cbn [negb andb Z.eqb].
  replace (Z.to_nat (Z.of_nat (length image))) with
    (length secs + S (length image - length secs - 1))%nat by lia.
  rewrite (validate_sections_walk secs [67; 89; 28; 176]
             (le_word 0 ++ le_word entry ++ le_word checksum ++ pad) image 0
             (Z.of_nat (length image))) by
    (try exact Hok; try reflexivity; cbn [length]; fold lc; lia).
  cbn [length validate_sections].
  rewrite (word_at_app ([67; 89; 28; 176] ++ concat (map encode_section secs))
             (le_word 0 ++ le_word entry ++ le_word checksum ++ pad))
    by (rewrite length_app; cbn [length]; fold lc; lia).
  rewrite length_app; cbn [length]; fold lc.
  rewrite Z.sub_diag, word_at_le_word by lia; cbn [Z.eqb].
  assert (Himg : image = ([67; 89; 28; 176] ++ concat (map encode_section secs) ++
                           le_word 0 ++ le_word entry) ++ le_word checksum ++ pad)
    by (unfold image, firmware_image; rewrite <- !app_assoc; reflexivity).
  rewrite Himg at 1.
  rewrite (word_at_app ([67; 89; 28; 176] ++ concat (map encode_section secs) ++
                        le_word 0 ++ le_word entry) (le_word checksum ++ pad))
    by (rewrite !length_app, !length_le_word; cbn [length]; fold lc; lia).
  rewrite !length_app, !length_le_word; cbn [length]; fold lc.
  replace (Z.of_nat (4 + lc) + 4 + 4 - Z.of_nat (4 + (lc + (4 + 4)))) with 0 by lia.
  rewrite word_at_le_word by exact Hcks.
  unfold payload_sum.
  replace (Z.of_nat (4 + lc) + 4 + 8 =? Z.of_nat (length image)) with
    (length pad =? 0)%nat.
  - destruct (fold_left _ _ 0 =? checksum); reflexivity.
  - rewrite Hlen; destruct (length pad =? 0)%nat eqn:E.
    + apply Nat.eqb_eq in E; rewrite E; symmetry; apply Z.eqb_eq; lia.
    + apply Nat.eqb_neq in E; symmetry; apply Z.eqb_neq; lia.
Qed.

Lemma validate_overrun (secs : list section) (loadSz address : Z) (rest : list Z) :
  Forall section_ok secs ->
  0 < loadSz < 2 ^ 32 ->
  let image := [67; 89; 28; 176] ++ concat (map encode_section secs) ++
               le_word loadSz ++ le_word address ++ rest in
  let size := Z.of_nat (length image) in
  let current := 4 + Z.of_nat (length (concat (map encode_section secs))) in
  10240 <= size ->
  current < size - 8 ->
  size - 8 <= current + 8 + 4 * loadSz ->
  fst (validate_image image size) = inl LoadSzTooBig.
Proof.
  intros Hok HL image size current Hsize Hcur Hover.
  pose proof (length_concat_encode secs Hok) as Hlc.
  subst size current.
  set (lc := length (concat (map encode_section secs))) in *.
  assert (Hlen : length image = (4 + lc + 8 + length rest)%nat)
    by (unfold image; rewrite !length_app, !length_le_word; cbn; fold lc; lia).
  unfold validate_image.
  destruct (Z.of_nat (length image) <? 10240) eqn:Hs; [apply Z.ltb_lt in Hs; lia|].
  change (byte_at image 0) with 67; change (byte_at image 1) with 89;
  change (byte_at image 2) with 28; change (byte_at image 3) with 176; cbn [negb andb Z.eqb].
  replace (Z.to_nat (Z.of_nat (length image))) with
    (length secs + S (length image - length secs - 1))%nat by lia.
  rewrite (validate_sections_walk secs [67; 89; 28; 176]
             (le_word loadSz ++ le_word address ++ rest) image 0
             (Z.of_nat (length image))) by
    (try exact Hok; try reflexivity; cbn [length]; fold lc; lia).
  cbn [length validate_sections].
  rewrite (word_at_app ([67; 89; 28; 176] ++ concat (map encode_section secs))
             (le_word loadSz ++ le_word address ++ rest))
    by (rewrite length_app; cbn [length]; fold lc; lia).
  rewrite length_app; cbn [length]; fold lc.
  rewrite Z.sub_diag, word_at_le_word by lia.
  destruct (loadSz =? 0) eqn:H0; [apply Z.eqb_eq in H0; lia|].
  destruct (Z.of_nat (4 + lc) + 8 + 4 * loadSz >=? Z.of_nat (length image) - 8) eqn:Hc;
    [reflexivity|].
  rewrite Z.geb_leb, Z.leb_gt in Hc; lia.
Qed.

(** Claim C3 (amended). [validate_image] rejects an image smaller than
    10240 bytes (TooSmall) and one whose first four bytes are not
    'C', 'Y', 0x1C, 0xB0. Walking the sections from byte 4, it rejects with
    LoadSzTooBig at the first section whose payload would end at or beyond
    [size - 8]. An image laid out as the header, sections (a non-zero
    [loadSz] word, an address word and [loadSz] payload words), a zero word,
    the entry address, the checksum word and any trailing bytes is accepted
    iff the 32-bit wraparound sum of the payload words equals the checksum
    word, and fails with BadChecksum otherwise; trailing bytes only raise
    the warning. So for such an image with a single payload word [W] the
    computed checksum is [W] and the image validates iff its checksum word
    is [W]. *)
Theorem validate_image_spec :
  (forall image size, size < 10240 -> validate_image image size = (inl TooSmall, false)) /\
  (forall image size, 10240 <= size ->
     [byte_at image 0; byte_at image 1; byte_at image 2; byte_at image 3] <> [67; 89; 28; 176] ->
     fst (validate_image image size) = inl BadMagic \/
     fst (validate_image image size) = inl BadI2CConfig \/
     fst (validate_image image size) = inl BadImageType) /\
  (forall secs loadSz address rest,
     Forall section_ok secs -> 0 < loadSz < 2 ^ 32 ->
     let image := [67; 89; 28; 176] ++ concat (map encode_section secs) ++
                  le_word loadSz ++ le_word address ++ rest in
     let size := Z.of_nat (length image) in
     let current := 4 + Z.of_nat (length (concat (map encode_section secs))) in
     10240 <= size -> current < size - 8 -> size - 8 <= current + 8 + 4 * loadSz ->
     fst (validate_image image size) = inl LoadSzTooBig) /\
  (forall secs entry checksum pad,
     Forall section_ok secs -> 0 <= checksum < 2 ^ 32 ->
     let image := firmware_image secs entry checksum pad in
     10240 <= Z.of_nat (length image) ->
     validate_image image (Z.of_nat (length image)) =
     (if payload_sum secs =? checksum then inr tt else inl BadChecksum,
      negb (length pad =? 0)%nat)) /\
  (forall address W entry checksum pad,
     0 <= W < 2 ^ 32 -> 0 <= checksum < 2 ^ 32 ->
     let secs := [{| sec_address := address; sec_payload := [W] |}] in
     let image := firmware_image secs entry checksum pad in
     10240 <= Z.of_nat (length image) ->
     payload_sum secs = W /\
     (fst (validate_image image (Z.of_nat (length image))) = inr tt <-> checksum = W)).
Proof.
  split; [|split; [|split; [|split]]].
  - intros image size Hs; unfold validate_image.
    apply Z.ltb_lt in Hs; rewrite Hs; reflexivity.
  - intros image size Hs Hh; unfold validate_image.
    destruct (size <? 10240) eqn:E; [apply Z.ltb_lt in E; lia|].
    destruct (byte_at image 0 =? 67) eqn:E0; [|left; reflexivity].
    destruct (byte_at image 1 =? 89) eqn:E1; [|left; reflexivity].
    destruct (byte_at image 2 =? 28) eqn:E2; [|right; left; reflexivity].
    destruct (byte_at image 3 =? 176) eqn:E3; [|right; right; reflexivity].
    apply Z.eqb_eq in E0, E1, E2, E3.
    exfalso; apply Hh; rewrite E0, E1, E2, E3; reflexivity.
  - intros secs loadSz address rest Hok HL; apply validate_overrun; assumption.
  - intros secs entry checksum pad Hok Hc; apply validate_firmware_image; assumption.
  - intros address W entry checksum pad HW Hc secs image Hsize.
    assert (Hsum : payload_sum secs = W)
      by (unfold payload_sum, u32; cbn; apply Z.mod_small; exact HW).
    split; [exact Hsum|].
    assert (Hok : Forall section_ok secs)
      by (constructor; [split; [discriminate|split; [cbn; lia|constructor; [lia|constructor]]]
                       |constructor]).
    unfold image; rewrite validate_firmware_image by assumption.
    rewrite Hsum; destruct (W =? checksum) eqn:E; cbn [fst].
    + apply Z.eqb_eq in E; split; auto.
    + apply Z.eqb_neq in E; split; [discriminate|intros ->; contradiction].
Qed.

Lemma validate_image_spec_witness :
  (0 <= 5 < 2 ^ 32 /\ 10240 <= Z.of_nat (length (firmware_image
     [{| sec_address := 0; sec_payload := [5] |}] 0 5 (repeat 0 10212)))) /\
  fst (validate_image (firmware_image [{| sec_address := 0; sec_payload := [5] |}] 0 5
         (repeat 0 10212))
       (Z.of_nat (length (firmware_image [{| sec_address := 0; sec_payload := [5] |}] 0 5
          (repeat 0 10212))))) = inr tt.
Proof.
  split; [split; [lia | vm_compute; discriminate]|].
  destruct validate_image_spec as (_ & _ & _ & _ & H1).
  destruct (H1 0 5 0 5 (repeat 0 10212)) as [_ Hiff];
    [lia | lia | vm_compute; discriminate |].
  apply Hiff; reflexivity.
Defined.

(** Counterexample to claim C3. A 10240-byte image with the right header
    and one section of 2555 zero words ends its payload exactly at
    [size - 8], which is not past [size - 8], and its last word (0) equals
    the payload sum; yet [validate_image] rejects it with LoadSzTooBig. *)
Lemma validate_image_counterexample :
  let image := [67; 89; 28; 176] ++ le_word 2555 ++ le_word 0 ++ repeat 0 10228 in
  Z.of_nat (length image) = 10240 /\
  4 + 8 + 4 * 2555 = 10240 - 8 /\
  add_words image 12 2555 0 = word_at image (10240 - 4) /\
  fst (validate_image image 10240) = inl LoadSzTooBig.
Proof.
  vm_compute; repeat split; discriminate.
Qed.

(** ** Firmware loader: the transfer *)

Lemma calls_ok_app (usb : nat -> Z) (n : nat) (l1 l2 : list usb_call) :
  calls_ok usb n l1 -> calls_ok usb (n + length l1) l2 -> calls_ok usb n (l1 ++ l2).
Proof.
  intros H1 H2 i Hi; rewrite length_app in Hi.
  destruct (Nat.lt_ge_cases i (length l1)) as [Hl|Hl].
  - rewrite app_nth1 by exact Hl; apply H1, Hl.
  - rewrite app_nth2 by exact Hl.
    replace (n + i)%nat with (n + length l1 + (i - length l1))%nat by lia.
    apply H2; lia.
Qed.

Lemma calls_ok_cons (usb : nat -> Z) (n : nat) (c : usb_call) (l : list usb_call) :
  usb n = uc_length c -> calls_ok usb (S n) l -> calls_ok usb n (c :: l).
Proof.
  intros Hc Hl [|i] Hi; cbn [nth].
  - rewrite Nat.add_0_r; exact Hc.
  - replace (n + S i)%nat with (S n + i)%nat by lia; apply Hl; cbn in Hi; lia.
Qed.

Lemma transfer_chunks_done (fuel : nat) :
  forall usb n address data nleft,
  let '(res, calls) := transfer_chunks fuel usb n address data nleft in
  transfers_done usb n res calls.
Proof.
  induction fuel as [|fuel IH]; intros usb n address data nleft; cbn [transfer_chunks].
  { split; [apply Forall_nil|]; split; [cbn; lia|intros i Hi; cbn in Hi; lia]. }
  destruct (nleft >? 0) eqn:Hn;
    [|split; [apply Forall_nil|]; split; [cbn; lia|intros i Hi; cbn in Hi; lia]].
  set (wLength := u16 (if nleft >? max_write_size then max_write_size else nleft)).
  assert (Hw : 0 < wLength).
  { unfold wLength, u16, max_write_size; rewrite Z.gtb_ltb in Hn |- *.
    apply Z.ltb_lt in Hn.
    destruct (2 * 1024 <? nleft) eqn:E; [reflexivity|].
    apply Z.ltb_ge in E; rewrite Z.mod_small by lia; lia. }
  destruct (usb n <? 0) eqn:Hr.
  { split; [constructor; [exact Hw|constructor]|].
    exists [], (Build_usb_call (Z.land address 65535) (Z.shiftr address 16) data wLength).
    split; [reflexivity|]; split; [intros i Hi; cbn in Hi; lia|].
    cbn; rewrite Nat.add_0_r; apply Z.ltb_lt in Hr; lia. }
  destruct (negb (usb n =? wLength)) eqn:Hl.
  { split; [constructor; [exact Hw|constructor]|].
    exists [], (Build_usb_call (Z.land address 65535) (Z.shiftr address 16) data wLength).
    split; [reflexivity|]; split; [intros i Hi; cbn in Hi; lia|].
    cbn; rewrite Nat.add_0_r; apply negb_true_iff, Z.eqb_neq in Hl; exact Hl. }
  apply negb_false_iff, Z.eqb_eq in Hl.
  specialize (IH usb (S n) address (data + wLength) (nleft - wLength)).
  destruct (transfer_chunks fuel usb (S n) address (data + wLength) (nleft - wLength))
    as [res calls].
  destruct IH as [Hpos Hres]; split; [constructor; [exact Hw|exact Hpos]|].
  destruct res as [n'|].
  - destruct Hres as [-> Hok]; split; [cbn; lia|].
    apply calls_ok_cons; assumption.
  - destruct Hres as (pre & c & -> & Hok & Hbad).
    exists (Build_usb_call (Z.land address 65535) (Z.shiftr address 16) data wLength :: pre), c.
    split; [reflexivity|]; split; [apply calls_ok_cons; assumption|].
    cbn [length]; replace (n + S (length pre))%nat with (S n + length pre)%nat by lia.
    exact Hbad.
Qed.

Lemma transfer_sections_done (fuel : nat) :
  forall usb n image current,
  let '(res, calls) := transfer_sections fuel usb n image current in
  transfers_done usb n (option_map fst res) calls.
Proof.
  induction fuel as [|fuel IH]; intros usb n image current; cbn [transfer_sections].
  { split; [apply Forall_nil|]; split; [cbn; lia|intros i Hi; cbn in Hi; lia]. }
  destruct (word_at image current =? 0).
  { split; [apply Forall_nil|]; split; [cbn; lia|intros i Hi; cbn in Hi; lia]. }
  match goal with |- context [transfer_chunks ?f usb n ?a ?d ?l] =>
    pose proof (transfer_chunks_done f usb n a d l) as Hc;
    destruct (transfer_chunks f usb n a d l) as [[n'|] calls] end.
  2: exact Hc.
  destruct Hc as [Hpos [-> Hok]].
  match goal with |- context [transfer_sections fuel usb ?m image ?c] =>
    specialize (IH usb m image c);
    destruct (transfer_sections fuel usb m image c) as [res calls'] end.
  destruct IH as [Hpos' Hres]; split; [apply Forall_app; split; assumption|].
  destruct res as [[n'' cur]|]; cbn [option_map] in *.
  - destruct Hres as [-> Hok']; split; [rewrite length_app; lia|].
    apply calls_ok_app; assumption.
  - destruct Hres as (pre & c & -> & Hok' & Hbad).
    exists (calls ++ pre), c; split; [apply app_assoc|].
    split; [apply calls_ok_app; assumption|].
    rewrite length_app, Nat.add_assoc; exact Hbad.
Qed.

Lemma transfer_image_done (image : list Z) (usb : nat -> Z) :
  let '(r, warn, calls) := transfer_image image usb in
  (r = 0 /\ exists data jump, calls = data ++ [jump] /\ uc_length jump = 0 /\
     Forall (fun c => 0 < uc_length c) data /\ calls_ok usb 0 data /\
     warn = (usb (length data) <? 0)) \/
  (r = -1 /\ warn = false /\ exists pre c, calls = pre ++ [c] /\ 0 < uc_length c /\
     calls_ok usb 0 pre /\ usb (length pre) <> uc_length c).
Proof.
  unfold transfer_image.
  pose proof (transfer_sections_done (length image) usb 0 image 4) as Hs.
  destruct (transfer_sections (length image) usb 0 image 4) as [[[n cur]|] calls].
  - destruct Hs as [Hpos [Hn Hok]]; cbn in Hn; subst n.
    left; split; [reflexivity|].
    eexists calls, _; split; [reflexivity|]; split; [reflexivity|].
    split; [exact Hpos|]; split; [exact Hok|reflexivity].
  - destruct Hs as [Hpos (pre & c & -> & Hok & Hbad)].
    right; split; [reflexivity|]; split; [reflexivity|].
    exists pre, c; split; [reflexivity|].
    split; [apply Forall_app in Hpos; destruct Hpos as [_ Hc]; inversion Hc; assumption|].
    split; assumption.
Qed.

Lemma transfer_chunks_ext (fuel : nat) :
  forall usb usb' n address data nleft,
  let '(res, calls) := transfer_chunks fuel usb n address data nleft in
  (forall i, (n <= i < n + length calls)%nat -> usb' i = usb i) ->
  transfer_chunks fuel usb' n address data nleft = (res, calls).
Proof.
  induction fuel as [|fuel IH]; intros usb usb' n address data nleft; cbn [transfer_chunks];
    [reflexivity|].
  destruct (nleft >? 0); [|reflexivity].
  set (wLength := u16 (if nleft >? max_write_size then max_write_size else nleft)).
  destruct (usb n <? 0) eqn:Hr.
  { intros H; rewrite (H n) by (cbn; lia); rewrite Hr; reflexivity. }
  destruct (negb (usb n =? wLength)) eqn:Hl.
  { intros H; rewrite (H n) by (cbn; lia); rewrite Hr, Hl; reflexivity. }
  specialize (IH usb usb' (S n) address (data + wLength) (nleft - wLength)).
  destruct (transfer_chunks fuel usb (S n) address (data + wLength) (nleft - wLength))
    as [res calls].
  intros H; rewrite (H n) by (cbn; lia); rewrite Hr, Hl.
  rewrite IH; [reflexivity|].
  intros i Hi; apply H; cbn; lia.
Qed.

Lemma transfer_sections_ext (fuel : nat) :
  forall usb usb' n image current,
  let '(res, calls) := transfer_sections fuel usb n image current in
  (forall i, (n <= i < n + length calls)%nat -> usb' i = usb i) ->
  transfer_sections fuel usb' n image current = (res, calls).
Proof.
  induction fuel as [|fuel IH]; intros usb usb' n image current; cbn [transfer_sections];
    [reflexivity|].
  destruct (word_at image current =? 0); [reflexivity|].
  match goal with |- context [transfer_chunks ?f usb n ?a ?d ?l] =>
    pose proof (transfer_chunks_ext f usb usb' n a d l) as Hc;
    pose proof (transfer_chunks_done f usb n a d l) as Hd;
    destruct (transfer_chunks f usb n a d l) as [[n'|] calls] end.
  2: { intros H; rewrite Hc; [reflexivity|exact H]. }
  destruct Hd as [_ [-> _]].
  match goal with |- context [transfer_sections fuel usb ?m image ?c] =>
    specialize (IH usb usb' m image c);
    destruct (transfer_sections fuel usb m image c) as [res calls'] end.
  intros H; rewrite Hc by (intros i Hi; apply H; rewrite length_app; lia).
  rewrite IH; [reflexivity|].
  intros i Hi; apply H; rewrite length_app; lia.
Qed.

(** Claim C9. During [transfer_image] a data transfer of a section that
    moves fewer bytes than it requested makes the transfer, and so the
    load, fail (return -1). The final zero-length transfer to the entry
    address is only logged: once the sections are sent, [transfer_image]
    returns 0 whatever that transfer returns, printing the warning when it
    fails, and [load_image] returns what [transfer_image] returns. With a
    one-word image, a failing final transfer still gives a successful load,
    and a short data transfer a failed one. *)
Theorem transfer_image_errors :
  (forall image usb i,
     let '(r, _, calls) := transfer_image image usb in
     (i < length calls)%nat -> 0 < uc_length (nth i calls no_call) ->
     0 <= usb i < uc_length (nth i calls no_call) -> r = -1) /\
  (forall image usb usb',
     let '(r, _, calls) := transfer_image image usb in
     r = 0 -> (forall i, (i < length calls - 1)%nat -> usb' i = usb i) ->
     exists warn', transfer_image image usb' = (0, warn', calls) /\
                   (warn' = true <-> usb' (length calls - 1)%nat < 0)) /\
  (forall env image usb,
     open_ok env = true -> fstat_ok env = true -> malloc_ok env = true ->
     read_ok env = true ->
     fst (validate_image image (Z.of_nat (length image))) = inr tt ->
     load_image env image usb =
     (fst (fst (transfer_image image usb)), snd (transfer_image image usb))) /\
  (let image := firmware_image [{| sec_address := 0; sec_payload := [5] |}] 0 5
                  (repeat 0 10212) in
   let jump_fails := fun n => if (n =? 0)%nat then 4 else -1 in
   fst (load_image load_env_ok image jump_fails) = 0 /\
   snd (fst (transfer_image image jump_fails)) = true /\
   fst (load_image load_env_ok image (fun _ => 2)) = -1).
Proof.
  split; [|split; [|split]].
  - intros image usb i.
    pose proof (transfer_image_done image usb) as Hd.
    destruct (transfer_image image usb) as [[r warn] calls].
    intros Hi Hpos Hshort.
    destruct Hd as [(-> & data & jump & -> & Hj & _ & Hok & _)|(-> & _)]; [|reflexivity].
    exfalso; rewrite length_app in Hi; cbn [length] in Hi.
    destruct (Nat.lt_ge_cases i (length data)) as [Hl|Hl].
    + rewrite app_nth1 in Hpos, Hshort by exact Hl.
      specialize (Hok i Hl); cbn [Nat.add] in Hok; lia.
    + replace i with (length data) in Hpos by lia.
      rewrite app_nth2, Nat.sub_diag in Hpos by lia; cbn in Hpos; lia.
  - intros image usb usb'.
    unfold transfer_image.
    pose proof (transfer_sections_ext (length image) usb usb' 0 image 4) as He.
    pose proof (transfer_sections_done (length image) usb 0 image 4) as Hs.
    destruct (transfer_sections (length image) usb 0 image 4) as [[[n cur]|] cs];
      [|intros Hr; discriminate Hr].
    intros _ H.
    destruct Hs as [_ [Hn _]]; cbn in Hn; subst n.
    rewrite length_app, Nat.add_sub in H; cbn [length] in H.
    rewrite He by (intros i Hi; apply H; lia).
    eexists; split; [reflexivity|].
    match goal with |- context [(length (cs ++ ?l) - 1)%nat] =>
      replace (length (cs ++ l) - 1)%nat with (length cs) by (rewrite length_app; cbn; lia) end.
    apply Z.ltb_lt.
  - intros env image usb Ho Hf Hm Hr Hv.
    unfold load_image; rewrite Ho, Hf, Hm, Hr; cbn [negb].
    rewrite Hv.
    destruct (transfer_image image usb) as [[r w] calls]; reflexivity.
  - vm_compute; repeat split.
Qed.

Lemma transfer_image_errors_witness :
  let image := firmware_image [{| sec_address := 0; sec_payload := [5] |}] 0 5
                 (repeat 0 10212) in
  (0 < length (snd (transfer_image image (fun _ => 2%Z))))%nat /\
  0 < uc_length (nth 0 (snd (transfer_image image (fun _ => 2))) no_call) /\
  0 <= 2 < uc_length (nth 0 (snd (transfer_image image (fun _ => 2))) no_call) /\
  fst (fst (transfer_image image (fun _ => 2))) = -1.
Proof.
  intros image.
  split; [vm_compute; repeat constructor|]. split; [vm_compute; reflexivity|].
  split; [vm_compute; split; [discriminate|reflexivity]|].
  destruct transfer_image_errors as [H1 _].
  specialize (H1 image (fun _ => 2) 0%nat).
  destruct (transfer_image image (fun _ => 2)) as [[r w] calls] eqn:E.
  vm_compute in E; injection E as _ _ Ec.
  subst calls; apply H1; vm_compute;
    first [reflexivity | split; [discriminate|reflexivity] | constructor].
Defined.

End FirmwareProofs.


(** ** Tuner: monad, shadow and bit lemmas *)
Module TunerProofs.
Import Tuner.

Lemma bind_inv {A B} (m : M A) (k : A -> M B) w b w'' :
  bind m k w = Some (b, w'') -> exists a w', m w = Some (a, w') /\ k a w' = Some (b, w'').
Proof. unfold bind. destruct (m w) as [[a w']|]; [eauto | discriminate]. Qed.

Lemma length_set_nth l n v : length (set_nth l n v) = length l.
Proof. revert n; induction l as [|h t IH]; intros [|n]; cbn; auto. Qed.

Lemma nth_set_nth_same l n v : (n < length l)%nat -> nth n (set_nth l n v) 0 = v.
Proof.
  revert n; induction l as [|h t IH]; intros [|n] Hn; cbn in *; try lia; auto.
  all: try (apply IH; lia).
Qed.

Lemma nth_set_nth_other l n m v : n <> m -> nth m (set_nth l n v) 0 = nth m l 0.
Proof.
  revert n m; induction l as [|h t IH]; intros [|n] [|m] Hnm; cbn; auto; try congruence.
  all: try (apply IH; congruence).
Qed.

Lemma length_reg_set regs i v : length (reg_set regs i v) = length regs.
Proof. apply length_set_nth. Qed.

Lemma reg_get_set_same regs i v :
  0 <= i -> (Z.to_nat i < length regs)%nat -> reg_get (reg_set regs i v) i = v.
Proof. intros; apply nth_set_nth_same; auto. Qed.

Lemma reg_get_set_other regs i j v :
  0 <= i -> 0 <= j -> i <> j -> reg_get (reg_set regs i v) j = reg_get regs j.
Proof. intros; apply nth_set_nth_other; lia. Qed.

Lemma length_store data regs from : length (store regs from data) = length regs.
Proof.
  revert regs from; induction data as [|d ds IH]; intros; cbn; auto.
  rewrite IH; apply length_reg_set.
Qed.

Lemma store_outside data regs from k :
  0 <= from -> 0 <= k -> (k < from \/ from + Z.of_nat (length data) <= k) ->
  reg_get (store regs from data) k = reg_get regs k.
Proof.
  revert regs from; induction data as [|d ds IH]; intros regs from H0 Hk Hout; cbn [store]; auto.
  cbn [length] in Hout. rewrite IH by lia. apply reg_get_set_other; lia.
Qed.

Lemma store_inside data regs from k :
  0 <= from -> from <= k < from + Z.of_nat (length data) ->
  from + Z.of_nat (length data) <= Z.of_nat (length regs) ->
  reg_get (store regs from data) k = nth (Z.to_nat (k - from)) data 0.
Proof.
  revert regs from; induction data as [|d ds IH]; intros regs from H0 Hk Hlen;
    cbn [length] in *; [lia|].
  cbn [store]. destruct (Z.eq_dec k from) as [->|Hne].
  - rewrite store_outside by lia. rewrite reg_get_set_same by lia.
    replace (from - from) with 0 by lia. reflexivity.
  - rewrite IH by (rewrite ?length_reg_set; lia).
    replace (Z.to_nat (k - from)) with (S (Z.to_nat (k - (from + 1)))) by lia.
    reflexivity.
Qed.

Lemma in_zseq from len k : In k (zseq from len) <-> from <= k < from + len.
Proof.
  unfold zseq. rewrite in_map_iff. split.
  - intros (n & <- & Hn). apply in_seq in Hn. lia.
  - intros Hk. exists (Z.to_nat (k - from)). split; [lia|]. apply in_seq. lia.
Qed.

Lemma NoDup_zseq from len : NoDup (zseq from len).
Proof.
  unfold zseq. apply NoDup_map_NoDup_ForallPairs.
  - intros x y _ _ H. lia.
  - apply seq_NoDup.
Qed.

Lemma length_zseq from len : length (zseq from len) = Z.to_nat len.
Proof. unfold zseq. rewrite length_map, length_seq. reflexivity. Qed.

Lemma fold_update_length (g : Z -> Z) is regs :
  length (fold_left (fun rs j => reg_set rs j (g (reg_get rs j))) is regs) = length regs.
Proof.
  revert regs; induction is as [|j is IH]; intros; cbn; auto.
  rewrite IH; apply length_reg_set.
Qed.

Lemma fold_update_get (g : Z -> Z) is regs k :
  NoDup is -> Forall (fun j => 0 <= j < Z.of_nat (length regs)) is -> 0 <= k ->
  reg_get (fold_left (fun rs j => reg_set rs j (g (reg_get rs j))) is regs) k =
  if existsb (Z.eqb k) is then g (reg_get regs k) else reg_get regs k.
Proof.
  revert regs; induction is as [|j is IH]; intros regs Hnd Hall Hk; cbn [fold_left existsb]; auto.
  inversion Hnd as [|? ? Hnin Hnd']; subst. inversion Hall as [|? ? Hj Hall']; subst.
  rewrite IH; auto.
  2:{ eapply Forall_impl; [|exact Hall']. intros a Ha; rewrite length_reg_set; exact Ha. }
  destruct (Z.eqb_spec k j) as [->|Hne]; cbn [orb].
  - destruct (existsb (Z.eqb j) is) eqn:E.
    + apply existsb_exists in E as (y & Hy & Hy'). apply Z.eqb_eq in Hy'; subst; contradiction.
    + apply reg_get_set_same; lia.
  - rewrite reg_get_set_other by lia. reflexivity.
Qed.

Lemma bitrev_range_length regs from upto : length (bitrev_range regs from upto) = length regs.
Proof. apply fold_update_length. Qed.

Lemma bitrev_range_get regs from upto k :
  0 <= from -> upto <= Z.of_nat (length regs) -> 0 <= k ->
  reg_get (bitrev_range regs from upto) k =
  if (from <=? k) && (k <? upto) then r82xx_bitrev (reg_get regs k) else reg_get regs k.
Proof.
  intros H0 H1 Hk. unfold bitrev_range. rewrite fold_update_get; auto.
  - destruct (existsb (Z.eqb k) (zseq from (upto - from))) eqn:E.
    + apply existsb_exists in E as (y & Hy & Hy'). apply Z.eqb_eq in Hy'.
      rewrite <- Hy' in Hy. apply in_zseq in Hy.
      replace ((from <=? k) && (k <? upto)) with true; auto.
      symmetry; apply andb_true_iff; split; [apply Z.leb_le | apply Z.ltb_lt]; lia.
    + destruct ((from <=? k) && (k <? upto)) eqn:E2; auto.
      apply andb_true_iff in E2 as [E2 E3]. apply Z.leb_le in E2. apply Z.ltb_lt in E3.
      assert (In k (zseq from (upto - from))) as Hin by (apply in_zseq; lia).
      assert (existsb (Z.eqb k) (zseq from (upto - from)) = true) as E4
        by (apply existsb_exists; exists k; split; auto; apply Z.eqb_refl).
      congruence.
  - apply NoDup_zseq.
  - apply Forall_forall. intros j Hj. apply in_zseq in Hj. lia.
Qed.

(** Bits of the machine operations. *)

Lemma testbit_u32 x j : 0 <= j < 32 -> Z.testbit (u32 x) j = Z.testbit x j.
Proof. intros; unfold u32; apply Z.mod_pow2_bits_low; lia. Qed.

Lemma testbit_shiftl1 r j : 0 <= r -> 0 <= j -> Z.testbit (Z.shiftl 1 r) j = (r =? j).
Proof. intros; rewrite Z.shiftl_1_l; apply Z.pow2_bits_eqb; lia. Qed.

Lemma land_pow2_zero i m : 0 <= i -> (Z.land (Z.shiftl 1 i) m =? 0) = negb (Z.testbit m i).
Proof.
  intros Hi. rewrite Z.shiftl_1_l. destruct (Z.testbit m i) eqn:E; cbn.
  - apply Z.eqb_neq. intro H.
    assert (Z.testbit (Z.land (2 ^ i) m) i = false) as H1 by (rewrite H; apply Z.bits_0).
    rewrite Z.land_spec, Z.pow2_bits_true, E in H1 by lia. discriminate.
  - apply Z.eqb_eq. apply Z.bits_inj'. intros n Hn.
    rewrite Z.land_spec, Z.pow2_bits_eqb, Z.bits_0 by lia.
    destruct (Z.eqb_spec i n); subst; cbn; auto.
Qed.

Lemma testbit_low_mask k j : 0 <= k -> 0 <= j ->
  Z.testbit (Z.lnot (Z.shiftl 1 k - 1)) j = (k <=? j).
Proof.
  intros Hk Hj. rewrite Z.lnot_spec by lia. rewrite Z.shiftl_1_l.
  replace (2 ^ k - 1) with (Z.ones k) by (rewrite Z.ones_equiv; lia).
  rewrite Z.testbit_ones_nonneg by lia.
  destruct (Z.ltb_spec j k), (Z.leb_spec k j); cbn; auto; lia.
Qed.

Lemma byte_bits_high m k : 0 <= m < 2 ^ 8 -> 8 <= k -> Z.testbit m k = false.
Proof.
  intros Hm Hk. rewrite <- (Z.mod_small m (2 ^ 8)) by lia.
  apply Z.mod_pow2_bits_high; lia.
Qed.

Lemma u8_bits_high x k : 8 <= k -> Z.testbit (u8 x) k = false.
Proof. intros; unfold u8; apply Z.mod_pow2_bits_high; lia. Qed.

Lemma u8_bits_low x k : 0 <= k < 8 -> Z.testbit (u8 x) k = Z.testbit x k.
Proof. intros; unfold u8; apply Z.mod_pow2_bits_low; lia. Qed.

Ltac bits_cases :=
  repeat match goal with
  | |- context [Z.testbit (u8 ?x) ?n] =>
      let H := fresh in
      destruct (Z.ltb_spec n 8) as [H|H];
      [rewrite (u8_bits_low x n) by lia | rewrite (u8_bits_high x n) by lia]
  end.

(** The byte a field write leaves in its register. *)

Lemma field_byte_get r f v : 0 <= f_mask f < 256 -> 0 <= f_shift f ->
  Z.shiftr (Z.land (field_byte r f v) (f_mask f)) (f_shift f) =
  Z.land (u8 v) (Z.shiftr (f_mask f) (f_shift f)).
Proof.
  intros Hm Hs. unfold field_byte. apply Z.bits_inj'. intros n Hn.
  rewrite Z.shiftr_spec by lia. rewrite !Z.land_spec. rewrite Z.shiftr_spec by lia.
  destruct (Z.ltb_spec (n + f_shift f) 8).
  - rewrite u8_bits_low by lia. rewrite Z.lor_spec, u8_bits_low by lia.
    rewrite Z.land_spec, Z.lnot_spec, Z.shiftl_spec by lia.
    replace (n + f_shift f - f_shift f) with n by lia.
    destruct (Z.testbit (f_mask f) (n + f_shift f)), (Z.testbit r (n + f_shift f)),
      (Z.testbit (u8 v) n); reflexivity.
  - rewrite (byte_bits_high (f_mask f)) by lia. rewrite !andb_false_r. reflexivity.
Qed.

Lemma field_byte_masked r f v : 0 <= f_mask f < 256 -> 0 <= f_shift f ->
  Z.land (field_byte r f v) (f_mask f) = Z.land (Z.shiftl (u8 v) (f_shift f)) (f_mask f).
Proof.
  intros Hm Hs. unfold field_byte. apply Z.bits_inj'. intros n Hn.
  rewrite !Z.land_spec. destruct (Z.ltb_spec n 8).
  - rewrite u8_bits_low by lia. rewrite Z.lor_spec, u8_bits_low by lia.
    rewrite Z.land_spec, Z.lnot_spec by lia.
    destruct (Z.testbit (f_mask f) n), (Z.testbit r n), (Z.testbit (Z.shiftl (u8 v) (f_shift f)) n);
      reflexivity.
  - rewrite (byte_bits_high (f_mask f)) by lia. rewrite !andb_false_r. reflexivity.
Qed.

Lemma field_byte_outside r f v : 0 <= r < 256 -> 0 <= f_mask f < 256 ->
  Z.land (Z.shiftl (u8 v) (f_shift f)) (Z.lnot (f_mask f)) = 0 ->
  Z.land (field_byte r f v) (Z.lnot (f_mask f)) = Z.land r (Z.lnot (f_mask f)).
Proof.
  intros Hr Hm Hfit. unfold field_byte. apply Z.bits_inj'. intros n Hn.
  assert (Z.testbit (Z.land (Z.shiftl (u8 v) (f_shift f)) (Z.lnot (f_mask f))) n = false)
    as Hb by (rewrite Hfit; apply Z.bits_0).
  rewrite Z.land_spec, Z.lnot_spec in Hb by lia.
  rewrite !Z.land_spec, Z.lnot_spec by lia. destruct (Z.ltb_spec n 8).
  - rewrite u8_bits_low by lia. rewrite Z.lor_spec, u8_bits_low by lia.
    rewrite Z.land_spec, Z.lnot_spec by lia.
    destruct (Z.testbit (f_mask f) n), (Z.testbit r n), (Z.testbit (Z.shiftl (u8 v) (f_shift f)) n);
      cbn in *; congruence.
  - rewrite u8_bits_high by lia. rewrite (byte_bits_high r) by lia. reflexivity.
Qed.

Lemma tuner_set_value_registers this f v :
  registers (tuner_set_value this f v) =
  reg_set (registers this) (f_reg f) (field_byte (reg_get (registers this) (f_reg f)) f v).
Proof. reflexivity. Qed.

Lemma tuner_set_value_dirty this f v :
  registers_dirty_mask (tuner_set_value this f v) =
  u32 (Z.lor (registers_dirty_mask this) (Z.shiftl 1 (f_reg f))).
Proof. reflexivity. Qed.

Lemma register_map_ok :
  Forall (fun f => 0 <= f_reg f < 32 /\ 0 <= f_mask f < 256 /\ 0 <= f_shift f < 8) register_map.
Proof.
  unfold register_map.
  repeat (apply Forall_cons; [cbn; lia|]). apply Forall_nil.
Qed.


Ltac zbool :=
  repeat match goal with
  | |- context [?a <=? ?b] => destruct (Z.leb_spec a b)
  | |- context [?a <? ?b] => destruct (Z.ltb_spec a b)
  | |- context [?a =? ?b] => destruct (Z.eqb_spec a b)
  end; cbn [andb orb negb]; rewrite ?andb_true_r, ?andb_false_r; try lia; auto.

(** ** Tuner: the I2C transfer loops *)

Lemma unflushed_app acc e1 e2 i :
  unflushed acc (e1 ++ e2) i = unflushed (unflushed acc e1 i) e2 i.
Proof. unfold unflushed. apply fold_left_app. Qed.

Lemma unflushed_cons acc e evs i : unflushed acc (e :: evs) i = unflushed (unflushed acc [e] i) evs i.
Proof. reflexivity. Qed.

Lemma unflushed_nil acc i : unflushed acc [] i = acc.
Proof. reflexivity. Qed.

Lemma unflushed_transfer acc from len i :
  unflushed acc [EvTransfer from len] i = if (from <=? i) && (i <? from + len) then false else acc.
Proof. reflexivity. Qed.

Lemma unflushed_shadow acc r i : unflushed acc [EvShadow r] i = if r =? i then true else acc.
Proof. reflexivity. Qed.

Lemma xfer_events_cons_ok x new : 0 <= x_ret x ->
  xfer_events (x :: new) = EvTransfer (x_from x) (Z.of_nat (length (x_data x))) :: xfer_events new.
Proof. intros H. unfold xfer_events; cbn [flat_map]. destruct (Z.leb_spec 0 (x_ret x)); [reflexivity|lia]. Qed.

Lemma xfer_events_cons_fail x new : x_ret x < 0 -> xfer_events (x :: new) = xfer_events new.
Proof. intros H. unfold xfer_events; cbn [flat_map]. destruct (Z.leb_spec 0 (x_ret x)); [lia|reflexivity]. Qed.

Lemma xfer_events_app a b : xfer_events (a ++ b) = xfer_events a ++ xfer_events b.
Proof. unfold xfer_events. apply flat_map_app. Qed.

Lemma unflushed_xfer_mono new acc i : unflushed acc (xfer_events new) i = true -> acc = true.
Proof.
  revert acc; induction new as [|x new IH]; intros acc H; [exact H|].
  destruct (Z.leb_spec 0 (x_ret x)).
  - rewrite xfer_events_cons_ok, unflushed_cons, unflushed_transfer in H by lia.
    apply IH in H. destruct ((x_from x <=? i) && (i <? x_from x + Z.of_nat (length (x_data x))));
      congruence.
  - rewrite xfer_events_cons_fail in H by lia. auto.
Qed.

Lemma length_i2c_data (g : Z -> Z) from i : from <= i ->
  Z.of_nat (length (map g (zseq from (i - from)))) = i - from.
Proof. intros. rewrite length_map, length_zseq. lia. Qed.

Lemma write_loop_spec : forall fuel mask i from w r w',
  0 <= i <= 32 -> Z.of_nat fuel = 33 - i ->
  (from = -1 \/ (0 <= from < i /\ forall j, from <= j < i -> Z.testbit mask j = true)) ->
  write_registers_loop fuel mask i from w = Some (r, w') ->
  w_tuner w' = w_tuner w /\ w_bus w' = w_bus w /\
  exists new, w_log w' = w_log w ++ new /\ Forall (fun x => x_write x = true) new /\
    ((r = 0 /\ Forall (fun x => 0 <= x_ret x) new /\
      forall acc j, 0 <= j < 32 ->
        unflushed acc (xfer_events new) j =
        acc && negb (((0 <=? from) && (from <=? j) && (j <? i)) || ((i <=? j) && Z.testbit mask j)))
     \/ (r = -1 /\ Exists (fun x => x_ret x < 0) new)).
Proof.
  induction fuel as [|fuel IH]; intros mask i from w r w' Hi Hf Hfrom Hrun; [lia|].
  cbn [write_registers_loop] in Hrun. rewrite land_pow2_zero in Hrun by lia.
  destruct ((i =? R820T2_REGISTERS) || negb (Z.testbit mask i)) eqn:Hc.
  - destruct (0 <=? from) eqn:Hfr.
    + apply Z.leb_le in Hfr.
      assert (from < i) as Hfi by (destruct Hfrom; lia).
      apply bind_inv in Hrun as (r0 & w1 & E1 & Hrun).
      cbv [usb_device_i2c_write] in E1. injection E1 as <- <-.
      set (x := mk_xfer true from (map (reg_get (registers (w_tuner w))) (zseq from (i - from)))
                  (bus_ret (w_bus w) (length (w_log w)))) in *.
      destruct (bus_ret (w_bus w) (length (w_log w)) <? 0) eqn:Hr0.
      * apply Z.ltb_lt in Hr0. injection Hrun as <- <-. cbn [w_tuner w_bus w_log].
        split; [auto|split; [auto|]]. exists [x]. split; [reflexivity|].
        split; [repeat constructor|]. right. split; [auto|]. apply Exists_cons_hd. exact Hr0.
      * apply Z.ltb_ge in Hr0.
        assert (Hev : forall acc j,
                  unflushed acc [EvTransfer (x_from x) (Z.of_nat (length (x_data x)))] j =
                  if (from <=? j) && (j <? i) then false else acc).
        { intros acc j. rewrite unflushed_transfer. unfold x; cbn [x_from x_data].
          rewrite length_i2c_data by lia. replace (from + (i - from)) with i by lia. reflexivity. }
        destruct fuel as [|fuel'].
        -- cbn in Hrun. injection Hrun as <- <-. cbn [w_tuner w_bus w_log].
           split; [auto|split; [auto|]]. exists [x]. split; [reflexivity|].
           split; [repeat constructor|]. left. split; [auto|]. split; [repeat constructor; exact Hr0|].
           intros acc j Hj. rewrite xfer_events_cons_ok by exact Hr0. cbn [xfer_events flat_map].
           rewrite Hev. assert (i = 32) by lia. subst i. zbool.
        -- apply IH in Hrun as (Ht & Hb & new & Hlog & Hw & Hres); [| lia | lia | left; reflexivity].
           cbn [w_tuner w_bus w_log] in Ht, Hb, Hlog.
           split; [auto|split; [auto|]]. exists (x :: new). split; [rewrite Hlog, <- app_assoc; reflexivity|].
           split; [constructor; auto|].
           destruct Hres as [(-> & Hok & Hcov) | (-> & Hbad)].
           ++ left. split; [auto|]. split; [constructor; auto|].
              intros acc j Hj. rewrite (xfer_events_cons_ok x new Hr0).
              rewrite unflushed_cons, Hcov by exact Hj.
              rewrite Hev.
              assert (Z.testbit mask i = false) as Hbi.
              { apply orb_true_iff in Hc as [Hc|Hc]; [apply Z.eqb_eq in Hc; unfold R820T2_REGISTERS in Hc; lia|].
                destruct (Z.testbit mask i); cbn in Hc; congruence. }
              destruct (Z.eq_dec j i) as [->|Hji]; [rewrite Hbi|]; zbool.
           ++ right. split; [auto|]. apply Exists_cons_tl. exact Hbad.
    + assert (from = -1) as -> by (apply Z.leb_gt in Hfr; destruct Hfrom; lia).
      destruct fuel as [|fuel'].
      * cbn in Hrun. injection Hrun as <- <-.
        split; [auto|split; [auto|]]. exists []. split; [rewrite app_nil_r; reflexivity|].
        split; [constructor|]. left. split; [auto|]. split; [constructor|].
        intros acc j Hj. rewrite unflushed_nil. zbool.
      * apply IH in Hrun as (Ht & Hb & new & Hlog & Hw & Hres); [| lia | lia | left; reflexivity].
        split; [auto|split; [auto|]]. exists new. split; [auto|]. split; [auto|].
        destruct Hres as [(-> & Hok & Hcov) | (-> & Hbad)]; [left | right; auto].
        split; [auto|]. split; [auto|]. intros acc j Hj. rewrite Hcov by exact Hj.
        assert (Z.testbit mask i = false) as Hbi.
        { apply orb_true_iff in Hc as [Hc|Hc]; [apply Z.eqb_eq in Hc; unfold R820T2_REGISTERS in Hc; lia|].
          destruct (Z.testbit mask i); cbn in Hc; congruence. }
        destruct (Z.eq_dec j i) as [->|Hji]; [rewrite Hbi|]; zbool.
  - assert (i <> 32 /\ Z.testbit mask i = true) as [Hi32 Hbi].
    { apply orb_false_iff in Hc as [Hc1 Hc2]. apply Z.eqb_neq in Hc1.
      destruct (Z.testbit mask i); cbn in Hc2; [|discriminate]. unfold R820T2_REGISTERS in Hc1. auto. }
    apply IH in Hrun as (Ht & Hb & new & Hlog & Hw & Hres); [| lia | lia |].
    2:{ right. destruct Hfrom as [->|(Hf1 & Hf2)]; cbn.
        - split; [lia|]. intros j Hj. assert (j = i) as -> by lia. exact Hbi.
        - destruct (Z.ltb_spec from 0); [lia|]. split; [lia|].
          intros j Hj. destruct (Z.eq_dec j i) as [->|]; [exact Hbi | apply Hf2; lia]. }
    split; [auto|split; [auto|]]. exists new. split; [auto|]. split; [auto|].
    destruct Hres as [(-> & Hok & Hcov) | (-> & Hbad)]; [left | right; auto].
    split; [auto|]. split; [auto|]. intros acc j Hj. rewrite Hcov by exact Hj.
    destruct Hfrom as [->|(Hf1 & Hf2)].
    + cbn. destruct (Z.eq_dec j i) as [->|Hji]; [rewrite Hbi|]; zbool.
    + destruct (Z.ltb_spec from 0); [lia|].
      destruct (Z.eq_dec j i) as [->|Hji]; [rewrite Hbi|]; zbool.
Qed.


(** ** Tuner: field access *)

(** C7: for every field descriptor (reg, mask, shift) of the register map
    and every byte value v, reading the field after [tuner_set_value] gives
    [v & (mask >> shift)]; reading a field is [(shadow[reg] & mask) >> shift];
    writing it sets the masked bits of [shadow[reg]] to those of
    [v << shift], keeps the bits outside the mask when the value fits, keeps
    the other registers, and sets bit [reg] of the dirty mask and no other. *)
Theorem tuner_field_get_set : forall f this v,
  In f register_map -> 0 <= v < 256 -> length (registers this) = 32%nat ->
  tuner_get_value (tuner_set_value this f v) f = Z.land v (Z.shiftr (f_mask f) (f_shift f)) /\
  tuner_get_value this f =
    Z.shiftr (Z.land (reg_get (registers this) (f_reg f)) (f_mask f)) (f_shift f) /\
  Z.land (reg_get (registers (tuner_set_value this f v)) (f_reg f)) (f_mask f) =
    Z.land (Z.shiftl v (f_shift f)) (f_mask f) /\
  (0 <= reg_get (registers this) (f_reg f) < 256 ->
   Z.land (Z.shiftl v (f_shift f)) (Z.lnot (f_mask f)) = 0 ->
   Z.land (reg_get (registers (tuner_set_value this f v)) (f_reg f)) (Z.lnot (f_mask f)) =
     Z.land (reg_get (registers this) (f_reg f)) (Z.lnot (f_mask f))) /\
  (forall j, 0 <= j -> j <> f_reg f ->
   reg_get (registers (tuner_set_value this f v)) j = reg_get (registers this) j) /\
  (forall j, 0 <= j < 32 ->
   Z.testbit (registers_dirty_mask (tuner_set_value this f v)) j =
     Z.testbit (registers_dirty_mask this) j || (f_reg f =? j)).
Proof.
  intros f this v Hin Hv Hlen.
  pose proof register_map_ok as Hmap. rewrite Forall_forall in Hmap.
  destruct (Hmap f Hin) as (Hr & Hm & Hs).
  assert (Hu : u8 v = v) by (unfold u8; apply Z.mod_small; lia).
  assert (Hreg : (Z.to_nat (f_reg f) < length (registers this))%nat) by (rewrite Hlen; lia).
  repeat split.
  - unfold tuner_get_value. rewrite tuner_set_value_registers, reg_get_set_same by (lia || auto).
    rewrite field_byte_get by lia. rewrite Hu. reflexivity.
  - rewrite tuner_set_value_registers, reg_get_set_same by (lia || auto).
    rewrite field_byte_masked by lia. rewrite Hu. reflexivity.
  - intros Hb Hfit. rewrite tuner_set_value_registers, reg_get_set_same by (lia || auto).
    apply field_byte_outside; [lia | lia | rewrite Hu; exact Hfit].
  - intros j Hj Hne. rewrite tuner_set_value_registers. apply reg_get_set_other; lia.
  - intros j Hj. rewrite tuner_set_value_dirty, testbit_u32 by lia.
    rewrite Z.lor_spec, testbit_shiftl1 by lia. reflexivity.
Qed.

Lemma tuner_field_get_set_witness :
  let this := mk_tuner DEFAULT_TUNER_XTAL_FREQUENCY DEFAULT_TUNER_IF_FREQUENCY
                (repeat 0xa5 32) 0 in
  tuner_get_value (tuner_set_value this R820T2_NI2C 0x17) R820T2_NI2C = 0x17 /\
  Z.land (reg_get (registers (tuner_set_value this R820T2_NI2C 0x17)) (f_reg R820T2_NI2C))
    (f_mask R820T2_NI2C) = 0x17 /\
  Z.testbit (registers_dirty_mask (tuner_set_value this R820T2_NI2C 0x17)) (f_reg R820T2_NI2C) = true.
Proof.
  intros this.
  destruct (tuner_field_get_set R820T2_NI2C this 0x17) as (H1 & _ & H3 & _ & _ & H6).
  - unfold register_map. cbn [In]. tauto.
  - lia.
  - reflexivity.
  - split; [rewrite H1; reflexivity|]. split; [rewrite H3; reflexivity|].
    rewrite H6 by (cbn; lia). rewrite Z.eqb_refl, orb_true_r. reflexivity.
Defined.

(** ** Tuner: the read loop *)

Lemma bind_get_tuner {B} (k : tuner -> M B) w : bind get_tuner k w = k (w_tuner w) w.
Proof. reflexivity. Qed.

Lemma bind_put_tuner {B} t (k : unit -> M B) w :
  bind (put_tuner t) k w = k tt (mk_world t (w_log w) (w_bus w)).
Proof. reflexivity. Qed.

Lemma read_loop_spec : forall fuel mask i from w r w',
  0 <= i <= 32 -> Z.of_nat fuel = 33 - i ->
  (from = -1 \/ (0 <= from < i /\ forall j, from <= j < i -> Z.testbit mask j = true)) ->
  read_registers_loop fuel mask i from w = Some (r, w') ->
  registers_dirty_mask (w_tuner w') = registers_dirty_mask (w_tuner w) /\ w_bus w' = w_bus w /\
  exists new, w_log w' = w_log w ++ new /\ Forall (fun x => x_write x = false) new /\
    ((r = 0 /\ Forall (fun x => 0 <= x_ret x) new /\
      forall acc j, 0 <= j < 32 ->
        unflushed acc (xfer_events new) j =
        acc && negb (((0 <=? from) && (from <=? j) && (j <? i)) || ((i <=? j) && Z.testbit mask j)))
     \/ (r = -1 /\ Exists (fun x => x_ret x < 0) new)).
Proof.
  induction fuel as [|fuel IH]; intros mask i from w r w' Hi Hf Hfrom Hrun; [lia|].
  cbn [read_registers_loop] in Hrun. rewrite land_pow2_zero in Hrun by lia.
  destruct ((i =? R820T2_REGISTERS) || negb (Z.testbit mask i)) eqn:Hc.
  - destruct (0 <=? from) eqn:Hfr.
    + apply Z.leb_le in Hfr.
      assert (from < i) as Hfi by (destruct Hfrom; lia).
      apply bind_inv in Hrun as (r0 & w1 & E1 & Hrun).
      cbv [usb_device_i2c_read] in E1. injection E1 as <- <-.
      set (x := mk_xfer false from (map (bus_data (w_bus w) (length (w_log w))) (zseq from (i - from)))
                  (bus_ret (w_bus w) (length (w_log w)))) in *.
      destruct (bus_ret (w_bus w) (length (w_log w)) <? 0) eqn:Hr0.
      * apply Z.ltb_lt in Hr0. injection Hrun as <- <-. cbn [w_tuner w_bus w_log].
        split; [auto|split; [auto|]]. exists [x]. split; [reflexivity|].
        split; [repeat constructor|]. right. split; [auto|]. apply Exists_cons_hd. exact Hr0.
      * apply Z.ltb_ge in Hr0.
        rewrite bind_get_tuner, bind_put_tuner in Hrun.
        assert (Hev : forall acc j,
                  unflushed acc [EvTransfer (x_from x) (Z.of_nat (length (x_data x)))] j =
                  if (from <=? j) && (j <? i) then false else acc).
        { intros acc j. rewrite unflushed_transfer. unfold x; cbn [x_from x_data].
          rewrite length_i2c_data by lia. replace (from + (i - from)) with i by lia. reflexivity. }
        destruct fuel as [|fuel'].
        -- cbn in Hrun. injection Hrun as <- <-. cbn [w_tuner w_bus w_log].
           split; [reflexivity|split; [auto|]]. exists [x]. split; [reflexivity|].
           split; [repeat constructor|]. left. split; [auto|]. split; [repeat constructor; exact Hr0|].
           intros acc j Hj. rewrite xfer_events_cons_ok by exact Hr0. cbn [xfer_events flat_map].
           rewrite Hev. assert (i = 32) by lia. subst i. zbool.
        -- apply IH in Hrun as (Ht & Hb & new & Hlog & Hw & Hres); [| lia | lia | left; reflexivity].
           cbn [w_tuner w_bus w_log with_registers registers_dirty_mask] in Ht, Hb, Hlog.
           split; [auto|split; [auto|]]. exists (x :: new). split; [rewrite Hlog, <- app_assoc; reflexivity|].
           split; [constructor; auto|].
           destruct Hres as [(-> & Hok & Hcov) | (-> & Hbad)].
           ++ left. split; [auto|]. split; [constructor; auto|].
              intros acc j Hj. rewrite (xfer_events_cons_ok x new Hr0).
              rewrite unflushed_cons, Hcov by exact Hj.
              rewrite Hev.
              assert (Z.testbit mask i = false) as Hbi.
              { apply orb_true_iff in Hc as [Hc|Hc]; [apply Z.eqb_eq in Hc; unfold R820T2_REGISTERS in Hc; lia|].
                destruct (Z.testbit mask i); cbn in Hc; congruence. }
              destruct (Z.eq_dec j i) as [->|Hji]; [rewrite Hbi|]; zbool.
           ++ right. split; [auto|]. apply Exists_cons_tl. exact Hbad.
    + assert (from = -1) as -> by (apply Z.leb_gt in Hfr; destruct Hfrom; lia).
      destruct fuel as [|fuel'].
      * cbn in Hrun. injection Hrun as <- <-.
        split; [auto|split; [auto|]]. exists []. split; [rewrite app_nil_r; reflexivity|].
        split; [constructor|]. left. split; [auto|]. split; [constructor|].
        intros acc j Hj. rewrite unflushed_nil. zbool.
      * apply IH in Hrun as (Ht & Hb & new & Hlog & Hw & Hres); [| lia | lia | left; reflexivity].
        split; [auto|split; [auto|]]. exists new. split; [auto|]. split; [auto|].
        destruct Hres as [(-> & Hok & Hcov) | (-> & Hbad)]; [left | right; auto].
        split; [auto|]. split; [auto|]. intros acc j Hj. rewrite Hcov by exact Hj.
        assert (Z.testbit mask i = false) as Hbi.
        { apply orb_true_iff in Hc as [Hc|Hc]; [apply Z.eqb_eq in Hc; unfold R820T2_REGISTERS in Hc; lia|].
          destruct (Z.testbit mask i); cbn in Hc; congruence. }
        destruct (Z.eq_dec j i) as [->|Hji]; [rewrite Hbi|]; zbool.
  - assert (i <> 32 /\ Z.testbit mask i = true) as [Hi32 Hbi].
    { apply orb_false_iff in Hc as [Hc1 Hc2]. apply Z.eqb_neq in Hc1.
      destruct (Z.testbit mask i); cbn in Hc2; [|discriminate]. unfold R820T2_REGISTERS in Hc1. auto. }
    apply IH in Hrun as (Ht & Hb & new & Hlog & Hw & Hres); [| lia | lia |].
    2:{ right. destruct Hfrom as [->|(Hf1 & Hf2)]; cbn.
        - split; [lia|]. intros j Hj. assert (j = i) as -> by lia. exact Hbi.
        - destruct (Z.ltb_spec from 0); [lia|]. split; [lia|].
          intros j Hj. destruct (Z.eq_dec j i) as [->|]; [exact Hbi | apply Hf2; lia]. }
    split; [auto|split; [auto|]]. exists new. split; [auto|]. split; [auto|].
    destruct Hres as [(-> & Hok & Hcov) | (-> & Hbad)]; [left | right; auto].
    split; [auto|]. split; [auto|]. intros acc j Hj. rewrite Hcov by exact Hj.
    destruct Hfrom as [->|(Hf1 & Hf2)].
    + cbn. destruct (Z.eq_dec j i) as [->|Hji]; [rewrite Hbi|]; zbool.
    + destruct (Z.ltb_spec from 0); [lia|].
      destruct (Z.eq_dec j i) as [->|Hji]; [rewrite Hbi|]; zbool.
Qed.


(** ** Tuner: the dirty mask *)

Lemma skipn_length_app {A} (a b : list A) : skipn (length a) (a ++ b) = b.
Proof. induction a as [|x a IH]; cbn; auto. Qed.

Lemma unflushed_mono evs i : forall acc1 acc2,
  (acc1 = true -> acc2 = true) -> unflushed acc1 evs i = true -> unflushed acc2 evs i = true.
Proof.
  induction evs as [|e evs IH]; intros acc1 acc2 Ha H; [auto|].
  rewrite unflushed_cons in *. eapply IH; [|exact H].
  destruct e as [r|from len]; [rewrite !unflushed_shadow | rewrite !unflushed_transfer].
  - destruct (r =? i); auto.
  - destruct ((from <=? i) && (i <? from + len)); auto.
Qed.

Lemma shadow_field_ok f : In f register_map -> 0 <= f_reg f < 32.
Proof.
  intros Hin. pose proof register_map_ok as Hmap. rewrite Forall_forall in Hmap.
  destruct (Hmap f Hin) as (Hr & _). exact Hr.
Qed.

Ltac dirty_bits :=
  repeat first
    [ rewrite testbit_u32 by lia
    | rewrite Z.land_spec
    | rewrite Z.lor_spec
    | rewrite Z.lnot_spec by lia
    | rewrite testbit_shiftl1 by lia ].

Ltac exact_case :=
  match goal with
  | |- (?u = true -> ?d = true) /\ (_ -> ?d = ?u) =>
      let Heq := fresh "Heq" in let HE := fresh "HE" in
      enough (Heq : d = u) by (split; [intros HE; rewrite Heq; exact HE | intros _; exact Heq])
  end.

Lemma write_registers_loop_0 mask w r w' :
  write_registers_loop (Z.to_nat R820T2_REGISTERS + 1) mask 0 (-1) w = Some (r, w') ->
  w_tuner w' = w_tuner w /\ w_bus w' = w_bus w /\
  exists new, w_log w' = w_log w ++ new /\ Forall (fun x => x_write x = true) new /\
    ((r = 0 /\ Forall (fun x => 0 <= x_ret x) new /\
      forall acc j, 0 <= j < 32 -> unflushed acc (xfer_events new) j = acc && negb (Z.testbit mask j))
     \/ (r = -1 /\ Exists (fun x => x_ret x < 0) new)).
Proof.
  intros H. apply write_loop_spec in H as (Ht & Hb & new & Hlog & Hw & Hres);
    [| lia | reflexivity | left; reflexivity].
  split; [auto|split; [auto|]]. exists new. split; [auto|]. split; [auto|].
  destruct Hres as [(-> & Hok & Hcov) | Hbad]; [left | right; auto].
  split; [auto|]. split; [auto|]. intros acc j Hj. rewrite Hcov by exact Hj. zbool.
Qed.

Lemma read_registers_loop_0 mask w r w' :
  read_registers_loop (Z.to_nat R820T2_REGISTERS + 1) mask 0 (-1) w = Some (r, w') ->
  registers_dirty_mask (w_tuner w') = registers_dirty_mask (w_tuner w) /\ w_bus w' = w_bus w /\
  exists new, w_log w' = w_log w ++ new /\ Forall (fun x => x_write x = false) new /\
    ((r = 0 /\ Forall (fun x => 0 <= x_ret x) new /\
      forall acc j, 0 <= j < 32 -> unflushed acc (xfer_events new) j = acc && negb (Z.testbit mask j))
     \/ (r = -1 /\ Exists (fun x => x_ret x < 0) new)).
Proof.
  intros H. apply read_loop_spec in H as (Ht & Hb & new & Hlog & Hw & Hres);
    [| lia | reflexivity | left; reflexivity].
  split; [auto|split; [auto|]]. exists new. split; [auto|]. split; [auto|].
  destruct Hres as [(-> & Hok & Hcov) | Hbad]; [left | right; auto].
  split; [auto|]. split; [auto|]. intros acc j Hj. rewrite Hcov by exact Hj. zbool.
Qed.

Lemma Forall_Exists_contra {A} (P : A -> Prop) l :
  Forall (fun x => ~ P x) l -> Exists P l -> False.
Proof. intros H1 H2. rewrite Forall_Exists_neg in H1. contradiction. Qed.

Lemma ok_bad_contra (l : list xfer) :
  Forall (fun x => 0 <= x_ret x) l -> Exists (fun x => x_ret x < 0) l -> False.
Proof.
  intros H1 H2. apply (Forall_Exists_contra (fun x => x_ret x < 0) l); [|exact H2].
  eapply Forall_impl; [|exact H1]. cbn. intros; lia.
Qed.

Lemma shadow_step_spec_set_value f v w r w' :
  In f register_map -> shadow_step (OpSetValue f v) w = Some (r, w') ->
  w_bus w' = w_bus w /\
  exists new, w_log w' = w_log w ++ new /\ dirty_tracks w (op_shadow_events (OpSetValue f v) ++ xfer_events new) new w'.
Proof.
  intros Hok H. unfold dirty_tracks.
  pose proof (shadow_field_ok f Hok) as Hr.
  cbv [shadow_step set_value bind get_tuner put_tuner ret] in H. injection H as <- <-.
  split; [reflexivity|]. exists []. split; [rewrite app_nil_r; reflexivity|].
  intros j Hj. cbn [op_shadow_events xfer_events flat_map app w_tuner].
  rewrite unflushed_shadow, tuner_set_value_dirty. dirty_bits.
  exact_case; zbool; destruct (Z.testbit (registers_dirty_mask (w_tuner w)) j); auto.
Qed.

Lemma shadow_step_spec_write_value f v w r w' :
  In f register_map -> shadow_step (OpWriteValue f v) w = Some (r, w') ->
  w_bus w' = w_bus w /\
  exists new, w_log w' = w_log w ++ new /\ dirty_tracks w (op_shadow_events (OpWriteValue f v) ++ xfer_events new) new w'.
Proof.
  intros Hok H. unfold dirty_tracks.
  pose proof (shadow_field_ok f Hok) as Hr.
  cbv [shadow_step tuner_write_value bind assert get_tuner put_tuner ret usb_device_i2c_write
       with_dirty_mask] in H.
  repeat match type of H with context [if ?b then _ else _] =>
    let E := fresh "E" in destruct b eqn:E; cbv beta iota zeta in H; try discriminate end.
  all: injection H as <- <-.
  all: split; [reflexivity|]; eexists; split; [reflexivity|]; intros j Hj.
  + apply Z.ltb_lt in E1. rewrite xfer_events_cons_fail by exact E1.
    cbn [op_shadow_events xfer_events flat_map app w_tuner registers_dirty_mask].
    rewrite unflushed_shadow. dirty_bits.
    exact_case; zbool; destruct (Z.testbit (registers_dirty_mask (w_tuner w)) j); auto.
  + apply Z.ltb_ge in E1. rewrite xfer_events_cons_ok by exact E1.
    cbn [op_shadow_events xfer_events flat_map app w_tuner registers_dirty_mask x_from x_data].
    rewrite unflushed_cons, unflushed_shadow, unflushed_transfer.
    cbn [length Z.of_nat Pos.of_succ_nat]. dirty_bits.
    exact_case; zbool; destruct (Z.testbit (registers_dirty_mask (w_tuner w)) j); auto.
Qed.

Lemma shadow_step_spec_write_registers m w r w' :
  shadow_step (OpWriteRegisters m) w = Some (r, w') ->
  w_bus w' = w_bus w /\
  exists new, w_log w' = w_log w ++ new /\ dirty_tracks w (op_shadow_events (OpWriteRegisters m) ++ xfer_events new) new w'.
Proof.
  intros H. unfold dirty_tracks.
  revert H. unfold shadow_step, tuner_write_registers. cbv zeta. intros H.
  apply bind_inv in H as (r0 & w1 & E1 & H).
  apply write_registers_loop_0 in E1 as (Ht & Hb & new & Hlog & _ & Hres).
  destruct (Z.ltb_spec r0 0).
  + injection H as <- <-. split; [auto|]. exists new. split; [auto|]. intros j Hj.
    rewrite Ht. cbn [op_shadow_events app]. split.
    * intros HE. apply unflushed_xfer_mono in HE. exact HE.
    * intros Hok'. destruct Hres as [(-> & _ & _) | (_ & Hbad)]; [lia|].
      exfalso. exact (ok_bad_contra new Hok' Hbad).
  + destruct Hres as [(-> & _ & Hcov) | (-> & _)]; [|lia].
    rewrite bind_get_tuner, bind_put_tuner in H. injection H as <- <-.
    split; [auto|]. exists new. split; [auto|]. intros j Hj.
    cbn [op_shadow_events app w_tuner with_dirty_mask registers_dirty_mask].
    rewrite Ht, Hcov by exact Hj. dirty_bits.
    split; auto.
Qed.

Lemma shadow_step_spec_read_value f w r w' :
  In f register_map -> shadow_step (OpReadValue f) w = Some (r, w') ->
  w_bus w' = w_bus w /\
  exists new, w_log w' = w_log w ++ new /\ dirty_tracks w (op_shadow_events (OpReadValue f) ++ xfer_events new) new w'.
Proof.
  intros Hok H. unfold dirty_tracks.
  pose proof (shadow_field_ok f Hok) as Hr.
  cbv [shadow_step tuner_read_value bind usb_device_i2c_read get_tuner put_tuner ret
       with_dirty_mask with_registers] in H.
  repeat match type of H with context [if ?b then _ else _] =>
    let E := fresh "E" in destruct b eqn:E; cbv beta iota zeta in H; try discriminate end.
  all: injection H as <- <-.
  all: split; [reflexivity|]; eexists; split; [reflexivity|]; intros j Hj.
  + apply Z.ltb_lt in E. rewrite xfer_events_cons_fail by exact E.
    cbn [op_shadow_events xfer_events flat_map app w_tuner registers_dirty_mask].
    rewrite unflushed_nil. split; auto.
  + apply Z.ltb_ge in E. rewrite xfer_events_cons_ok by exact E.
    cbn [op_shadow_events xfer_events flat_map app w_tuner registers_dirty_mask x_from x_data].
    rewrite unflushed_transfer, length_map, length_zseq, Z2Nat.id by lia.
    rewrite testbit_u32, Z.land_spec, testbit_low_mask by lia.
    exact_case; zbool; destruct (Z.testbit (registers_dirty_mask (w_tuner w)) j); auto.
Qed.

Lemma shadow_step_spec_read_registers m w r w' :
  shadow_step (OpReadRegisters m) w = Some (r, w') ->
  w_bus w' = w_bus w /\
  exists new, w_log w' = w_log w ++ new /\ dirty_tracks w (op_shadow_events (OpReadRegisters m) ++ xfer_events new) new w'.
Proof.
  intros H. unfold dirty_tracks.
  revert H. unfold shadow_step, tuner_read_registers. cbv zeta. intros H.
  apply bind_inv in H as (r0 & w1 & E1 & H).
  apply read_registers_loop_0 in E1 as (Ht & Hb & new & Hlog & _ & Hres).
  destruct (Z.ltb_spec r0 0).
  + injection H as <- <-. split; [auto|]. exists new. split; [auto|]. intros j Hj.
    rewrite Ht. cbn [op_shadow_events app]. split.
    * intros HE. apply unflushed_xfer_mono in HE. exact HE.
    * intros Hok'. destruct Hres as [(-> & _ & _) | (_ & Hbad)]; [lia|].
      exfalso. exact (ok_bad_contra new Hok' Hbad).
  + destruct Hres as [(-> & _ & Hcov) | (-> & _)]; [|lia].
    rewrite bind_get_tuner, bind_put_tuner in H. injection H as <- <-.
    split; [auto|]. exists new. split; [auto|]. intros j Hj.
    cbn [op_shadow_events app w_tuner with_dirty_mask registers_dirty_mask].
    rewrite Ht, Hcov by exact Hj. dirty_bits.
    split; auto.
Qed.

Lemma shadow_step_spec o w r w' :
  shadow_op_ok o -> shadow_step o w = Some (r, w') ->
  w_bus w' = w_bus w /\
  exists new, w_log w' = w_log w ++ new /\ dirty_tracks w (op_shadow_events o ++ xfer_events new) new w'.
Proof.
  intros Hok H. destruct o as [f v | f v | m | f | m]; cbn [shadow_op_ok] in Hok.
  - exact (shadow_step_spec_set_value f v w r w' Hok H).
  - exact (shadow_step_spec_write_value f v w r w' Hok H).
  - exact (shadow_step_spec_write_registers m w r w' H).
  - exact (shadow_step_spec_read_value f w r w' Hok H).
  - exact (shadow_step_spec_read_registers m w r w' H).
Qed.


Lemma run_shadow_ops_spec : forall os w evs w',
  Forall shadow_op_ok os -> run_shadow_ops os w = Some (evs, w') ->
  exists new, w_log w' = w_log w ++ new /\ dirty_tracks w evs new w'.
Proof.
  induction os as [|o os IH]; intros w evs w' Hok H.
  - cbv [run_shadow_ops ret] in H. injection H as <- <-. exists [].
    split; [rewrite app_nil_r; reflexivity|].
    intros j Hj. rewrite unflushed_nil. split; auto.
  - inversion Hok as [|? ? Ho Hos]; subst.
    revert H. cbn [run_shadow_ops]. intros H.
    apply bind_inv in H as (l0 & w0 & E0 & H). cbv [get_log] in E0. injection E0 as <- <-.
    apply bind_inv in H as (r1 & w1 & E1 & H).
    apply bind_inv in H as (l1 & w2 & E2 & H). cbv [get_log] in E2. injection E2 as <- <-.
    apply bind_inv in H as (evs' & w3 & E3 & H). cbv [ret] in H. injection H as <- <-.
    apply shadow_step_spec in E1 as (Hb1 & new1 & Hlog1 & Htr1); [|exact Ho].
    apply IH in E3 as (new2 & Hlog2 & Htr2); [|exact Hos].
    exists (new1 ++ new2). split; [rewrite Hlog2, Hlog1, app_assoc; reflexivity|].
    rewrite Hlog1, skipn_length_app.
    intros j Hj. destruct (Htr1 j Hj) as (S1 & X1). destruct (Htr2 j Hj) as (S2 & X2).
    rewrite app_assoc, unflushed_app. split.
    + intros HE. apply S2. eapply unflushed_mono; [|exact HE]. exact S1.
    + intros Hall. apply Forall_app in Hall as (Hall1 & Hall2).
      rewrite X2 by exact Hall2. rewrite X1 by exact Hall1. reflexivity.
Qed.

Lemma write_registers_failure_keeps_mask m w r w' :
  shadow_step (OpWriteRegisters m) w = Some (r, w') -> r < 0 ->
  registers_dirty_mask (w_tuner w') = registers_dirty_mask (w_tuner w).
Proof.
  revert w'. unfold shadow_step, tuner_write_registers. cbv zeta. intros w' H Hr.
  apply bind_inv in H as (r0 & w1 & E1 & H).
  apply write_registers_loop_0 in E1 as (Ht & _ & new & _ & _ & Hres).
  destruct (Z.ltb_spec r0 0).
  - injection H as <- <-. rewrite Ht. reflexivity.
  - rewrite bind_get_tuner, bind_put_tuner in H. injection H as Hr0 _. lia.
Qed.

Lemma read_registers_failure_keeps_mask m w r w' :
  shadow_step (OpReadRegisters m) w = Some (r, w') -> r < 0 ->
  registers_dirty_mask (w_tuner w') = registers_dirty_mask (w_tuner w).
Proof.
  revert w'. unfold shadow_step, tuner_read_registers. cbv zeta. intros w' H Hr.
  apply bind_inv in H as (r0 & w1 & E1 & H).
  apply read_registers_loop_0 in E1 as (Ht & _ & new & _ & _ & Hres).
  destruct (Z.ltb_spec r0 0).
  - injection H as <- <-. exact Ht.
  - rewrite bind_get_tuner, bind_put_tuner in H. injection H as Hr0 _. lia.
Qed.

(** C8 (amended): for every sequence of shadow operations on fields of the
    register map ([tuner_set_value], [tuner_write_value],
    [tuner_write_registers], [tuner_read_value], [tuner_read_registers]),
    with [evs] the writes of the shadow and the successful I2C transfers in
    order: if register [j] was dirty at the start or written since, and no
    successful transfer covered it afterwards, bit [j] of the dirty mask is
    set; when every I2C transaction of the sequence succeeded, bit [j] is set
    exactly in that case. A failed [tuner_write_registers] or
    [tuner_read_registers] leaves the whole dirty mask unchanged. *)
Theorem dirty_mask_tracks_shadow :
  (forall os w evs w',
    Forall shadow_op_ok os -> run_shadow_ops os w = Some (evs, w') ->
    forall j, 0 <= j < 32 ->
    (unflushed (Z.testbit (registers_dirty_mask (w_tuner w)) j) evs j = true ->
     Z.testbit (registers_dirty_mask (w_tuner w')) j = true) /\
    (Forall (fun x => 0 <= x_ret x) (skipn (length (w_log w)) (w_log w')) ->
     Z.testbit (registers_dirty_mask (w_tuner w')) j =
     unflushed (Z.testbit (registers_dirty_mask (w_tuner w)) j) evs j)) /\
  (forall m w r w', shadow_step (OpWriteRegisters m) w = Some (r, w') -> r < 0 ->
    registers_dirty_mask (w_tuner w') = registers_dirty_mask (w_tuner w)) /\
  (forall m w r w', shadow_step (OpReadRegisters m) w = Some (r, w') -> r < 0 ->
    registers_dirty_mask (w_tuner w') = registers_dirty_mask (w_tuner w)).
Proof.
  split; [|split; [exact write_registers_failure_keeps_mask | exact read_registers_failure_keeps_mask]].
  intros os w evs w' Hok H j Hj.
  apply run_shadow_ops_spec in H as (new & Hlog & Htr); [|exact Hok].
  rewrite Hlog, skipn_length_app. exact (Htr j Hj).
Qed.

Lemma dirty_mask_tracks_shadow_witness :
  Z.testbit (registers_dirty_mask (w_tuner shadow_demo_final)) 5 =
  unflushed (Z.testbit (registers_dirty_mask (w_tuner (shadow_demo_world 0))) 5) shadow_demo_events 5 /\
  Z.testbit (registers_dirty_mask (w_tuner shadow_demo_final)) 5 = false.
Proof.
  destruct dirty_mask_tracks_shadow as [H _].
  assert (E : run_shadow_ops shadow_demo_ops (shadow_demo_world 0) =
              Some (shadow_demo_events, shadow_demo_final)) by (vm_compute; reflexivity).
  assert (Hok : Forall shadow_op_ok shadow_demo_ops).
  { unfold shadow_demo_ops. repeat constructor; unfold register_map; cbn [In]; tauto. }
  destruct (H _ _ _ _ Hok E 5) as [_ H2]; [lia|].
  split.
  - apply H2. vm_compute. repeat constructor; discriminate.
  - vm_compute. reflexivity.
Defined.

(** C8, counterexample to the original claim: the flush of registers 5 and 7
    transfers register 5 and then fails on register 7; register 5 was
    written and then flushed, yet bit 5 of the dirty mask stays set. *)
Lemma dirty_mask_tracks_shadow_counterexample :
  match run_shadow_ops shadow_demo_ops (shadow_demo_world (-1)) with
  | Some (evs, w') =>
      evs = [EvShadow 5; EvShadow 7; EvTransfer 5 1] /\
      w_log w' = [mk_xfer true 5 [1] 0; mk_xfer true 7 [1] (-1)] /\
      unflushed false evs 5 = false /\
      Z.testbit (registers_dirty_mask (w_tuner w')) 5 = true
  | None => False
  end.
Proof. vm_compute. repeat split. Qed.


(** ** Tuner: PLL parameters *)

Lemma compute_pll_uses_spur_prevention xtal_frequency frequency p :
  tuner_compute_pll_parameters xtal_frequency frequency = Some p ->
  exists mult_scaled, 0 <= mult_scaled < 2 ^ 32 /\
    let '(mult_int, mult_frac) :=
      boundary_spur_prevention (mult_scaled / SDM_FRAC_PRECISION) (mult_scaled mod SDM_FRAC_PRECISION) in
    ni2c p = u8 (u32 (mult_int - 13) / 4) /\ si2c p = u8 (u32 (mult_int - 13) mod 4) /\
    pw_sdm p = (if mult_frac =? 0 then 1 else 0) /\ sdm p = u16 mult_frac.
Proof.
  unfold tuner_compute_pll_parameters. cbv [TUNER_PARAMS TUNER_BOUNDARY_SPUR_PREVENTION].
  cbv beta iota zeta.
  destruct (sel_div_loop 7 0 (frequency * 2)%float) as [sd vco].
  destruct (sd >? MAX_SEL_DIV); [discriminate|].
  destruct (tuner_pll_multiplier 1 vco xtal_frequency <? MIN_MULTIPLIER)%float; [discriminate|].
  destruct (MAX_MULTIPLIER <=? tuner_pll_multiplier 1 vco xtal_frequency)%float; [discriminate|].
  set (ms := tuner_mult_scaled (tuner_pll_multiplier 1 vco xtal_frequency)).
  intros H. exists ms. split.
  - unfold ms, tuner_mult_scaled, u32. apply Z.mod_pos_bound. lia.
  - destruct (boundary_spur_prevention (ms / SDM_FRAC_PRECISION) (ms mod SDM_FRAC_PRECISION))
      as [mi mf]. injection H as <-. cbn [ni2c si2c pw_sdm sdm]. auto.
Qed.

(** C6: with SDM precision 65536 and margin delta = 65536/128 = 512, the
    boundary-spur prevention of [tuner_compute_pll_parameters] maps the
    quantized pair (M_int, M_frac) as follows: M_frac < delta gives
    (M_int, 0); M_frac > 65536 - delta gives (M_int + 1, 0);
    32768 - delta/2 < M_frac < 32768 gives (M_int, 32768 - delta/2);
    32768 < M_frac < 32768 + delta/2 gives (M_int, 32768 + delta/2); every
    other pair is unchanged. [tuner_compute_pll_parameters] encodes the pair
    this step returns for the integer and fractional parts of the scaled
    multiplier. *)
Theorem boundary_spur_prevention_spec : forall mult_int mult_frac,
  0 <= mult_int < 2 ^ 32 - 1 -> 0 <= mult_frac < SDM_FRAC_PRECISION ->
  let delta := SDM_FRAC_PRECISION / 128 in
  delta = 512 /\
  (mult_frac < delta ->
     boundary_spur_prevention mult_int mult_frac = (mult_int, 0)) /\
  (delta <= mult_frac -> SDM_FRAC_PRECISION - delta < mult_frac ->
     boundary_spur_prevention mult_int mult_frac = (mult_int + 1, 0)) /\
  (delta <= mult_frac <= SDM_FRAC_PRECISION - delta -> 32768 - delta / 2 < mult_frac < 32768 ->
     boundary_spur_prevention mult_int mult_frac = (mult_int, 32768 - delta / 2)) /\
  (delta <= mult_frac <= SDM_FRAC_PRECISION - delta -> 32768 < mult_frac < 32768 + delta / 2 ->
     boundary_spur_prevention mult_int mult_frac = (mult_int, 32768 + delta / 2)) /\
  (delta <= mult_frac <= SDM_FRAC_PRECISION - delta ->
     ~ (32768 - delta / 2 < mult_frac < 32768) -> ~ (32768 < mult_frac < 32768 + delta / 2) ->
     boundary_spur_prevention mult_int mult_frac = (mult_int, mult_frac)) /\
  (forall xtal_frequency frequency p,
     tuner_compute_pll_parameters xtal_frequency frequency = Some p ->
     exists mult_scaled, 0 <= mult_scaled < 2 ^ 32 /\
       let '(mi, mf) :=
         boundary_spur_prevention (mult_scaled / SDM_FRAC_PRECISION) (mult_scaled mod SDM_FRAC_PRECISION) in
       ni2c p = u8 (u32 (mi - 13) / 4) /\ si2c p = u8 (u32 (mi - 13) mod 4) /\
       pw_sdm p = (if mf =? 0 then 1 else 0) /\ sdm p = u16 mf).
Proof.
  intros mi mf Hi Hf. cbv zeta.
  split; [reflexivity|].
  split; [|split; [|split; [|split; [|split; [|exact compute_pll_uses_spur_prevention]]]]].
  all: assert (Hinc : u32 (mi + 1) = mi + 1) by (unfold u32; apply Z.mod_small; lia).
  all: unfold boundary_spur_prevention, SDM_FRAC_PRECISION in *; cbv zeta; rewrite !Z.gtb_ltb.
  all: change (65536 / 128) with 512 in *; change (65536 / 2) with 32768 in *;
       change (512 / 2) with 256 in *.
  all: intros; zbool.
  all: rewrite Hinc; reflexivity.
Qed.

Lemma boundary_spur_prevention_spec_witness :
  boundary_spur_prevention 26 32700 = (26, 32512) /\
  boundary_spur_prevention 26 65100 = (27, 0).
Proof.
  destruct (boundary_spur_prevention_spec 26 32700) as (_ & _ & _ & H4 & _);
    [vm_compute; split; congruence | vm_compute; split; congruence |].
  destruct (boundary_spur_prevention_spec 26 65100) as (_ & _ & H3 & _);
    [vm_compute; split; congruence | vm_compute; split; congruence |].
  split.
  - apply H4; vm_compute; split; congruence.
  - apply H3; vm_compute; congruence.
Defined.


(** ** Tuner: frames of the operations *)

Lemma frame_ret {A} P (a : A) : frame P (ret a).
Proof.
  intros w b w' H. injection H as <- <-. repeat split; auto.
  exists []. split; [rewrite app_nil_r; reflexivity | constructor].
Qed.

Lemma frame_bind {A B} P (m : M A) (k : A -> M B) :
  frame P m -> (forall a, frame P (k a)) -> frame P (bind m k).
Proof.
  intros Hm Hk w b w'' H. apply bind_inv in H as (a & w' & E1 & E2).
  destruct (Hm _ _ _ E1) as (X1 & I1 & L1 & B1 & n1 & G1 & F1).
  destruct (Hk a _ _ _ E2) as (X2 & I2 & L2 & B2 & n2 & G2 & F2).
  repeat split; try congruence. exists (n1 ++ n2).
  split; [rewrite G2, G1, app_assoc; reflexivity | apply Forall_app; auto].
Qed.

Lemma frame_get_tuner P : frame P get_tuner.
Proof.
  intros w a w' H. injection H as <- <-. repeat split; auto.
  exists []. split; [rewrite app_nil_r; reflexivity | constructor].
Qed.

Lemma frame_set_value P f v : frame P (set_value f v).
Proof.
  intros w a w' H. cbv [set_value bind get_tuner put_tuner] in H. injection H as <- <-.
  cbn [w_tuner w_log w_bus]. rewrite tuner_set_value_registers, length_reg_set.
  repeat split; auto. exists []. split; [rewrite app_nil_r; reflexivity | constructor].
Qed.

Lemma frame_write_value (P : xfer -> Prop) f v :
  (forall x, x_write x = true -> P x) -> frame P (tuner_write_value f v).
Proof.
  intros HP w a w' H.
  cbv [tuner_write_value bind assert get_tuner put_tuner ret usb_device_i2c_write
       with_dirty_mask] in H.
  repeat match type of H with context [if ?b then _ else _] =>
    let E := fresh "E" in destruct b eqn:E; cbv beta iota zeta in H; try discriminate end.
  all: injection H as <- <-; cbn [w_tuner w_log w_bus xtal_frequency if_frequency registers].
  all: rewrite ?length_reg_set.
  all: repeat split; auto; eexists; split; [reflexivity | repeat constructor; apply HP; reflexivity].
Qed.

Lemma frame_read_value (P : xfer -> Prop) f :
  (forall x, x_write x = false -> x_from x = 0 -> length (x_data x) = Z.to_nat (f_reg f + 1) -> P x) ->
  frame P (tuner_read_value f).
Proof.
  intros HP w a w' H.
  cbv [tuner_read_value bind usb_device_i2c_read get_tuner put_tuner ret
       with_dirty_mask with_registers] in H.
  repeat match type of H with context [if ?b then _ else _] =>
    let E := fresh "E" in destruct b eqn:E; cbv beta iota zeta in H; try discriminate end.
  all: injection H as <- <-; cbn [w_tuner w_log w_bus xtal_frequency if_frequency registers].
  all: rewrite ?bitrev_range_length, ?length_store.
  all: repeat split; auto; eexists; split; [reflexivity|].
  all: repeat constructor; apply HP; cbn [x_write x_from x_data];
       [reflexivity | reflexivity | rewrite length_map, length_zseq; reflexivity].
Qed.

Lemma frame_write_registers (P : xfer -> Prop) m :
  (forall x, x_write x = true -> P x) -> frame P (tuner_write_registers m).
Proof.
  intros HP w a w'. unfold tuner_write_registers. cbv zeta. intros H.
  apply bind_inv in H as (r0 & w1 & E1 & H).
  apply write_registers_loop_0 in E1 as (Ht & Hb & new & Hlog & Hw & _).
  assert (Hnew : Forall P new) by exact (Forall_impl _ HP Hw).
  destruct (r0 <? 0).
  - injection H as <- <-. rewrite Ht. repeat split; auto. exists new. split; auto.
  - rewrite bind_get_tuner, bind_put_tuner in H. injection H as <- <-.
    cbn [w_tuner w_log w_bus with_dirty_mask xtal_frequency if_frequency registers].
    rewrite Ht. repeat split; auto. exists new. split; auto.
Qed.

Lemma frame_flush_dirty (P : xfer -> Prop) :
  (forall x, x_write x = true -> P x) -> frame P flush_dirty.
Proof.
  intros HP. unfold flush_dirty. apply frame_bind; [apply frame_get_tuner|].
  intros this. apply frame_write_registers. exact HP.
Qed.

Ltac frame_tac :=
  repeat match goal with
  | |- frame _ (bind _ _) => apply frame_bind; [|intros ?]
  | |- frame _ (ret _) => apply frame_ret
  | |- frame _ get_tuner => apply frame_get_tuner
  | |- frame _ (set_value _ _) => apply frame_set_value
  | |- frame _ (tuner_write_value _ _) => apply frame_write_value; auto
  | |- frame _ (tuner_write_registers _) => apply frame_write_registers; auto
  | |- frame _ flush_dirty => apply frame_flush_dirty; auto
  | |- frame _ (tuner_read_value _) => apply frame_read_value; intros ? ? ? ?; auto
  | |- frame _ (if ?b then _ else _) => destruct b
  | |- frame _ (match ?x with _ => _ end) => destruct x
  end.

Lemma frame_set_pll (P : xfer -> Prop) f :
  (forall x, x_write x = true -> P x) ->
  (forall x, x_write x = false -> x_from x = 0 -> length (x_data x) = 3%nat -> P x) ->
  frame P (tuner_set_pll f).
Proof. intros HW HR. unfold tuner_set_pll, tuner_apply_pll_parameters. frame_tac. Qed.

Lemma frame_set_mux (P : xfer -> Prop) f :
  (forall x, x_write x = true -> P x) -> frame P (tuner_set_mux f).
Proof. intros HW. unfold tuner_set_mux, tuner_apply_mux_parameters. cbv zeta. frame_tac. Qed.


(** ** Tuner: fields of the shadow across operations *)

Lemma field_byte_other r f v mg : 0 <= f_shift f -> 0 <= mg < 256 ->
  Z.land (f_mask f) mg = 0 ->
  Z.land (Z.shiftl (u8 v) (f_shift f)) (Z.lnot (f_mask f)) = 0 ->
  Z.land (field_byte r f v) mg = Z.land r mg.
Proof.
  intros Hs Hmg Hd Hfit. apply Z.bits_inj'. intros n Hn.
  pose proof (f_equal (fun x => Z.testbit x n) Hd) as Hd'.
  pose proof (f_equal (fun x => Z.testbit x n) Hfit) as Hf'.
  cbv beta in Hd', Hf'. rewrite Z.land_spec, Z.bits_0 in Hd'.
  rewrite Z.land_spec, Z.lnot_spec, Z.bits_0 in Hf' by lia.
  unfold field_byte. rewrite !Z.land_spec. destruct (Z.ltb_spec n 8).
  - rewrite u8_bits_low by lia. rewrite Z.lor_spec, u8_bits_low by lia.
    rewrite Z.land_spec, Z.lnot_spec by lia.
    destruct (Z.testbit (f_mask f) n), (Z.testbit mg n),
      (Z.testbit (Z.shiftl (u8 v) (f_shift f)) n), (Z.testbit r n); cbn in *;
      try reflexivity; congruence.
  - rewrite u8_bits_high by lia. rewrite (byte_bits_high mg) by lia.
    rewrite !andb_false_r. reflexivity.
Qed.

Lemma set_value_get_other t f g v :
  0 <= f_reg f < 32 -> 0 <= f_shift f -> 0 <= f_reg g -> 0 <= f_mask g < 256 ->
  field_disjoint f g = true -> field_fits f v = true -> length (registers t) = 32%nat ->
  tuner_get_value (tuner_set_value t f v) g = tuner_get_value t g.
Proof.
  intros Hr Hs Hrg Hmg Hd Hfit Hl. unfold field_fits in Hfit. apply Z.eqb_eq in Hfit.
  unfold tuner_get_value. rewrite tuner_set_value_registers.
  unfold field_disjoint in Hd. destruct (Z.eqb_spec (f_reg f) (f_reg g)) as [E|E].
  - cbn in Hd. apply Z.eqb_eq in Hd. rewrite <- E.
    rewrite reg_get_set_same by lia. rewrite field_byte_other; auto.
  - rewrite reg_get_set_other by lia. reflexivity.
Qed.

Lemma set_value_get_same t f v :
  0 <= f_reg f < 32 -> 0 <= f_mask f < 256 -> 0 <= f_shift f -> length (registers t) = 32%nat ->
  tuner_get_value (tuner_set_value t f v) f = field_value f v.
Proof.
  intros Hr Hm Hs Hl. unfold tuner_get_value. rewrite tuner_set_value_registers.
  rewrite reg_get_set_same by lia. apply field_byte_get; auto.
Qed.

Lemma fields_hold_same_regs fvs t t' :
  registers t' = registers t -> fields_hold fvs t -> fields_hold fvs t'.
Proof.
  intros E [L F]. split; [rewrite E; exact L|].
  eapply Forall_impl; [|exact F]. intros fv. unfold tuner_get_value. rewrite E. auto.
Qed.

Lemma fields_hold_set_value fvs t f v :
  0 <= f_reg f < 32 -> 0 <= f_shift f ->
  Forall (fun fv => 0 <= f_reg (fst fv) /\ 0 <= f_mask (fst fv) < 256 /\
                    field_disjoint f (fst fv) = true) fvs ->
  field_fits f v = true ->
  fields_hold fvs t -> fields_hold fvs (tuner_set_value t f v).
Proof.
  intros Hr Hs Hd Hfit [L F]. split.
  - rewrite tuner_set_value_registers, length_reg_set. exact L.
  - rewrite Forall_forall in *. intros fv Hin. destruct (Hd fv Hin) as (H1 & H2 & H3).
    rewrite set_value_get_other; auto.
Qed.

Lemma preserves_ret {A} Q (a : A) : preserves Q (ret a).
Proof. intros w b w' H HQ. injection H as <- <-. exact HQ. Qed.

Lemma preserves_bind {A B} Q (m : M A) (k : A -> M B) :
  preserves Q m -> (forall a, preserves Q (k a)) -> preserves Q (bind m k).
Proof.
  intros Hm Hk w b w'' H HQ. apply bind_inv in H as (a & w' & E1 & E2).
  exact (Hk a _ _ _ E2 (Hm _ _ _ E1 HQ)).
Qed.

Lemma preserves_write_value fvs f v :
  0 <= f_reg f < 32 -> 0 <= f_shift f ->
  Forall (fun fv => 0 <= f_reg (fst fv) /\ 0 <= f_mask (fst fv) < 256 /\
                    field_disjoint f (fst fv) = true) fvs ->
  preserves (fields_hold fvs) (tuner_write_value f v).
Proof.
  intros Hr Hs Hd w a w' H HQ.
  cbv [tuner_write_value bind assert get_tuner put_tuner ret usb_device_i2c_write
       with_dirty_mask] in H.
  repeat match type of H with context [if ?b then _ else _] =>
    let E := fresh "E" in destruct b eqn:E; cbv beta iota zeta in H; try discriminate end.
  all: injection H as <- <-; cbn [w_tuner].
  all: apply fields_hold_same_regs with (t := tuner_set_value (w_tuner w) f v); [reflexivity|].
  all: apply fields_hold_set_value; auto.
Qed.

Lemma preserves_flush_dirty fvs : preserves (fields_hold fvs) flush_dirty.
Proof.
  intros w a w'. unfold flush_dirty, tuner_write_registers. cbv zeta. intros H HQ.
  rewrite bind_get_tuner in H. cbv beta in H.
  apply bind_inv in H as (r0 & w1 & E1 & H).
  apply write_registers_loop_0 in E1 as (Ht & _).
  destruct (r0 <? 0).
  - injection H as <- <-. rewrite Ht. exact HQ.
  - rewrite bind_get_tuner, bind_put_tuner in H. injection H as <- <-.
    cbn [w_tuner]. apply fields_hold_same_regs with (t := w_tuner w); [|exact HQ].
    rewrite Ht. reflexivity.
Qed.

Lemma preserves_read_value fvs f :
  0 <= f_reg f -> f_reg f + 1 <= 32 ->
  Forall (fun fv => f_reg f < f_reg (fst fv)) fvs ->
  preserves (fields_hold fvs) (tuner_read_value f).
Proof.
  intros Hr Hr' Hd w a w' H [L F].
  cbv [tuner_read_value bind usb_device_i2c_read get_tuner put_tuner ret
       with_dirty_mask with_registers] in H.
  repeat match type of H with context [if ?b then _ else _] =>
    let E := fresh "E" in destruct b eqn:E; cbv beta iota zeta in H; try discriminate end.
  all: injection H as <- <-; cbn [w_tuner registers].
  { split; auto. }
  unfold fields_hold, tuner_get_value in *. cbn [registers].
  split; [rewrite bitrev_range_length, length_store; exact L|].
  rewrite Forall_forall in *. intros fv Hin. rewrite <- (F fv Hin).
  specialize (Hd fv Hin).
  rewrite bitrev_range_get by (rewrite ?length_store; lia).
  destruct ((0 <=? f_reg (fst fv)) && (f_reg (fst fv) <? f_reg f + 1)) eqn:E2.
  { apply andb_true_iff in E2 as [_ E2]. apply Z.ltb_lt in E2. lia. }
  rewrite store_outside; auto; try lia.
  right. rewrite length_map, length_zseq. lia.
Qed.

Lemma hoare_ret {A} (P : tuner -> Prop) (Post : A -> tuner -> Prop) a :
  (forall t, P t -> Post a t) -> hoare P (ret a) Post.
Proof. intros HP w b w' H HQ. injection H as <- <-. auto. Qed.

Lemma hoare_bind_preserves {A B} Q (m : M A) (k : A -> M B) Post :
  preserves Q m -> (forall a, hoare Q (k a) Post) -> hoare Q (bind m k) Post.
Proof.
  intros Hm Hk w b w'' H HQ. apply bind_inv in H as (a & w' & E1 & E2).
  exact (Hk a _ _ _ E2 (Hm _ _ _ E1 HQ)).
Qed.

Lemma hoare_bind_set_value {B} fvs f v (k : unit -> M B) Post :
  0 <= f_reg f < 32 -> 0 <= f_mask f < 256 -> 0 <= f_shift f ->
  Forall (fun fv => 0 <= f_reg (fst fv) /\ 0 <= f_mask (fst fv) < 256 /\
                    field_disjoint f (fst fv) = true) fvs ->
  field_fits f v = true ->
  (forall a, hoare (fields_hold (fvs ++ [(f, field_value f v)])) (k a) Post) ->
  hoare (fields_hold fvs) (bind (set_value f v) k) Post.
Proof.
  intros Hr Hm Hs Hd Hfit Hk w b w'' H HQ. apply bind_inv in H as (a & w' & E1 & E2).
  cbv [set_value bind get_tuner put_tuner] in E1. injection E1 as <- <-.
  eapply Hk; [exact E2|]. cbn [w_tuner].
  pose proof (fields_hold_set_value fvs (w_tuner w) f v Hr Hs Hd Hfit HQ) as [L F].
  split; [exact L|]. apply Forall_app. split; [exact F|].
  constructor; [|constructor]. cbn [fst snd].
  apply set_value_get_same; auto. destruct HQ; auto.
Qed.

Ltac field_side :=
  repeat (apply Forall_cons || apply Forall_nil || split);
  cbn; try reflexivity; try lia.

Ltac preserves_tac :=
  repeat match goal with
  | |- preserves _ (bind _ _) => apply preserves_bind; [|intros ?]
  | |- preserves _ (ret _) => apply preserves_ret
  | |- preserves _ (if ?b then _ else _) => destruct b
  | |- preserves _ (match ?x with _ => _ end) => destruct x
  | |- preserves (fields_hold _) (tuner_write_value _ _) =>
      apply preserves_write_value; field_side
  | |- preserves (fields_hold _) (tuner_read_value _) =>
      apply preserves_read_value; field_side
  | |- preserves (fields_hold _) flush_dirty => apply preserves_flush_dirty
  end.

Ltac hoare_tac :=
  repeat match goal with
  | |- hoare _ (bind (set_value _ _) _) _ =>
      apply hoare_bind_set_value; [field_side | field_side | field_side | field_side
                                  | assumption || reflexivity | intros ?]
  | |- hoare _ (bind _ _) _ => apply hoare_bind_preserves; [preserves_tac | intros ?]
  | |- hoare _ (if ?b then _ else _) _ => destruct b
  | |- hoare _ (match ?x with _ => _ end) _ => destruct x
  | |- hoare _ (ret _) _ => apply hoare_ret
  end.

Lemma apply_pll_programs p :
  pll_fits p = true ->
  hoare (fields_hold []) (tuner_apply_pll_parameters p)
        (fun r t => 0 <= r -> fields_hold (stored_fields (pll_fields p)) t).
Proof.
  intros Hfit. unfold pll_fits, pll_fields in Hfit. cbn [forallb fst snd] in Hfit.
  rewrite !andb_true_iff in Hfit. destruct Hfit as (F1 & F2 & F3 & F4 & F5 & F6 & F7 & _).
  unfold tuner_apply_pll_parameters. hoare_tac.
  all: intros t Ht Hr; try lia; exact Ht.
Qed.

Lemma set_pll_programs fr p :
  pll_fits p = true ->
  hoare (fun t => tuner_compute_pll_parameters (xtal_frequency t) fr = Some p /\ fields_hold [] t)
        (tuner_set_pll fr)
        (fun r t => 0 <= r -> fields_hold (stored_fields (pll_fields p)) t).
Proof.
  intros Hfit w a w'. unfold tuner_set_pll. intros H [Hc Hf].
  rewrite bind_get_tuner in H. cbv beta in H. rewrite Hc in H.
  apply bind_inv in H as (r & w1 & E1 & H).
  destruct (Z.ltb_spec r 0) as [Hn|Hn].
  - injection H as <- <-. lia.
  - injection H as <- <-. intros _. exact (apply_pll_programs p Hfit _ _ _ E1 Hf Hn).
Qed.

Lemma set_frequency_programs fr p w r w' :
  pll_fits p = true ->
  length (registers (w_tuner w)) = 32%nat ->
  tuner_compute_pll_parameters (xtal_frequency (w_tuner w))
    (fr + float_of_Z (if_frequency (w_tuner w)))%float = Some p ->
  tuner_set_frequency fr w = Some (r, w') -> 0 <= r ->
  fields_hold (stored_fields (pll_fields p)) (w_tuner w').
Proof.
  intros Hfit Hl Hc. unfold tuner_set_frequency. intros H.
  apply bind_inv in H as (r1 & w1 & E1 & H).
  destruct (frame_set_mux (fun _ => True) fr (fun _ _ => I) _ _ _ E1)
    as (X1 & I1 & L1 & _).
  destruct (r1 <? 0).
  { injection H as <- <-. lia. }
  rewrite bind_get_tuner in H. cbv beta zeta in H.
  apply bind_inv in H as (r2 & w2 & E2 & H).
  destruct (Z.ltb_spec r2 0) as [Hn|Hn].
  { injection H as <- <-. lia. }
  injection H as <- <-. intros _.
  apply (set_pll_programs _ p Hfit _ _ _ E2); [|exact Hn].
  rewrite X1, I1. split; [exact Hc|]. split; [rewrite L1; exact Hl | constructor].
Qed.

Lemma compute_pll_refdiv xtal fr p :
  tuner_compute_pll_parameters xtal fr = Some p -> refdiv p = 1.
Proof.
  unfold tuner_compute_pll_parameters, TUNER_PARAMS, TUNER_BOUNDARY_SPUR_PREVENTION.
  cbv zeta iota beta.
  destruct (sel_div_loop 7 0 (fr * 2)%float) as [s vco].
  repeat match goal with
  | |- context [if ?b then _ else _] => destruct b
  | |- context [match ?x with (_, _) => _ end] => destruct x
  end.
  all: intros H; try discriminate; injection H as <-; reflexivity.
Qed.

(** Counterexample to C4: with REFDIV = 0 the multiplier is the VCO
    frequency over twice the crystal frequency, and with REFDIV = 1 (the
    BBRF103 preset) over the crystal frequency itself; for an LO of 107 MHz
    and a 32 MHz crystal the parameters are [sel_div = 4], [NI2C = 23],
    [SI2C = 2], [SDM = 0], [PW_SDM = 1], not [sel_div = 3], [NI2C = 3],
    [SI2C = 1], [SDM = 49152], [PW_SDM = 0]. *)
Lemma pll_multiplier_refdiv_counterexample :
  tuner_pll_multiplier 0 3424e6 32000000 = 53.5%float /\
  tuner_pll_multiplier 1 3424e6 32000000 = 107%float /\
  tuner_compute_pll_parameters DEFAULT_TUNER_XTAL_FREQUENCY
    (100e6 + float_of_Z DEFAULT_TUNER_IF_FREQUENCY)%float
  = Some (mk_pll 1 4 23 2 1 0).
Proof. vm_compute. repeat split. Qed.

(** C4 (amended): [tuner_compute_pll_parameters] computes the multiplier as
    [f_vco / (2 * f_xtal)] when REFDIV = 0 and [f_vco / f_xtal] when
    REFDIV = 1, and the BBRF103 preset always uses REFDIV = 1. With
    [f_if = 7 MHz] and [f_xtal = 32 MHz], [set_frequency(100 MHz)] programs
    an LO of 107 MHz: [sel_div = 4] (VCO 3.424 GHz), multiplier 107, and
    the encoding REFDIV = 1, NI2C = 23, SI2C = 2, SDM = 0, PW_SDM = 1, which
    a successful [tuner_set_frequency] leaves in the shadow registers. *)
Theorem pll_multiplier_refdiv_spec :
  (forall vco xtal, 0 <= xtal < 2 ^ 31 ->
     tuner_pll_multiplier 0 vco xtal = (vco / float_of_Z (2 * xtal))%float) /\
  (forall vco xtal, tuner_pll_multiplier 1 vco xtal = (vco / float_of_Z xtal)%float) /\
  (forall xtal fr p, tuner_compute_pll_parameters xtal fr = Some p -> refdiv p = 1) /\
  (100e6 + float_of_Z DEFAULT_TUNER_IF_FREQUENCY)%float = 107e6%float /\
  sel_div_loop 7 0 (107e6 * 2)%float = (4, 3424e6%float) /\
  tuner_pll_multiplier 1 3424e6 DEFAULT_TUNER_XTAL_FREQUENCY = 107%float /\
  tuner_compute_pll_parameters DEFAULT_TUNER_XTAL_FREQUENCY 107e6 = Some (mk_pll 1 4 23 2 1 0) /\
  (forall w r w',
     xtal_frequency (w_tuner w) = DEFAULT_TUNER_XTAL_FREQUENCY ->
     if_frequency (w_tuner w) = DEFAULT_TUNER_IF_FREQUENCY ->
     length (registers (w_tuner w)) = 32%nat ->
     tuner_set_frequency 100e6 w = Some (r, w') -> r = 0 ->
     fields_hold (pll_fields (mk_pll 1 4 23 2 1 0)) (w_tuner w')).
Proof.
  split; [|split; [|split; [|split; [|split; [|split; [|split]]]]]].
  - intros vco xtal Hx. unfold tuner_pll_multiplier, u32. cbn [Z.eqb].
    rewrite Z.mod_small by lia. reflexivity.
  - intros vco xtal. reflexivity.
  - exact compute_pll_refdiv.
  - vm_compute. reflexivity.
  - vm_compute. reflexivity.
  - vm_compute. reflexivity.
  - vm_compute. reflexivity.
  - intros w r w' Hx Hi Hl H Hr.
    change (pll_fields (mk_pll 1 4 23 2 1 0))
      with (stored_fields (pll_fields (mk_pll 1 4 23 2 1 0))).
    apply (set_frequency_programs 100e6 (mk_pll 1 4 23 2 1 0) w r w'); [| | |exact H|lia].
    + vm_compute. reflexivity.
    + exact Hl.
    + rewrite Hx, Hi. vm_compute. reflexivity.
Qed.

Lemma pll_multiplier_refdiv_spec_witness :
  tuner_pll_multiplier 0 3424e6 DEFAULT_TUNER_XTAL_FREQUENCY
    = (3424e6 / float_of_Z (2 * DEFAULT_TUNER_XTAL_FREQUENCY))%float /\
  refdiv (mk_pll 1 4 23 2 1 0) = 1 /\
  tuner_set_frequency 100e6 (shadow_demo_world 0) = Some (0, set_frequency_demo_final) /\
  fields_hold (pll_fields (mk_pll 1 4 23 2 1 0)) (w_tuner set_frequency_demo_final).
Proof.
  destruct pll_multiplier_refdiv_spec as (H1 & _ & H3 & _ & _ & _ & H7 & H8).
  split; [apply H1; unfold DEFAULT_TUNER_XTAL_FREQUENCY; lia|].
  split; [apply (H3 DEFAULT_TUNER_XTAL_FREQUENCY 107e6%float); exact H7|].
  assert (E : tuner_set_frequency 100e6 (shadow_demo_world 0) = Some (0, set_frequency_demo_final))
    by (vm_compute; reflexivity).
  split; [exact E|].
  apply (H8 (shadow_demo_world 0) 0); [reflexivity | reflexivity | reflexivity | exact E | reflexivity].
Defined.

(** ** Tuner: calibration *)

Lemma cal_read_write x : x_write x = true -> cal_read x = [].
Proof. intros H. unfold cal_read. rewrite H. reflexivity. Qed.

Lemma cal_read_short x :
  x_write x = false -> x_from x = 0 -> length (x_data x) = 3%nat -> cal_read x = [].
Proof. intros H1 H2 H3. unfold cal_read. rewrite H1, H2, H3. reflexivity. Qed.

Lemma cal_codes_app a b : cal_codes (a ++ b) = cal_codes a ++ cal_codes b.
Proof. unfold cal_codes. apply flat_map_app. Qed.

Lemma cal_codes_quiet new : Forall (fun x => cal_read x = []) new -> cal_codes new = [].
Proof.
  induction 1 as [|x l Hx _ IH]; [reflexivity|].
  unfold cal_codes in *. cbn [flat_map]. rewrite Hx, IH. reflexivity.
Qed.

Lemma log_spec_ret {A} (Q : A -> list xfer -> Prop) a : Q a [] -> log_spec (ret a) Q.
Proof.
  intros HQ w b w' Hl H. injection H as <- <-. split; [exact Hl|].
  exists []. split; [rewrite app_nil_r; reflexivity | exact HQ].
Qed.

Lemma log_spec_bind_quiet {A} (m : M A) (k : A -> M (Z + Z)) :
  frame (fun x => cal_read x = []) m ->
  (forall a, log_spec (k a) attempt_post) ->
  log_spec (bind m k) attempt_post.
Proof.
  intros Hm Hk w b w'' Hl H. apply bind_inv in H as (a & w' & E1 & E2).
  destruct (Hm _ _ _ E1) as (_ & _ & L1 & _ & n1 & G1 & F1).
  destruct (Hk a w' b w'' ltac:(rewrite L1; exact Hl) E2) as (L2 & n2 & G2 & Q2).
  split; [exact L2|]. exists (n1 ++ n2).
  split; [rewrite G2, G1, app_assoc; reflexivity|].
  unfold attempt_post in *. rewrite cal_codes_app, (cal_codes_quiet n1 F1). exact Q2.
Qed.

Lemma read_cal_code_spec w a w' :
  length (registers (w_tuner w)) = 32%nat ->
  tuner_read_value R820T2_FIL_CAL_CODE w = Some (a, w') ->
  length (registers (w_tuner w')) = 32%nat /\
  exists x, w_log w' = w_log w ++ [x] /\
    (if fst a <? 0 then fst a = -1 /\ cal_read x = [] else cal_read x = [snd a]).
Proof.
  intros Hl H.
  cbv [tuner_read_value bind usb_device_i2c_read get_tuner put_tuner ret
       with_dirty_mask with_registers] in H.
  destruct (bus_ret (w_bus w) (length (w_log w)) <? 0) eqn:E;
    cbv beta iota zeta in H; injection H as <- <-; cbn [w_tuner w_log registers fst snd].
  - split; [exact Hl|]. eexists; split; [reflexivity|]. split; [reflexivity|].
    apply Z.ltb_lt in E. unfold cal_read. cbn [x_ret].
    replace (0 <=? bus_ret (w_bus w) (length (w_log w))) with false
      by (symmetry; apply Z.leb_gt; lia).
    rewrite andb_false_r. reflexivity.
  - split; [rewrite bitrev_range_length, !length_reg_set; exact Hl|].
    eexists; split; [reflexivity|]. cbn [Z.ltb Z.compare].
    apply Z.ltb_ge in E. unfold cal_read.
    cbn [x_write x_from x_data x_ret length negb andb Nat.eqb Z.eqb].
    replace (0 <=? bus_ret (w_bus w) (length (w_log w))) with true
      by (symmetry; apply Z.leb_le; lia).
    rewrite bitrev_range_get by (rewrite ?length_reg_set; lia).
    rewrite reg_get_set_same by (rewrite ?length_reg_set; lia).
    rewrite Z.shiftr_0_r. reflexivity.
Qed.

Lemma calibrate_attempt_spec : log_spec tuner_calibrate_attempt attempt_post.
Proof.
  unfold tuner_calibrate_attempt.
  repeat match goal with
  | |- log_spec (bind ?m _) _ =>
      lazymatch m with
      | tuner_read_value _ => fail
      | _ => apply log_spec_bind_quiet; [|intros ?]
      end
  | |- frame _ (tuner_write_value _ _) => apply frame_write_value; exact cal_read_write
  | |- frame _ (tuner_set_pll _) =>
      apply frame_set_pll; [exact cal_read_write | exact cal_read_short]
  | |- log_spec (if ?b then _ else _) _ => destruct b
  | |- log_spec (ret _) _ => apply log_spec_ret; split; reflexivity
  end.
  intros w0 res w0' Hl H. apply bind_inv in H as ([r c] & w1 & E1 & H).
  destruct (read_cal_code_spec w0 (r, c) w1 Hl E1) as (L1 & x & G & Hx).
  cbn [fst snd] in Hx. cbv beta iota in H.
  destruct (r <? 0); injection H as <- <-; (split; [exact L1|]); exists [x];
    (split; [exact G|]); unfold attempt_post, cal_codes; cbn [flat_map];
    rewrite app_nil_r; tauto.
Qed.

Lemma last_in {A} (l : list A) d : l <> [] -> In (last l d) l.
Proof.
  induction l as [|a l IH]; intros H; [congruence|].
  destruct l as [|b l]; [left; reflexivity|]. right. apply IH. discriminate.
Qed.

Lemma removelast_cons_cons {A} (a b : A) l : removelast (a :: b :: l) = a :: removelast (b :: l).
Proof. reflexivity. Qed.

Lemma calibrate_loop_spec n :
  log_spec (calibrate_loop n)
    (fun r new =>
       (length (cal_codes new) <= n)%nat /\
       Forall (fun c => c = 0 \/ c = 0x0f) (removelast (cal_codes new)) /\
       (r = 0 <-> cal_codes new <> [] /\ last (cal_codes new) 0 <> 0 /\
                  last (cal_codes new) 0 <> 0x0f) /\
       (r = 0 \/ r = -1)).
Proof.
  induction n as [|n IH]; intros w r w' Hl H.
  - injection H as <- <-. split; [exact Hl|]. exists [].
    split; [rewrite app_nil_r; reflexivity|]. cbn. intuition (try congruence; try lia; try constructor).
  - cbn [calibrate_loop] in H. apply bind_inv in H as (o & w1 & E1 & H).
    destruct (calibrate_attempt_spec w o w1 Hl E1) as (L1 & n1 & G1 & Q1).
    destruct o as [r1 | c].
    + destruct Q1 as [-> C1]. injection H as <- <-. split; [exact L1|].
      exists n1. rewrite C1. split; [exact G1|]. cbn. intuition (try congruence; try lia; try constructor).
    + unfold attempt_post in Q1.
      destruct (negb (c =? 0) && negb (c =? 0x0f)) eqn:Hc.
      * injection H as <- <-. split; [exact L1|]. exists n1. rewrite Q1.
        split; [exact G1|]. apply andb_true_iff in Hc as [H1 H2].
        apply negb_true_iff, Z.eqb_neq in H1. apply negb_true_iff, Z.eqb_neq in H2.
        cbn. intuition (try congruence; try lia; try constructor).
      * destruct (IH w1 r w' L1 H) as (L2 & n2 & G2 & Hlen & Hbad & Hiff & Hr).
        split; [exact L2|]. exists (n1 ++ n2).
        split; [rewrite G2, G1, app_assoc; reflexivity|].
        rewrite cal_codes_app, Q1. cbn [app length].
        assert (Hcb : c = 0 \/ c = 0x0f).
        { apply andb_false_iff in Hc as [Hc|Hc]; apply negb_false_iff, Z.eqb_eq in Hc; auto. }
        destruct (cal_codes n2) as [|c2 cs2] eqn:Ecs.
        -- cbn. split; [lia|]. split; [constructor|]. split; [|exact Hr].
           split; [intros Hr0; apply Hiff in Hr0 as [Hne _]; congruence|].
           intros (_ & H1 & H2). destruct Hcb; congruence.
        -- rewrite removelast_cons_cons.
           split; [lia|]. split; [constructor; [exact Hcb | exact Hbad]|].
           split; [|exact Hr]. rewrite Hiff.
           change (last (c :: c2 :: cs2) 0) with (last (c2 :: cs2) 0).
           split; intros (_ & H1 & H2); repeat split; auto; congruence.
Qed.

(** C5: [tuner_calibrate] reads at most five calibration codes (one per
    completed attempt); every code before the last one is 0 or 0x0F, so it
    stops at the first code that is neither; it returns 0 exactly when the
    last code read is neither 0 nor 0x0F, and -1 otherwise, in particular
    when five attempts all read 0 or 0x0F. *)
Theorem tuner_calibrate_spec : forall w r w',
  length (registers (w_tuner w)) = 32%nat ->
  tuner_calibrate w = Some (r, w') ->
  exists new, w_log w' = w_log w ++ new /\
    (length (cal_codes new) <= 5)%nat /\
    Forall (fun c => c = 0 \/ c = 0x0f) (removelast (cal_codes new)) /\
    (r = 0 <-> cal_codes new <> [] /\ last (cal_codes new) 0 <> 0 /\
               last (cal_codes new) 0 <> 0x0f) /\
    (r = 0 \/ r = -1) /\
    (length (cal_codes new) = 5%nat ->
     Forall (fun c => c = 0 \/ c = 0x0f) (cal_codes new) -> r = -1).
Proof.
  intros w r w' Hl H.
  destruct (calibrate_loop_spec n_calibration_attempts w r w' Hl H)
    as (_ & new & G & Hlen & Hbad & Hiff & Hr).
  exists new. do 5 (split; [assumption|]).
  intros H5 Hall. destruct Hr as [Hr|Hr]; [|exact Hr].
  apply Hiff in Hr as (Hne & H1 & H2).
  assert (Hin : In (last (cal_codes new) 0) (cal_codes new)) by (apply last_in; exact Hne).
  rewrite Forall_forall in Hall. destruct (Hall _ Hin); congruence.
Qed.

Lemma tuner_calibrate_spec_witness :
  tuner_calibrate (shadow_demo_world 0) = Some (-1, calibrate_demo_final) /\
  exists new, w_log calibrate_demo_final = w_log (shadow_demo_world 0) ++ new /\
    cal_codes new = [0; 0; 0; 0; 0] /\
    (length (cal_codes new) <= 5)%nat /\
    (-1 = 0 \/ -1 = -1).
Proof.
  assert (E : tuner_calibrate (shadow_demo_world 0) = Some (-1, calibrate_demo_final))
    by (vm_compute; reflexivity).
  split; [exact E|].
  destruct (tuner_calibrate_spec (shadow_demo_world 0) (-1) calibrate_demo_final
              eq_refl E) as (new & G & Hlen & _ & _ & Hr & _).
  exists new. split; [exact G|]. split; [|split; [exact Hlen | exact Hr]].
  unfold shadow_demo_world in G. cbn [w_log app] in G. rewrite <- G.
  vm_compute. reflexivity.
Defined.

(** ** Tuner: the assertions of [tuner_write_value] *)

Lemma safe_ret {A} (a : A) : safe (ret a).
Proof. intros w. discriminate. Qed.

Lemma safe_bind {A B} (m : M A) (k : A -> M B) :
  safe m -> (forall a, safe (k a)) -> safe (bind m k).
Proof.
  intros Hm Hk w. unfold bind. destruct (m w) as [[a w']|] eqn:E.
  - apply Hk.
  - intros _. exact (Hm w E).
Qed.

Lemma safe_get_tuner : safe get_tuner.
Proof. intros w. discriminate. Qed.

Lemma safe_put_tuner t : safe (put_tuner t).
Proof. intros w. discriminate. Qed.

Lemma safe_i2c_write from len : safe (usb_device_i2c_write from len).
Proof. intros w. discriminate. Qed.

Lemma safe_i2c_read from len : safe (usb_device_i2c_read from len).
Proof. intros w. discriminate. Qed.

Lemma safe_set_value f v : safe (set_value f v).
Proof. intros w. discriminate. Qed.

Lemma safe_assert_true b : b = true -> safe (assert b).
Proof. intros -> w. discriminate. Qed.

Lemma safe_write_value f v :
  field_fits f v = true -> (Z.shiftl 1 (f_shift f) <=? f_mask f) = true ->
  safe (tuner_write_value f v).
Proof.
  intros H1 H2. unfold tuner_write_value. cbv zeta.
  apply safe_bind; [apply safe_assert_true; exact H1|]. intros _.
  apply safe_bind; [apply safe_assert_true; exact H2|]. intros _.
  apply safe_bind; [apply safe_get_tuner|]. intros this.
  apply safe_bind; [apply safe_put_tuner|]. intros _.
  apply safe_bind; [apply safe_i2c_write|]. intros r.
  destruct (r <? 0); [apply safe_ret|].
  apply safe_bind; [apply safe_get_tuner|]. intros this'.
  apply safe_bind; [apply safe_put_tuner|]. intros _. apply safe_ret.
Qed.

Ltac safe_tac :=
  repeat match goal with
  | |- safe (bind _ _) => apply safe_bind; [|intros ?]
  | |- safe (ret _) => apply safe_ret
  | |- safe get_tuner => apply safe_get_tuner
  | |- safe (put_tuner _) => apply safe_put_tuner
  | |- safe (usb_device_i2c_write _ _) => apply safe_i2c_write
  | |- safe (usb_device_i2c_read _ _) => apply safe_i2c_read
  | |- safe (set_value _ _) => apply safe_set_value
  | |- safe (if ?b then _ else _) => destruct b
  | |- safe (match ?x with _ => _ end) => destruct x
  end.

Lemma safe_write_registers m : safe (tuner_write_registers m).
Proof.
  unfold tuner_write_registers. cbv zeta.
  apply safe_bind; [|intros ?; safe_tac].
  generalize (Z.to_nat R820T2_REGISTERS + 1)%nat, 0, (-1).
  intros fuel; induction fuel as [|fuel IH]; intros i from; cbn [write_registers_loop];
    safe_tac; apply IH.
Qed.

Lemma safe_read_registers m : safe (tuner_read_registers m).
Proof.
  unfold tuner_read_registers. cbv zeta.
  apply safe_bind; [|intros ?; safe_tac].
  generalize (Z.to_nat R820T2_REGISTERS + 1)%nat, 0, (-1).
  intros fuel; induction fuel as [|fuel IH]; intros i from; cbn [read_registers_loop];
    safe_tac; apply IH.
Qed.

Lemma safe_flush_dirty : safe flush_dirty.
Proof. unfold flush_dirty. safe_tac. apply safe_write_registers. Qed.

Lemma safe_read_value f : safe (tuner_read_value f).
Proof. unfold tuner_read_value. cbv zeta. safe_tac. Qed.

Ltac safe_tac' :=
  repeat (safe_tac; try match goal with
  | |- safe (tuner_write_value _ _) => apply safe_write_value; reflexivity
  | |- safe (tuner_read_value _) => apply safe_read_value
  | |- safe (tuner_write_registers _) => apply safe_write_registers
  | |- safe (tuner_read_registers _) => apply safe_read_registers
  | |- safe flush_dirty => apply safe_flush_dirty
  end).

Lemma safe_set_pll fr : safe (tuner_set_pll fr).
Proof. unfold tuner_set_pll, tuner_apply_pll_parameters. safe_tac'. Qed.

Lemma safe_set_mux fr : safe (tuner_set_mux fr).
Proof. unfold tuner_set_mux, tuner_apply_mux_parameters. cbv zeta. safe_tac'. Qed.

Lemma table_index_bound table x : 0 <= table_index table x <= Z.of_nat (length table).
Proof.
  induction table as [|t table IH]; cbn [table_index length]; [lia|].
  rewrite Nat2Z.inj_succ. destruct (x =? t); lia.
Qed.

Lemma fits_nibble f i : f_mask f = 0x0f -> f_shift f = 0 -> 0 <= i < 16 ->
  field_fits f (u8 i) = true /\ (Z.shiftl 1 (f_shift f) <=? f_mask f) = true.
Proof.
  intros Hm Hs Hi. unfold field_fits. rewrite Hm, Hs.
  assert (i = 0 \/ i = 1 \/ i = 2 \/ i = 3 \/ i = 4 \/ i = 5 \/ i = 6 \/ i = 7 \/
          i = 8 \/ i = 9 \/ i = 10 \/ i = 11 \/ i = 12 \/ i = 13 \/ i = 14 \/ i = 15)
    as Hc by lia.
  repeat destruct Hc as [-> | Hc]; subst; split; reflexivity.
Qed.

Lemma safe_gain_setting table f g :
  f_mask f = 0x0f -> f_shift f = 0 -> length table = 16%nat ->
  safe (let idx := table_index table g in
        if idx =? Z.of_nat (length table) then ret (-1) else
        let* r := tuner_write_value f (u8 idx) in
        if r <? 0 then ret (-1) else ret 0).
Proof.
  intros Hm Hs Hl. cbv zeta. pose proof (table_index_bound table g) as Hb.
  destruct (Z.eqb_spec (table_index table g) (Z.of_nat (length table))) as [_|Hne];
    [apply safe_ret|].
  rewrite Hl in Hb, Hne. cbn in Hb, Hne.
  destruct (fits_nibble f (table_index table g) Hm Hs ltac:(lia)) as [F1 F2].
  apply safe_bind; [apply safe_write_value; assumption|]. intros r. safe_tac.
Qed.

Lemma safe_calibrate n : safe (calibrate_loop n).
Proof.
  induction n as [|n IH]; cbn [calibrate_loop]; [apply safe_ret|].
  apply safe_bind; [|intros o; destruct o; safe_tac; apply IH].
  unfold tuner_calibrate_attempt. safe_tac'. all: apply safe_set_pll.
Qed.

Lemma safe_tuner_api c : safe (tuner_api c).
Proof.
  destruct c; cbn [tuner_api].
  - unfold tuner_open, tuner_init_registers. safe_tac'. apply safe_calibrate.
  - safe_tac.
  - safe_tac.
  - unfold tuner_set_frequency. cbv zeta. safe_tac'; [apply safe_set_mux | apply safe_set_pll].
  - unfold tuner_set_harmonic_frequency. cbv zeta. safe_tac';
      [apply safe_set_mux | apply safe_set_pll].
  - apply (safe_gain_setting tuner_lna_gains_table R820T2_LNA_GAIN); reflexivity.
  - unfold tuner_set_lna_agc. destruct (agc =? 0); safe_tac'.
  - apply (safe_gain_setting tuner_mixer_gains_table R820T2_MIX_GAIN); reflexivity.
  - unfold tuner_set_mixer_agc. destruct (agc =? 0); safe_tac'.
  - apply (safe_gain_setting tuner_vga_gains_table R820T2_VGA_CODE); reflexivity.
  - unfold tuner_set_if_bandwidth. cbv zeta. safe_tac'.
  - safe_tac.
  - safe_tac.
  - unfold tuner_standby. cbv zeta. safe_tac'.
Qed.

(** C10: every [tuner_write_value] reached from the public tuner operations
    passes both of its assertions, so no sequence of public operations
    ends in an assertion failure, whatever the state of the tuner and the
    answers of the device. *)
Theorem tuner_api_no_assertion_failure :
  (forall c w, tuner_api c w <> None) /\
  (forall cs w, tuner_api_run cs w <> None).
Proof.
  split; [intros c; apply safe_tuner_api|].
  intros cs. induction cs as [|c cs IH]; cbn [tuner_api_run]; [apply safe_ret|].
  apply safe_bind; [apply safe_tuner_api|]. intros r.
  apply safe_bind; [exact IH|]. intros rs. apply safe_ret.
Qed.

Lemma tuner_api_no_assertion_failure_witness :
  tuner_api_run [TunerOpen; SetLnaGain 8; SetFrequency 100e6; TunerStandby]
    (shadow_demo_world 0) <> None.
Proof.
  exact (proj2 tuner_api_no_assertion_failure
           [TunerOpen; SetLnaGain 8; SetFrequency 100e6; TunerStandby] (shadow_demo_world 0)).
Defined.

End TunerProofs.

(** ** Tuner: the public operations *)
Module TunerExtraProofs.
Import Tuner TunerProofs.

Lemma table_index_notin table x :
  ~ In x table -> table_index table x = Z.of_nat (length table).
Proof.
  induction table as [|t table IH]; intros Hn; cbn [table_index length]; [reflexivity|].
  rewrite Nat2Z.inj_succ. destruct (Z.eqb_spec x t) as [->|Hne].
  - exfalso. apply Hn. left. reflexivity.
  - rewrite IH; [lia|]. intros Hi. apply Hn. right. exact Hi.
Qed.

(** X1: A gain that is not an entry of its table is rejected:
    [tuner_set_lna_gain], [tuner_set_mixer_gain] and [tuner_set_vga_gain]
    return -1 and leave the tuner, the device and the log untouched. *)
Theorem gain_setters_reject_unknown g w :
  (~ In g tuner_lna_gains_table -> tuner_set_lna_gain g w = Some (-1, w)) /\
  (~ In g tuner_mixer_gains_table -> tuner_set_mixer_gain g w = Some (-1, w)) /\
  (~ In g tuner_vga_gains_table -> tuner_set_vga_gain g w = Some (-1, w)).
Proof.
  unfold tuner_set_lna_gain, tuner_set_mixer_gain, tuner_set_vga_gain.
  repeat split; intros Hn; rewrite table_index_notin by exact Hn; rewrite Z.eqb_refl; reflexivity.
Qed.

Lemma gain_setters_reject_unknown_witness :
  tuner_set_lna_gain 7 (shadow_demo_world 0) = Some (-1, shadow_demo_world 0) /\
  tuner_set_mixer_gain 16 (shadow_demo_world 0) = Some (-1, shadow_demo_world 0) /\
  tuner_set_vga_gain (-1) (shadow_demo_world 0) = Some (-1, shadow_demo_world 0).
Proof.
  split; [|split].
  - apply (proj1 (gain_setters_reject_unknown 7 (shadow_demo_world 0))).
    cbn. intuition lia.
  - apply (proj1 (proj2 (gain_setters_reject_unknown 16 (shadow_demo_world 0)))).
    cbn. intuition lia.
  - apply (proj2 (proj2 (gain_setters_reject_unknown (-1) (shadow_demo_world 0)))).
    cbn. intuition lia.
Defined.

(** X2: A bandwidth that is not in the IF bandwidth table is
    rejected: [tuner_set_if_bandwidth] returns -1 and changes nothing. *)
Theorem if_bandwidth_reject_unknown bw w :
  ~ In bw (map (fun e => fst (fst e)) tuner_if_bandwidth_table) ->
  tuner_set_if_bandwidth bw w = Some (-1, w).
Proof.
  intros Hn. unfold tuner_set_if_bandwidth.
  rewrite table_index_notin by exact Hn. rewrite length_map, Z.eqb_refl. reflexivity.
Qed.

Lemma if_bandwidth_reject_unknown_witness :
  tuner_set_if_bandwidth 2000000 (shadow_demo_world 0) = Some (-1, shadow_demo_world 0).
Proof. apply if_bandwidth_reject_unknown. cbn. intuition lia. Defined.

(** X3: A negative or even harmonic is rejected:
    [tuner_set_harmonic_frequency] returns -1 and changes nothing. *)
Theorem harmonic_reject_invalid fr h w :
  h < 0 \/ Z.rem h 2 = 0 -> tuner_set_harmonic_frequency fr h w = Some (-1, w).
Proof.
  intros Hh. unfold tuner_set_harmonic_frequency.
  replace ((h <? 0) || (Z.rem h 2 =? 0)) with true; [reflexivity|].
  destruct Hh as [Hh|Hh]; [apply Z.ltb_lt in Hh; rewrite Hh; reflexivity|].
  rewrite Hh, orb_true_r. reflexivity.
Qed.

Lemma harmonic_reject_invalid_witness :
  tuner_set_harmonic_frequency 300e6 2 (shadow_demo_world 0) = Some (-1, shadow_demo_world 0) /\
  tuner_set_harmonic_frequency 300e6 (-3) (shadow_demo_world 0) = Some (-1, shadow_demo_world 0).
Proof.
  split; apply harmonic_reject_invalid; [right; reflexivity | left; lia].
Defined.

Lemma write_value_shadow f v w r w' :
  tuner_write_value f v w = Some (r, w') ->
  registers (w_tuner w') = registers (tuner_set_value (w_tuner w) f v).
Proof.
  intros H.
  cbv [tuner_write_value bind assert get_tuner put_tuner ret usb_device_i2c_write
       with_dirty_mask] in H.
  repeat match type of H with context [if ?b then _ else _] =>
    let E := fresh "E" in destruct b eqn:E; cbv beta iota zeta in H; try discriminate end.
  all: injection H as <- <-; reflexivity.
Qed.

(** A field of the register map disjoint from [f] keeps its value when [f]
    is written with a value that fits. *)
Lemma write_value_fields f v w r w' :
  0 <= f_reg f < 32 -> 0 <= f_mask f < 256 -> 0 <= f_shift f ->
  field_fits f v = true -> length (registers (w_tuner w)) = 32%nat ->
  tuner_write_value f v w = Some (r, w') ->
  tuner_get_value (w_tuner w') f = field_value f v /\
  forall g, In g register_map -> field_disjoint f g = true ->
    tuner_get_value (w_tuner w') g = tuner_get_value (w_tuner w) g.
Proof.
  intros Hr Hm Hs Hfit Hl H. apply write_value_shadow in H.
  unfold tuner_get_value at 1 2. rewrite H. split.
  - apply set_value_get_same; auto.
  - intros g Hin Hd. pose proof register_map_ok as Hmap. rewrite Forall_forall in Hmap.
    destruct (Hmap g Hin) as (Hgr & Hgm & _).
    apply set_value_get_other; auto; lia.
Qed.

Lemma gain_setting_stores table f g w r w' :
  f_mask f = 0x0f -> f_shift f = 0 -> 0 <= f_reg f < 32 -> length table = 16%nat ->
  In g table -> length (registers (w_tuner w)) = 32%nat ->
  (let idx := table_index table g in
   if idx =? Z.of_nat (length table) then ret (-1) else
   let* r := tuner_write_value f (u8 idx) in
   if r <? 0 then ret (-1) else ret 0) w = Some (r, w') ->
  tuner_get_value (w_tuner w') f = table_index table g /\
  forall h, In h register_map -> field_disjoint f h = true ->
    tuner_get_value (w_tuner w') h = tuner_get_value (w_tuner w) h.
Proof.
  intros Hm Hs Hr Hl Hin Hlen. cbv zeta. pose proof (table_index_bound table g) as Hb.
  destruct (Z.eqb_spec (table_index table g) (Z.of_nat (length table))) as [Heq|Hne].
  { exfalso. clear - Heq Hin. induction table as [|t table IH]; [destruct Hin|].
    cbn [table_index length] in Heq. rewrite Nat2Z.inj_succ in Heq.
    destruct (Z.eqb_spec g t) as [->|Hne]; [lia|].
    destruct Hin as [->|Hin]; [congruence|]. apply IH; [exact Hin|lia]. }
  rewrite Hl in Hb, Hne. cbn in Hb, Hne.
  destruct (fits_nibble f (table_index table g) Hm Hs ltac:(lia)) as [F1 _].
  intros H. apply bind_inv in H as (r1 & w1 & E1 & H).
  assert (w1 = w') as ->.
  { destruct (r1 <? 0); injection H as _ <-; reflexivity. }
  assert (0 <= f_mask f < 256) as Hm' by (rewrite Hm; lia).
  destruct (write_value_fields f _ w r1 w' Hr Hm' ltac:(lia) F1 Hlen E1) as [E3 E2].
  split; [|exact E2]. rewrite E3. unfold field_value. rewrite Hm, Hs.
  unfold u8. rewrite Z.mod_mod, Z.shiftr_0_r by lia.
  rewrite Z.mod_small by lia. change 0x0f with (Z.ones 4). rewrite Z.land_ones by lia.
  apply Z.mod_small. lia.
Qed.

(** X4: A gain setter called with an entry [g] of its table
    leaves the index of [g] in its field: [g/2] in LNA_GAIN, [g] in MIX_GAIN
    and VGA_CODE (the tables are 0, 2, ..., 30 and 0, 1, ..., 15). Every
    field of the register map disjoint from it keeps its value. *)
Theorem gain_setters_store_index g w r w' :
  length (registers (w_tuner w)) = 32%nat ->
  (In g tuner_lna_gains_table -> tuner_set_lna_gain g w = Some (r, w') ->
   tuner_get_value (w_tuner w') R820T2_LNA_GAIN = g / 2 /\
   forall f, In f register_map -> field_disjoint R820T2_LNA_GAIN f = true ->
     tuner_get_value (w_tuner w') f = tuner_get_value (w_tuner w) f) /\
  (In g tuner_mixer_gains_table -> tuner_set_mixer_gain g w = Some (r, w') ->
   tuner_get_value (w_tuner w') R820T2_MIX_GAIN = g /\
   forall f, In f register_map -> field_disjoint R820T2_MIX_GAIN f = true ->
     tuner_get_value (w_tuner w') f = tuner_get_value (w_tuner w) f) /\
  (In g tuner_vga_gains_table -> tuner_set_vga_gain g w = Some (r, w') ->
   tuner_get_value (w_tuner w') R820T2_VGA_CODE = g /\
   forall f, In f register_map -> field_disjoint R820T2_VGA_CODE f = true ->
     tuner_get_value (w_tuner w') f = tuner_get_value (w_tuner w) f).
Proof.
  intros Hl. split; [|split]; intros Hin H.
  - assert (table_index tuner_lna_gains_table g = g / 2) as <-.
    { cbn in Hin. repeat destruct Hin as [<-|Hin]; [..|destruct Hin]; reflexivity. }
    exact (gain_setting_stores tuner_lna_gains_table R820T2_LNA_GAIN g w r w' eq_refl eq_refl ltac:(cbn; lia) eq_refl Hin Hl H).
  - assert (table_index tuner_mixer_gains_table g = g) as Hg.
    { cbn in Hin. repeat destruct Hin as [<-|Hin]; [..|destruct Hin]; reflexivity. }
    rewrite <- Hg at 1.
    exact (gain_setting_stores tuner_mixer_gains_table R820T2_MIX_GAIN g w r w' eq_refl eq_refl ltac:(cbn; lia) eq_refl Hin Hl H).
  - assert (table_index tuner_vga_gains_table g = g) as Hg.
    { cbn in Hin. repeat destruct Hin as [<-|Hin]; [..|destruct Hin]; reflexivity. }
    rewrite <- Hg at 1.
    exact (gain_setting_stores tuner_vga_gains_table R820T2_VGA_CODE g w r w' eq_refl eq_refl ltac:(cbn; lia) eq_refl Hin Hl H).
Qed.

Lemma write_loop_range : forall fuel mask i from w r w',
  (forall j, 0 <= j < 4 -> Z.testbit mask j = false) ->
  0 <= i <= 32 -> Z.of_nat fuel = 33 - i ->
  (from = -1 \/ (0 <= from < i /\ Z.testbit mask from = true)) ->
  write_registers_loop fuel mask i from w = Some (r, w') ->
  w_tuner w' = w_tuner w /\
  exists new, w_log w' = w_log w ++ new /\
    Forall (fun x => x_write x = true /\ 4 <= x_from x /\
                     x_from x + Z.of_nat (length (x_data x)) <= 32 /\
                     x_data x = map (reg_get (registers (w_tuner w)))
                                    (zseq (x_from x) (Z.of_nat (length (x_data x))))) new.
Proof.
  induction fuel as [|fuel IH]; intros mask i from w r w' Hlow Hi Hf Hfrom Hrun; [lia|].
  cbn [write_registers_loop] in Hrun. rewrite land_pow2_zero in Hrun by lia.
  assert (Hfrom4 : 0 <= from -> 4 <= from /\ from < i).
  { intros Hp. destruct Hfrom as [->|(Hf1 & Hf2)]; [lia|].
    destruct (Z.ltb_spec from 4); [|lia]. rewrite Hlow in Hf2 by lia. discriminate. }
  destruct ((i =? R820T2_REGISTERS) || negb (Z.testbit mask i)) eqn:Hc.
  - destruct (Z.leb_spec 0 from) as [Hp|Hp].
    + specialize (Hfrom4 Hp).
      apply bind_inv in Hrun as (r0 & w1 & E1 & Hrun).
      cbv [usb_device_i2c_write] in E1. injection E1 as <- <-.
      set (x := mk_xfer true from (map (reg_get (registers (w_tuner w))) (zseq from (i - from)))
                  (bus_ret (w_bus w) (length (w_log w)))) in *.
      assert (Hx : x_write x = true /\ 4 <= x_from x /\
                   x_from x + Z.of_nat (length (x_data x)) <= 32 /\
                   x_data x = map (reg_get (registers (w_tuner w)))
                                  (zseq (x_from x) (Z.of_nat (length (x_data x))))).
      { unfold x; cbn [x_write x_from x_data]. rewrite length_i2c_data by lia.
        repeat split; try lia. }
      destruct (bus_ret (w_bus w) (length (w_log w)) <? 0).
      * injection Hrun as <- <-. split; [reflexivity|]. exists [x]. split; [reflexivity|].
        constructor; [exact Hx | constructor].
      * destruct fuel as [|fuel'].
        -- cbn in Hrun. injection Hrun as <- <-. split; [reflexivity|].
           exists [x]. split; [reflexivity|]. constructor; [exact Hx | constructor].
        -- apply IH in Hrun as (Ht & new & Hlog & Hall); [| exact Hlow | lia | lia | left; reflexivity].
           cbn [w_tuner w_log] in Ht, Hlog, Hall.
           split; [exact Ht|]. exists (x :: new).
           split; [rewrite Hlog, <- app_assoc; reflexivity | constructor; assumption].
    + assert (from = -1) as -> by (destruct Hfrom; lia).
      destruct fuel as [|fuel'].
      * cbn in Hrun. injection Hrun as <- <-. split; [reflexivity|].
        exists []. split; [rewrite app_nil_r; reflexivity | constructor].
      * eapply IH; [exact Hlow | | | left; reflexivity | exact Hrun]; lia.
  - assert (i <> 32 /\ Z.testbit mask i = true) as [Hi32 Hbi].
    { apply orb_false_iff in Hc as [Hc1 Hc2]. apply Z.eqb_neq in Hc1.
      destruct (Z.testbit mask i); cbn in Hc2; [|discriminate]. unfold R820T2_REGISTERS in Hc1. auto. }
    eapply IH; [exact Hlow | | | | exact Hrun]; [lia | lia |].
    right. destruct Hfrom as [->|(Hf1 & Hf2)]; cbn.
    + split; [lia | exact Hbi].
    + destruct (Z.ltb_spec from 0); [lia|]. split; [lia | exact Hf2].
Qed.

Lemma write_registers_range m w r w' :
  tuner_write_registers m w = Some (r, w') ->
  registers (w_tuner w') = registers (w_tuner w) /\
  exists new, w_log w' = w_log w ++ new /\
    Forall (fun x => x_write x = true /\ 4 <= x_from x /\
                     x_from x + Z.of_nat (length (x_data x)) <= 32 /\
                     x_data x = map (reg_get (registers (w_tuner w)))
                                    (zseq (x_from x) (Z.of_nat (length (x_data x))))) new.
Proof.
  unfold tuner_write_registers. cbv zeta. intros H.
  apply bind_inv in H as (r0 & w1 & E1 & H).
  apply write_loop_range in E1 as (Ht & new & Hlog & Hall); [| | lia | reflexivity | left; reflexivity].
  2:{ intros j Hj. rewrite Z.land_spec.
      assert (j = 0 \/ j = 1 \/ j = 2 \/ j = 3) as Hc by lia.
      repeat destruct Hc as [-> | Hc]; subst; apply andb_false_r. }
  destruct (r0 <? 0).
  - injection H as <- <-. rewrite Ht. split; [reflexivity|]. exists new. auto.
  - rewrite bind_get_tuner, bind_put_tuner in H. injection H as <- <-.
    cbn [w_tuner w_log with_dirty_mask registers]. rewrite Ht.
    split; [reflexivity|]. exists new. auto.
Qed.

Lemma frame_write_value_at (P : xfer -> Prop) f v :
  (forall x, x_write x = true -> x_from x = f_reg f -> length (x_data x) = 1%nat -> P x) ->
  frame P (tuner_write_value f v).
Proof.
  intros HP w a w' H.
  cbv [tuner_write_value bind assert get_tuner put_tuner ret usb_device_i2c_write
       with_dirty_mask] in H.
  repeat match type of H with context [if ?b then _ else _] =>
    let E := fresh "E" in destruct b eqn:E; cbv beta iota zeta in H; try discriminate end.
  all: injection H as <- <-; cbn [w_tuner w_log w_bus xtal_frequency if_frequency registers].
  all: rewrite ?length_reg_set.
  all: repeat split; auto; eexists; split; [reflexivity | repeat constructor; apply HP; reflexivity].
Qed.

Lemma frame_write_registers_above m : frame writes_above_3 (tuner_write_registers m).
Proof.
  intros w a w' H.
  destruct (frame_write_registers (fun _ => True) m (fun _ _ => I) _ _ _ H)
    as (X & I & L & B & n & G & _).
  destruct (write_registers_range m w a w' H) as (_ & new & G' & F').
  repeat split; auto. exists new. split; [exact G'|].
  eapply Forall_impl; [|exact F']. intros x (Hw & H1 & H2 & _) _. auto.
Qed.

Lemma frame_flush_dirty_above : frame writes_above_3 flush_dirty.
Proof.
  unfold flush_dirty. apply frame_bind; [apply frame_get_tuner|].
  intros this. apply frame_write_registers_above.
Qed.

Lemma frame_read_value_above f : frame writes_above_3 (tuner_read_value f).
Proof. apply frame_read_value. intros x Hw _ _ Hw'. congruence. Qed.

Ltac frame_above :=
  repeat match goal with
  | |- frame _ (bind _ _) => apply frame_bind; [|intros ?]
  | |- frame _ (ret _) => apply frame_ret
  | |- frame _ get_tuner => apply frame_get_tuner
  | |- frame _ (set_value _ _) => apply frame_set_value
  | |- frame _ (tuner_write_value _ _) =>
      apply frame_write_value_at; let Hf := fresh in let Hl := fresh in
      intros ? _ Hf Hl _; rewrite Hf, Hl; cbn; lia
  | |- frame _ (tuner_write_registers _) => apply frame_write_registers_above
  | |- frame _ flush_dirty => apply frame_flush_dirty_above
  | |- frame _ (tuner_read_value _) => apply frame_read_value_above
  | |- frame _ (if ?b then _ else _) => destruct b
  | |- frame _ (match ?x with _ => _ end) => destruct x
  end.

Lemma frame_set_pll_above fr : frame writes_above_3 (tuner_set_pll fr).
Proof. unfold tuner_set_pll, tuner_apply_pll_parameters. frame_above. Qed.

Lemma frame_set_mux_above fr : frame writes_above_3 (tuner_set_mux fr).
Proof. unfold tuner_set_mux, tuner_apply_mux_parameters. cbv zeta. frame_above. Qed.

Lemma frame_calibrate_above n : frame writes_above_3 (calibrate_loop n).
Proof.
  induction n as [|n IH]; cbn [calibrate_loop]; [apply frame_ret|].
  apply frame_bind; [|intros o; destruct o; frame_above; exact IH].
  unfold tuner_calibrate_attempt. frame_above. all: apply frame_set_pll_above.
Qed.

Lemma log_only_frame {A} P (m : M A) : frame P m -> log_only P m.
Proof. intros H w a w' E. destruct (H w a w' E) as (_ & _ & _ & _ & G). exact G. Qed.

Lemma log_only_bind {A B} P (m : M A) (k : A -> M B) :
  log_only P m -> (forall a, log_only P (k a)) -> log_only P (bind m k).
Proof.
  intros Hm Hk w b w'' H. apply bind_inv in H as (a & w' & E1 & E2).
  destruct (Hm _ _ _ E1) as (n1 & G1 & F1). destruct (Hk a _ _ _ E2) as (n2 & G2 & F2).
  exists (n1 ++ n2). split; [rewrite G2, G1, app_assoc; reflexivity | apply Forall_app; auto].
Qed.

Lemma log_only_put_tuner P t : log_only P (put_tuner t).
Proof.
  intros w a w' H. injection H as <- <-. exists []. split; [rewrite app_nil_r; reflexivity | constructor].
Qed.

Lemma log_only_read_registers m : log_only writes_above_3 (tuner_read_registers m).
Proof.
  intros w a w'. unfold tuner_read_registers. cbv zeta. intros H.
  apply bind_inv in H as (r0 & w1 & E1 & H).
  apply read_registers_loop_0 in E1 as (_ & _ & new & Hlog & Hw & _).
  assert (Forall writes_above_3 new) as Hnew.
  { eapply Forall_impl; [|exact Hw]. intros x Hx Hx'. congruence. }
  destruct (r0 <? 0).
  - injection H as <- <-. eauto.
  - rewrite bind_get_tuner, bind_put_tuner in H. injection H as <- <-. eauto.
Qed.

Ltac log_only_tac :=
  repeat match goal with
  | |- log_only _ (bind (put_tuner _) _) => apply log_only_bind; [apply log_only_put_tuner | intros ?]
  | |- log_only _ (bind (tuner_read_registers _) _) =>
      apply log_only_bind; [apply log_only_read_registers | intros ?]
  | |- log_only _ (bind (calibrate_loop _) _) =>
      apply log_only_bind; [apply log_only_frame, frame_calibrate_above | intros ?]
  | |- log_only _ (bind _ _) => apply log_only_bind; [|intros ?]
  | |- log_only _ (if ?b then _ else _) => destruct b
  | |- log_only _ _ => apply log_only_frame; frame_above
  end.

Lemma log_only_tuner_api c : log_only writes_above_3 (tuner_api c).
Proof.
  destruct c; cbn [tuner_api].
  - unfold tuner_open, tuner_init_registers, tuner_calibrate. log_only_tac.
  - log_only_tac.
  - log_only_tac.
  - unfold tuner_set_frequency. cbv zeta. apply log_only_frame. frame_above;
      [apply frame_set_mux_above | apply frame_set_pll_above].
  - unfold tuner_set_harmonic_frequency. cbv zeta. apply log_only_frame. frame_above;
      [apply frame_set_mux_above | apply frame_set_pll_above].
  - unfold tuner_set_lna_gain. cbv zeta. log_only_tac.
  - unfold tuner_set_lna_agc. log_only_tac.
  - unfold tuner_set_mixer_gain. cbv zeta. log_only_tac.
  - unfold tuner_set_mixer_agc. log_only_tac.
  - unfold tuner_set_vga_gain. cbv zeta. log_only_tac.
  - unfold tuner_set_if_bandwidth. cbv zeta. log_only_tac.
  - log_only_tac.
  - log_only_tac.
  - unfold tuner_standby. cbv zeta. log_only_tac.
Qed.

(** X9: No sequence of public tuner operations ever sends an
    I2C write touching registers 0 to 3 or going past register 31. *)
Theorem tuner_api_never_writes_0_3 cs w rs w' :
  tuner_api_run cs w = Some (rs, w') ->
  exists new, w_log w' = w_log w ++ new /\
    Forall (fun x => x_write x = true ->
                     4 <= x_from x /\ x_from x + Z.of_nat (length (x_data x)) <= 32) new.
Proof.
  revert w rs w'. induction cs as [|c cs IH]; intros w rs w' H; cbn [tuner_api_run] in H.
  - injection H as <- <-. exists []. split; [rewrite app_nil_r; reflexivity | constructor].
  - apply bind_inv in H as (r & w1 & E1 & H). apply bind_inv in H as (rs' & w2 & E2 & H).
    injection H as <- <-.
    destruct (log_only_tuner_api c _ _ _ E1) as (n1 & G1 & F1).
    destruct (IH _ _ _ E2) as (n2 & G2 & F2).
    exists (n1 ++ n2). split; [rewrite G2, G1, app_assoc; reflexivity | apply Forall_app; auto].
Qed.

Lemma step_skip fuel mask i from w :
  (i =? R820T2_REGISTERS) || (Z.land (Z.shiftl 1 i) mask =? 0) = false ->
  write_registers_loop (S fuel) mask i from w =
  write_registers_loop fuel mask (i + 1) (if from <? 0 then i else from) w.
Proof. intros H. cbn [write_registers_loop]. rewrite H. reflexivity. Qed.

Lemma step_none fuel mask i w :
  (i =? R820T2_REGISTERS) || (Z.land (Z.shiftl 1 i) mask =? 0) = true ->
  write_registers_loop (S fuel) mask i (-1) w = write_registers_loop fuel mask (i + 1) (-1) w.
Proof. intros H. cbn [write_registers_loop]. rewrite H. reflexivity. Qed.

Lemma step_send fuel mask i from w :
  (i =? R820T2_REGISTERS) || (Z.land (Z.shiftl 1 i) mask =? 0) = true -> 0 <= from ->
  write_registers_loop (S fuel) mask i from w =
  match usb_device_i2c_write from (i - from) w with
  | Some (r, w1) => (if r <? 0 then ret (-1) else write_registers_loop fuel mask (i + 1) (-1)) w1
  | None => None
  end.
Proof.
  intros H Hf. cbn [write_registers_loop]. rewrite H. apply Z.leb_le in Hf. rewrite Hf. reflexivity.
Qed.

Lemma loop_init (t : tuner) l b :
  write_registers_loop 33 (Z.land R820T2_REGISTERS_WRITE_MASK R820T2_REGISTERS_WRITE_MASK) 0 (-1)
    (mk_world t l b) =
  Some (if bus_ret b (length l) <? 0 then -1 else 0,
        mk_world t (l ++ [mk_xfer true 4 (map (reg_get (registers t)) (zseq 4 28)) (bus_ret b (length l))]) b).
Proof.
  do 4 (rewrite step_none by reflexivity; cbn [Z.add Pos.add Pos.succ]).
  do 28 (rewrite step_skip by reflexivity; cbn [Z.add Pos.add Pos.succ Z.ltb Z.compare]).
  rewrite step_send by (reflexivity || lia). cbn [usb_device_i2c_write w_log w_bus w_tuner].
  destruct (bus_ret b (length l) <? 0); reflexivity.
Qed.

Lemma init_registers_spec w r w' :
  tuner_init_registers w = Some (r, w') ->
  let rr := bus_ret (w_bus w) (length (w_log w)) in
  let t := with_registers (w_tuner w) init_registers in
  r = (if rr <? 0 then -1 else 0) /\
  w' = mk_world (if rr <? 0 then t
                 else with_dirty_mask t (u32 (Z.land (registers_dirty_mask t)
                        (Z.lnot (Z.land R820T2_REGISTERS_WRITE_MASK R820T2_REGISTERS_WRITE_MASK)))))
                (w_log w ++ [mk_xfer true 4 (skipn 4 init_registers) rr]) (w_bus w).
Proof.
  destruct w as [t l b]. unfold tuner_init_registers, tuner_write_registers.
  cbv [bind get_tuner put_tuner w_tuner w_log w_bus].
  change (Z.to_nat R820T2_REGISTERS + 1)%nat with 33%nat.
  rewrite loop_init. cbn [w_tuner w_log w_bus].
  destruct (bus_ret b (length l) <? 0); intros H; injection H as <- <-; cbn; auto.
Qed.

(** X10: [tuner_init_registers] loads the power-on register
    values into the shadow and sends them in one I2C write of registers 4 to
    31; it returns -1 exactly when that write fails. *)
Theorem init_registers_single_write w r w' :
  tuner_init_registers w = Some (r, w') ->
  registers (w_tuner w') = init_registers /\
  w_log w' = w_log w ++ [mk_xfer true 4 (skipn 4 init_registers)
                                 (bus_ret (w_bus w) (length (w_log w)))] /\
  r = (if bus_ret (w_bus w) (length (w_log w)) <? 0 then -1 else 0).
Proof.
  intros H. apply init_registers_spec in H as [-> ->]. cbn [w_tuner w_log].
  split; [|split; reflexivity].
  destruct (bus_ret (w_bus w) (length (w_log w)) <? 0); reflexivity.
Qed.

Lemma read_loop_keeps : forall fuel mask i from w r w',
  read_registers_loop fuel mask i from w = Some (r, w') ->
  xtal_frequency (w_tuner w') = xtal_frequency (w_tuner w) /\
  if_frequency (w_tuner w') = if_frequency (w_tuner w) /\
  length (registers (w_tuner w')) = length (registers (w_tuner w)).
Proof.
  induction fuel as [|fuel IH]; intros mask i from w r w' H; cbn [read_registers_loop] in H.
  - injection H as <- <-. auto.
  - destruct ((i =? R820T2_REGISTERS) || (Z.land (Z.shiftl 1 i) mask =? 0)).
    + destruct (0 <=? from); [|exact (IH _ _ _ _ _ _ H)].
      apply bind_inv in H as (r0 & w1 & E1 & H).
      assert (xtal_frequency (w_tuner w1) = xtal_frequency (w_tuner w) /\
              if_frequency (w_tuner w1) = if_frequency (w_tuner w) /\
              length (registers (w_tuner w1)) = length (registers (w_tuner w))) as (X1 & I1 & L1).
      { cbv [usb_device_i2c_read] in E1. injection E1 as <- <-. cbn [w_tuner].
        destruct (_ <? 0); cbn; rewrite ?length_store; auto. }
      destruct (r0 <? 0); [injection H as <- <-; auto|].
      rewrite bind_get_tuner, bind_put_tuner in H.
      apply IH in H as (X2 & I2 & L2). cbn [w_tuner with_registers xtal_frequency if_frequency registers] in *.
      rewrite bitrev_range_length in L2. repeat split; congruence.
    + exact (IH _ _ _ _ _ _ H).
Qed.

Lemma u32_land_lnot_all d : u32 (Z.land d (Z.lnot (Z.land 0xffffffff R820T2_REGISTERS_READ_MASK))) = 0.
Proof.
  apply Z.bits_inj'. intros n Hn. rewrite Z.bits_0. unfold u32.
  destruct (Z.ltb_spec n 32) as [Hl|Hl].
  - rewrite Z.mod_pow2_bits_low by lia. rewrite Z.land_spec, Z.lnot_spec by lia.
    change (Z.land 0xffffffff R820T2_REGISTERS_READ_MASK) with (Z.ones 32).
    rewrite Z.ones_spec_low by lia. apply andb_false_r.
  - apply Z.mod_pow2_bits_high. lia.
Qed.

(** X11: When [tuner_open] succeeds the tuner has the default crystal
    and IF frequencies, 32 shadow registers and an empty dirty mask. *)
Theorem tuner_open_state w w' :
  tuner_open w = Some (0, w') ->
  xtal_frequency (w_tuner w') = DEFAULT_TUNER_XTAL_FREQUENCY /\
  if_frequency (w_tuner w') = DEFAULT_TUNER_IF_FREQUENCY /\
  length (registers (w_tuner w')) = 32%nat /\
  registers_dirty_mask (w_tuner w') = 0.
Proof.
  unfold tuner_open. intros H.
  rewrite bind_put_tuner in H.
  apply bind_inv in H as (r1 & w1 & E1 & H).
  apply init_registers_spec in E1 as [_ ->]. cbn [w_tuner w_log w_bus] in H.
  set (t1 := if bus_ret _ _ <? 0 then with_registers _ _ else _) in H.
  assert (xtal_frequency t1 = DEFAULT_TUNER_XTAL_FREQUENCY /\
          if_frequency t1 = DEFAULT_TUNER_IF_FREQUENCY /\ length (registers t1) = 32%nat)
    as (X1 & I1 & L1) by (unfold t1; destruct (_ <? 0); cbn; auto).
  clearbody t1.
  destruct (r1 <? 0); [injection H as; discriminate|].
  apply bind_inv in H as (r2 & w2 & E2 & H).
  destruct (frame_calibrate_above n_calibration_attempts _ _ _ E2) as (X2 & I2 & L2 & _).
  cbn [w_tuner] in X2, I2, L2.
  destruct (r2 <? 0); [injection H as; discriminate|].
  apply bind_inv in H as (r3 & w3 & E3 & H).
  destruct (Z.ltb_spec r3 0) as [Hn|Hn]; [injection H as; discriminate|].
  injection H as <-.
  revert E3. unfold tuner_read_registers. cbv zeta. intros E3.
  apply bind_inv in E3 as (r4 & w4 & E4 & E3).
  apply read_loop_keeps in E4 as (X4 & I4 & L4).
  destruct (r4 <? 0); [injection E3 as <- _; lia|].
  rewrite bind_get_tuner, bind_put_tuner in E3. injection E3 as _ <-.
  cbn [w_tuner with_dirty_mask xtal_frequency if_frequency registers registers_dirty_mask].
  rewrite u32_land_lnot_all. repeat split; congruence.
Qed.

Lemma standby_fold_regs (kvs : list (Z * Z)) t :
  registers (fold_left (fun t rv =>
                 mk_tuner (xtal_frequency t) (if_frequency t)
                   (reg_set (registers t) (fst rv) (snd rv))
                   (u32 (Z.lor (registers_dirty_mask t) (Z.shiftl 1 (fst rv))))) kvs t) =
  fold_left (fun rs rv => reg_set rs (fst rv) (snd rv)) kvs (registers t).
Proof. revert t. induction kvs as [|kv kvs IH]; intros t; cbn; [reflexivity | apply IH]. Qed.

Lemma fold_set_other (kvs : list (Z * Z)) regs k :
  Forall (fun kv => 0 <= fst kv) kvs -> 0 <= k -> ~ In k (map fst kvs) ->
  reg_get (fold_left (fun rs rv => reg_set rs (fst rv) (snd rv)) kvs regs) k = reg_get regs k.
Proof.
  revert regs. induction kvs as [|kv kvs IH]; intros regs Hall Hk Hni; cbn [fold_left]; [reflexivity|].
  inversion Hall as [|? ? Hk0 Hall']; subst.
  rewrite IH; [| exact Hall' | exact Hk | intros Hi; apply Hni; right; exact Hi].
  apply reg_get_set_other; [exact Hk0 | exact Hk|]. intros E. apply Hni. left. exact E.
Qed.

Lemma fold_set_get (kvs : list (Z * Z)) regs k v :
  NoDup (map fst kvs) -> Forall (fun kv => 0 <= fst kv < Z.of_nat (length regs)) kvs ->
  In (k, v) kvs ->
  reg_get (fold_left (fun rs rv => reg_set rs (fst rv) (snd rv)) kvs regs) k = v.
Proof.
  revert regs. induction kvs as [|kv kvs IH]; intros regs Hnd Hall Hin; [destruct Hin|].
  cbn [fold_left]. inversion Hnd as [|? ? Hn Hnd']; subst. inversion Hall as [|? ? Hk Hall']; subst.
  destruct Hin as [->|Hin].
  - cbn [fst snd] in *. rewrite fold_set_other; [| | lia | exact Hn].
    + apply reg_get_set_same; [lia|]. apply Nat2Z.inj_lt. rewrite Z2Nat.id; lia.
    + eapply Forall_impl; [|exact Hall']. intros kv' [H' _]; exact H'.
  - apply IH; auto. eapply Forall_impl; [|exact Hall']. intros kv'. rewrite length_reg_set. auto.
Qed.

Lemma flush_dirty_mask w r w' :
  flush_dirty w = Some (r, w') ->
  registers (w_tuner w') = registers (w_tuner w) /\
  (0 <= r -> forall j, 4 <= j < 32 -> Z.testbit (registers_dirty_mask (w_tuner w')) j = false).
Proof.
  unfold flush_dirty, tuner_write_registers. cbv zeta. intros H.
  rewrite bind_get_tuner in H. cbv beta in H.
  apply bind_inv in H as (r0 & w1 & E1 & H).
  apply write_registers_loop_0 in E1 as (Ht & _).
  destruct (Z.ltb_spec r0 0) as [Hn|Hn].
  - injection H as <- <-. rewrite Ht. split; [reflexivity | lia].
  - rewrite bind_get_tuner, bind_put_tuner in H. injection H as <- <-.
    cbn [w_tuner with_dirty_mask registers registers_dirty_mask]. rewrite Ht.
    split; [reflexivity|]. intros _ j Hj. dirty_bits.
    change R820T2_REGISTERS_WRITE_MASK with (Z.lnot (Z.ones 4) mod 2 ^ 32).
    rewrite Z.mod_pow2_bits_low, Z.lnot_spec, Z.ones_spec_high by lia.
    destruct (Z.testbit (registers_dirty_mask (w_tuner w)) j); reflexivity.
Qed.

(** X12: [tuner_standby] leaves each value of its table in its
    register and every other register unchanged; when it returns 0,
    registers 4 to 31 are no longer dirty. *)
Theorem standby_programs w r w' :
  length (registers (w_tuner w)) = 32%nat ->
  tuner_standby w = Some (r, w') ->
  (forall reg v, In (reg, v) standby_registers -> reg_get (registers (w_tuner w')) reg = v) /\
  (forall k, 0 <= k -> ~ In k (map fst standby_registers) ->
     reg_get (registers (w_tuner w')) k = reg_get (registers (w_tuner w)) k) /\
  (r = 0 -> forall j, 4 <= j < 32 -> Z.testbit (registers_dirty_mask (w_tuner w')) j = false).
Proof.
  intros Hl. unfold tuner_standby. rewrite bind_get_tuner. cbv zeta. rewrite bind_put_tuner.
  intros H. apply bind_inv in H as (r1 & w1 & E1 & H).
  apply flush_dirty_mask in E1 as [Hregs Hmask]. cbn [w_tuner] in Hregs.
  rewrite standby_fold_regs in Hregs.
  assert (registers (w_tuner w') = registers (w_tuner w1) /\ (r = 0 -> 0 <= r1)) as [Hw' Hr].
  { destruct (Z.ltb_spec r1 0); injection H as <- <-; split; auto; lia. }
  rewrite Hw', Hregs. split; [|split].
  - intros reg v Hin. apply fold_set_get; auto.
    + cbn. repeat constructor; cbn; intuition lia.
    + rewrite Hl. unfold standby_registers. repeat constructor; cbn; lia.
  - intros k Hk Hni. apply fold_set_other; [| exact Hk | exact Hni].
    unfold standby_registers. repeat constructor; cbn; lia.
  - intros Hr0 j Hj. rewrite <- (Hmask (Hr Hr0) j Hj). destruct (Z.ltb_spec r1 0); injection H as <- <-; reflexivity.
Qed.

Lemma if_bandwidth_body_programs a b :
  field_fits R820T2_FILT_CODE (Z.land a 0x0f) = true ->
  field_fits R820T2_FILT_BW (Z.shiftr (Z.land b 0xe0) 5) = true ->
  field_fits R820T2_HPF (Z.land b 0x0f) = true ->
  hoare (fields_hold []) (if_bandwidth_body a b)
    (fun _ t => fields_hold (stored_fields [(R820T2_FILT_CODE, Z.land a 0x0f);
       (R820T2_FILT_BW, Z.shiftr (Z.land b 0xe0) 5); (R820T2_HPF, Z.land b 0x0f)]) t).
Proof. intros F1 F2 F3. unfold if_bandwidth_body. hoare_tac. all: intros t Ht; exact Ht. Qed.

Lemma if_bandwidth_unfold bw : tuner_set_if_bandwidth bw =
  let idx := table_index (map (fun e => fst (fst e)) tuner_if_bandwidth_table) bw in
  if idx =? Z.of_nat (length tuner_if_bandwidth_table) then ret (-1) else
  let '(_, a, b) := nth (Z.to_nat idx) tuner_if_bandwidth_table (0, 0, 0) in
  if_bandwidth_body a b.
Proof. unfold tuner_set_if_bandwidth, if_bandwidth_body. reflexivity. Qed.

Lemma if_bandwidth_row bw a b :
  In (bw, a, b) tuner_if_bandwidth_table ->
  tuner_set_if_bandwidth bw = if_bandwidth_body a b /\
  field_fits R820T2_FILT_CODE (Z.land a 0x0f) = true /\
  field_fits R820T2_FILT_BW (Z.shiftr (Z.land b 0xe0) 5) = true /\
  field_fits R820T2_HPF (Z.land b 0x0f) = true /\
  field_value R820T2_FILT_CODE (Z.land a 0x0f) = Z.land a 0x0f /\
  field_value R820T2_FILT_BW (Z.shiftr (Z.land b 0xe0) 5) = Z.shiftr (Z.land b 0xe0) 5 /\
  field_value R820T2_HPF (Z.land b 0x0f) = Z.land b 0x0f.
Proof.
  cbn [tuner_if_bandwidth_table In]. intros Hin.
  repeat destruct Hin as [Hin|Hin]; [..|destruct Hin].
  all: injection Hin as <- <- <-.
  all: split.
  all: try rewrite if_bandwidth_unfold.
  all: repeat split.
  all: reflexivity.
Qed.

(** X6: For a row [(bw, a, b)] of the bandwidth table,
    [tuner_set_if_bandwidth bw] leaves [a & 0x0f] in FILT_CODE,
    [(b & 0xe0) >> 5] in FILT_BW and [b & 0x0f] in HPF. The 6, 7 and 8 MHz
    rows, whose [a] is 0x10, therefore leave FILT_CODE at 0. *)
Theorem if_bandwidth_programs_filter bw a b w r w' :
  length (registers (w_tuner w)) = 32%nat ->
  In (bw, a, b) tuner_if_bandwidth_table ->
  tuner_set_if_bandwidth bw w = Some (r, w') ->
  tuner_get_value (w_tuner w') R820T2_FILT_CODE = Z.land a 0x0f /\
  tuner_get_value (w_tuner w') R820T2_FILT_BW = Z.shiftr (Z.land b 0xe0) 5 /\
  tuner_get_value (w_tuner w') R820T2_HPF = Z.land b 0x0f.
Proof.
  intros Hl Hin H.
  destruct (if_bandwidth_row bw a b Hin) as (E & F1 & F2 & F3 & V1 & V2 & V3).
  rewrite E in H.
  destruct (if_bandwidth_body_programs a b F1 F2 F3 w r w' H
              (conj Hl (Forall_nil _))) as [_ F].
  inversion F as [|? ? G1 F']; inversion F' as [|? ? G2 F'']; inversion F'' as [|? ? G3 _].
  cbn [fst snd] in G1, G2, G3. rewrite V1 in G1; rewrite V2 in G2; rewrite V3 in G3. auto.
Qed.

(** X5: [tuner_set_lna_agc a] sets LNA_GAIN_MODE to 1 when
    [a = 0] and to 0 otherwise (the bit is inverted), while
    [tuner_set_mixer_agc a] sets MIXGAIN_MODE to 0 when [a = 0] and to 1
    otherwise. Every disjoint field keeps its value. *)
Theorem agc_setters_mode a w r w' :
  length (registers (w_tuner w)) = 32%nat ->
  (tuner_set_lna_agc a w = Some (r, w') ->
   tuner_get_value (w_tuner w') R820T2_LNA_GAIN_MODE = (if a =? 0 then 1 else 0) /\
   forall f, In f register_map -> field_disjoint R820T2_LNA_GAIN_MODE f = true ->
     tuner_get_value (w_tuner w') f = tuner_get_value (w_tuner w) f) /\
  (tuner_set_mixer_agc a w = Some (r, w') ->
   tuner_get_value (w_tuner w') R820T2_MIXGAIN_MODE = (if a =? 0 then 0 else 1) /\
   forall f, In f register_map -> field_disjoint R820T2_MIXGAIN_MODE f = true ->
     tuner_get_value (w_tuner w') f = tuner_get_value (w_tuner w) f).
Proof.
  intros Hl. unfold tuner_set_lna_agc, tuner_set_mixer_agc. split; intros H.
  all: apply bind_inv in H as (r1 & w1 & E1 & H).
  all: assert (w1 = w') as -> by (destruct (r1 <? 0); injection H as _ <-; reflexivity).
  all: destruct (a =? 0).
  all: apply write_value_fields in E1; [| cbn; lia | cbn; lia | cbn; lia | reflexivity | exact Hl].
  all: exact E1.
Qed.

Lemma mux_search_spec (d : float * (Z * Z * Z)) rows : forall idx f,
  rows <> [] ->
  (idx <= mux_search rows idx f < idx + length rows)%nat /\
  (forall j, (idx < j <= mux_search rows idx f)%nat ->
     (f <? fst (nth (j - idx) rows d))%float = false) /\
  (mux_search rows idx f = (idx + length rows - 1)%nat \/
   (f <? fst (nth (S (mux_search rows idx f) - idx) rows d))%float = true).
Proof.
  induction rows as [|x rows IH]; intros idx f Hne; [congruence|].
  destruct rows as [|[lo y] rest].
  - cbn. split; [lia|]. split; [intros; lia | left; lia].
  - change (mux_search (x :: (lo, y) :: rest) idx f) with
      (if (f <? lo)%float then idx else mux_search ((lo, y) :: rest) (S idx) f).
    destruct (f <? lo)%float eqn:Hlt.
    + split; [cbn; lia|]. split; [intros; lia|]. right.
      replace (S idx - idx)%nat with 1%nat by lia. exact Hlt.
    + destruct (IH (S idx) f ltac:(discriminate)) as (H1 & H2 & H3).
      cbn [length] in *. split; [lia|]. split.
      * intros j Hj. destruct (Nat.eq_dec j (S idx)) as [->|Hjn].
        -- replace (S idx - idx)%nat with 1%nat by lia. exact Hlt.
        -- specialize (H2 j ltac:(lia)).
           replace (j - idx)%nat with (S (j - S idx)) by lia. exact H2.
      * destruct H3 as [H3|H3]; [left; lia|right].
        replace (S (mux_search ((lo, y) :: rest) (S idx) f) - idx)%nat
          with (S (S (mux_search ((lo, y) :: rest) (S idx) f) - S idx)) by lia.
        exact H3.
Qed.

(** X7: The row of the mux table chosen for a frequency [f] is
    the last one before the first row, from row 1 on, whose lower bound is
    above [f]: every row from 1 up to the chosen one has a lower bound at
    most [f] (or not comparable with it), and the next row, if any, has a
    lower bound above [f]. Row 0 is never compared. *)
Theorem mux_search_selects_row f :
  let i := mux_search mux_params_table 0 f in
  (i < 21)%nat /\
  (forall j, (1 <= j <= i)%nat ->
     (f <? fst (nth j mux_params_table (0.0%float, (0%Z, 0%Z, 0%Z))))%float = false) /\
  (i = 20%nat \/ (f <? fst (nth (S i) mux_params_table (0.0%float, (0%Z, 0%Z, 0%Z))))%float = true).
Proof.
  destruct (mux_search_spec (0.0%float, (0, 0, 0)) mux_params_table 0 f ltac:(discriminate))
    as (H1 & H2 & H3).
  cbn [length mux_params_table] in H1, H3. cbv zeta. split; [lia|]. split.
  - intros j Hj. specialize (H2 j ltac:(lia)). rewrite Nat.sub_0_r in H2. exact H2.
  - rewrite Nat.sub_0_r in H3. destruct H3; [left; lia | right; assumption].
Qed.

Lemma compute_mux_fits f :
  forallb (fun fv => field_fits (fst fv) (snd fv)) (mux_fields (tuner_compute_mux_parameters f)) = true /\
  Forall (fun fv => field_value (fst fv) (snd fv) = snd fv) (mux_fields (tuner_compute_mux_parameters f)).
Proof.
  destruct (mux_search_spec (0.0%float, (0, 0, 0)) mux_params_table 0 f ltac:(discriminate))
    as (H1 & _).
  cbn [length mux_params_table] in H1.
  unfold tuner_compute_mux_parameters. cbv zeta.
  generalize dependent (mux_search mux_params_table 0 f). intros i Hi.
  do 21 (destruct i as [|i]; [split; [reflexivity | repeat constructor]|]). lia.
Qed.

Lemma apply_mux_programs p :
  forallb (fun fv => field_fits (fst fv) (snd fv)) (mux_fields p) = true ->
  hoare (fields_hold []) (tuner_apply_mux_parameters p)
        (fun _ t => fields_hold (stored_fields (mux_fields p)) t).
Proof.
  intros Hfit. unfold mux_fields in Hfit. cbn [forallb fst snd] in Hfit.
  rewrite !andb_true_iff in Hfit. destruct Hfit as (F1 & F2 & F3 & F4 & F5 & _).
  unfold tuner_apply_mux_parameters. hoare_tac.
  all: intros t Ht; exact Ht.
Qed.

Lemma set_mux_unfold f :
  tuner_set_mux f = bind (tuner_apply_mux_parameters (tuner_compute_mux_parameters f))
                         (fun r => if r <? 0 then ret (-1) else ret 0).
Proof. reflexivity. Qed.

(** X8: After [tuner_set_mux f] the shadow holds the parameters
    of the chosen row in OPEN_D, RFMUX, RFFILT, TF_NCH and TF_LP, and the
    constants of [tuner_apply_mux_parameters] in the other eight fields,
    whether or not the final flush succeeded. *)
Theorem set_mux_programs f w r w' :
  length (registers (w_tuner w)) = 32%nat ->
  tuner_set_mux f w = Some (r, w') ->
  Forall (fun fv => tuner_get_value (w_tuner w') (fst fv) = snd fv)
         (mux_fields (tuner_compute_mux_parameters f)).
Proof.
  intros Hl H. rewrite set_mux_unfold in H.
  apply bind_inv in H as (r1 & w1 & E1 & H).
  assert (w1 = w') as -> by (destruct (r1 <? 0); injection H as _ <-; reflexivity).
  destruct (compute_mux_fits f) as [Hfit Hval].
  destruct (apply_mux_programs _ Hfit w r1 w' E1 (conj Hl (Forall_nil _))) as [_ F].
  unfold stored_fields in F. rewrite Forall_map in F.
  rewrite Forall_forall in *. intros fv Hin. rewrite <- (Hval fv Hin). exact (F fv Hin).
Qed.

Lemma tuner_open_state_witness :
  tuner_open open_demo_world = Some (0, open_demo_final) /\
  registers_dirty_mask (w_tuner open_demo_final) = 0.
Proof.
  assert (E : tuner_open open_demo_world = Some (0, open_demo_final)) by (vm_compute; reflexivity).
  split; [exact E|]. apply (tuner_open_state open_demo_world open_demo_final E).
Defined.

Lemma gain_setters_store_index_witness :
  tuner_set_lna_gain 8 (shadow_demo_world 0) = Some (0, lna_gain_demo_final) /\
  tuner_get_value (w_tuner lna_gain_demo_final) R820T2_LNA_GAIN = 8 / 2.
Proof.
  assert (E : tuner_set_lna_gain 8 (shadow_demo_world 0) = Some (0, lna_gain_demo_final))
    by (vm_compute; reflexivity).
  split; [exact E|].
  apply (proj1 (gain_setters_store_index 8 (shadow_demo_world 0) 0 lna_gain_demo_final eq_refl)).
  - cbn. tauto.
  - exact E.
Defined.

Lemma agc_setters_mode_witness :
  tuner_set_lna_agc 0 (shadow_demo_world 0) = Some (0, lna_agc_demo_final) /\
  tuner_get_value (w_tuner lna_agc_demo_final) R820T2_LNA_GAIN_MODE = 1.
Proof.
  assert (E : tuner_set_lna_agc 0 (shadow_demo_world 0) = Some (0, lna_agc_demo_final))
    by (vm_compute; reflexivity).
  split; [exact E|].
  apply (proj1 (agc_setters_mode 0 (shadow_demo_world 0) 0 lna_agc_demo_final eq_refl) E).
Defined.

Lemma if_bandwidth_programs_filter_witness :
  tuner_set_if_bandwidth 6000000 (shadow_demo_world 0) = Some (0, if_bandwidth_demo_final) /\
  tuner_get_value (w_tuner if_bandwidth_demo_final) R820T2_FILT_CODE = 0.
Proof.
  assert (E : tuner_set_if_bandwidth 6000000 (shadow_demo_world 0) = Some (0, if_bandwidth_demo_final))
    by (vm_compute; reflexivity).
  split; [exact E|].
  apply (proj1 (if_bandwidth_programs_filter 6000000 0x10 0x6b (shadow_demo_world 0) 0
                  if_bandwidth_demo_final eq_refl ltac:(cbn; tauto) E)).
Defined.

Lemma set_mux_programs_witness :
  tuner_set_mux 100e6 (shadow_demo_world 0) = Some (0, set_mux_demo_final) /\
  Forall (fun fv => tuner_get_value (w_tuner set_mux_demo_final) (fst fv) = snd fv)
         (mux_fields (tuner_compute_mux_parameters 100e6)).
Proof.
  assert (E : tuner_set_mux 100e6 (shadow_demo_world 0) = Some (0, set_mux_demo_final))
    by (vm_compute; reflexivity).
  split; [exact E|].
  apply (set_mux_programs 100e6 (shadow_demo_world 0) 0 set_mux_demo_final eq_refl E).
Defined.

Lemma standby_programs_witness :
  tuner_standby (shadow_demo_world 0) = Some (0, standby_demo_final) /\
  reg_get (registers (w_tuner standby_demo_final)) 0x17 = 0xf4.
Proof.
  assert (E : tuner_standby (shadow_demo_world 0) = Some (0, standby_demo_final))
    by (vm_compute; reflexivity).
  split; [exact E|].
  apply (proj1 (standby_programs (shadow_demo_world 0) 0 standby_demo_final eq_refl E)).
  cbn. tauto.
Defined.

Lemma init_registers_single_write_witness :
  tuner_init_registers (shadow_demo_world 0) = Some (0, init_demo_final) /\
  registers (w_tuner init_demo_final) = init_registers.
Proof.
  assert (E : tuner_init_registers (shadow_demo_world 0) = Some (0, init_demo_final))
    by (vm_compute; reflexivity).
  split; [exact E|].
  apply (init_registers_single_write (shadow_demo_world 0) 0 init_demo_final E).
Defined.

Lemma tuner_api_never_writes_0_3_witness :
  tuner_api_run api_demo_ops open_demo_world = Some ([0; 0; 0; 0; 0], api_demo_final) /\
  exists new, w_log api_demo_final = w_log open_demo_world ++ new /\
    Forall (fun x => x_write x = true ->
                     4 <= x_from x /\ x_from x + Z.of_nat (length (x_data x)) <= 32) new.
Proof.
  assert (E : tuner_api_run api_demo_ops open_demo_world = Some ([0; 0; 0; 0; 0], api_demo_final))
    by (vm_compute; reflexivity).
  split; [exact E|].
  exact (tuner_api_never_writes_0_3 api_demo_ops open_demo_world _ api_demo_final E).
Defined.

End TunerExtraProofs.

(** ** Clock source: register encoding and the write sequence *)
Module ClockSourceExtraProofs.
Import ClockSource.

Lemma land_field x s k : 0 <= s -> 0 <= k ->
  Z.land x (Z.shiftl (Z.ones k) s) = ((x / 2 ^ s) mod 2 ^ k) * 2 ^ s.
Proof.
  intros Hs Hk. apply Z.bits_inj'. intros n Hn.
  rewrite Z.land_spec, <- Z.shiftl_mul_pow2 by lia.
  destruct (Z.lt_ge_cases n s).
  - rewrite !Z.shiftl_spec_low by lia. apply andb_false_r.
  - rewrite !Z.shiftl_spec by lia. rewrite Z.testbit_ones_nonneg by lia.
    destruct (Z.lt_ge_cases (n - s) k).
    + rewrite Z.mod_pow2_bits_low by lia. rewrite Z.div_pow2_bits by lia.
      replace (n - s + s) with n by lia. destruct (Z.ltb_spec (n - s) k); [|lia].
      apply andb_true_r.
    + rewrite Z.mod_pow2_bits_high by lia. destruct (Z.ltb_spec (n - s) k); [lia|].
      apply andb_false_r.
Qed.

Lemma byte_field x s : 0 <= s ->
  Z.shiftr (Z.land x (Z.shiftl (Z.ones 8) s)) s = (x / 2 ^ s) mod 256.
Proof.
  intros Hs. rewrite land_field, Z.shiftr_div_pow2 by lia.
  apply Z.div_mul. apply Z.pow_nonzero; lia.
Qed.

Lemma lor_low4 m r : 0 <= m -> 0 <= r < 16 -> Z.lor (m * 16) r = m * 16 + r.
Proof.
  intros Hm Hr.
  assert (Z.land (m * 16) r = 0) as H0.
  { apply Z.bits_inj'. intros n Hn. rewrite Z.land_spec, Z.bits_0.
    change 16 with (2 ^ 4). destruct (Z.lt_ge_cases n 4).
    - rewrite Z.mul_pow2_bits_low by lia. reflexivity.
    - rewrite <- (Z.mod_small r (2 ^ 4)) by (cbn; lia).
      rewrite Z.mod_pow2_bits_high by lia. apply andb_false_r. }
  rewrite Z.add_nocarry_lxor by exact H0. symmetry. apply Z.lxor_lor. exact H0.
Qed.

Lemma split20 x : 0 <= x < 2 ^ 20 ->
  (x / 65536) mod 16 * 65536 + (x / 256) mod 256 * 256 + x mod 256 = x.
Proof.
  intros Hx.
  pose proof (Z.div_mod x 256 ltac:(lia)) as E1.
  pose proof (Z.div_mod (x / 256) 256 ltac:(lia)) as E2.
  rewrite Z.div_div in E2 by lia. change (256 * 256) with 65536 in E2.
  assert (0 <= x / 65536 < 16) by (split; [apply Z.div_pos | apply Z.div_lt_upper_bound]; lia).
  rewrite (Z.mod_small (x / 65536)) by lia. lia.
Qed.

Lemma d5_fields p3 p2 : 0 <= p3 -> 0 <= p2 ->
  let d5 := Z.lor (Z.shiftr (Z.land p3 983040) 12) (Z.shiftr (Z.land p2 983040) 16) in
  d5 = (p3 / 65536) mod 16 * 16 + (p2 / 65536) mod 16 /\ 0 <= d5 < 256 /\
  Z.land d5 15 = (p2 / 65536) mod 16 /\ Z.shiftr d5 4 = (p3 / 65536) mod 16.
Proof.
  intros H3 H2 d5. subst d5.
  change 983040 with (Z.shiftl (Z.ones 4) 16). rewrite !land_field by lia.
  rewrite !Z.shiftr_div_pow2 by lia.
  change (2 ^ 16) with 65536. change (2 ^ 12) with 4096. change (2 ^ 4) with 16.
  set (m3 := (p3 / 65536) mod 16). set (m2 := (p2 / 65536) mod 16).
  assert (0 <= m3 < 16) by (apply Z.mod_pos_bound; lia).
  assert (0 <= m2 < 16) by (apply Z.mod_pos_bound; lia).
  replace (m3 * 65536) with ((m3 * 16) * 4096) by lia.
  rewrite !Z.div_mul by lia.
  rewrite lor_low4 by lia. split; [reflexivity|]. split; [lia|]. split.
  - change 15 with (Z.ones 4). rewrite Z.land_ones by lia. change (2 ^ 4) with 16.
    rewrite Z.add_comm, Z.mod_add by lia. apply Z.mod_small; lia.
  - try rewrite Z.shiftr_div_pow2 by lia; try change (2 ^ 4) with 16.
    rewrite Z.add_comm, Z.div_add by lia. rewrite Z.div_small by lia. lia.
Qed.

Lemma u8_id x : 0 <= x < 256 -> u8 x = x.
Proof. intros H. apply Z.mod_small. cbn. lia. Qed.

Lemma byte_range x : 0 <= x mod 256 < 256.
Proof. apply Z.mod_pos_bound. lia. Qed.

Lemma u32_id x : 0 <= x < 2 ^ 32 -> u32 x = x.
Proof. intros H. apply Z.mod_small. exact H. Qed.

(** X13: For [4 <= a <= 2047] and [0 <= b < c <= 1048575], the eight
    bytes of [configure_clock_input_and_pll] hold
    [P1 = 128 a + floor(128 b / c) - 512], [P2 = 128 b mod c] and [P3 = c]:
    no bit of the three parameters is lost. *)
Theorem pll_data_round_trip a b c :
  4 <= a <= 2047 -> 0 <= b < c -> c <= SI5351_MAX_DENOMINATOR ->
  msn_params (configure_clock_input_and_pll_data a b c) =
  (128 * a + 128 * b / c - 512, (128 * b) mod c, c).
Proof.
  unfold SI5351_MAX_DENOMINATOR. intros Ha Hb Hc.
  unfold configure_clock_input_and_pll_data.
  assert (0 <= 128 * b / c < 128) as Hq.
  { split; [apply Z.div_pos; lia | apply Z.div_lt_upper_bound; lia]. }
  rewrite (u32_id (128 * b)) by lia.
  rewrite (u32_id (128 * a + 128 * b / c - 512)) by lia.
  rewrite (u32_id (128 * b - c * (128 * b / c))) by (pose proof (Z.mul_div_le (128 * b) c); nia).
  replace (128 * b - c * (128 * b / c)) with ((128 * b) mod c) by (rewrite Z.mod_eq; lia).
  pose proof (Z.mod_pos_bound (128 * b) c ltac:(lia)) as Hm.
  set (p1 := 128 * a + 128 * b / c - 512). set (p2 := (128 * b) mod c).
  assert (0 <= p1 < 2 ^ 18) by (unfold p1; change (2 ^ 18) with 262144; lia).
  destruct (d5_fields c p2 ltac:(lia) ltac:(lia)) as (_ & R5 & L5 & S5).
  cbn [map]. change 65280 with (Z.shiftl (Z.ones 8) 8). change 255 with (Z.ones 8).
  change 196608 with (Z.shiftl (Z.ones 2) 16).
  rewrite !byte_field by lia. rewrite !Z.land_ones by lia.
  rewrite land_field, Z.shiftr_div_pow2, Z.div_mul by (lia || (apply Z.pow_nonzero; lia)).
  change (2 ^ 8) with 256. change (2 ^ 16) with 65536. change (2 ^ 2) with 4.
  assert (0 <= (p1 / 65536) mod 4 < 4) by (apply Z.mod_pos_bound; lia).
  rewrite !u8_id by (apply byte_range || lia).
  cbn [msn_params]. rewrite L5, S5.
  change 3 with (Z.ones 2). rewrite Z.land_ones, Z.mod_mod by lia. change (2 ^ 2) with 4.
  assert (0 <= p1 / 65536 < 4) by (split; [apply Z.div_pos | apply Z.div_lt_upper_bound]; change (2 ^ 18) with 262144 in *; lia).
  rewrite (Z.mod_small (p1 / 65536) 4) by lia.
  f_equal; [f_equal|].
  - rewrite <- (Z.mod_small (p1 / 65536) 16) by lia. apply split20. change (2 ^ 18) with 262144 in *; lia.
  - apply split20. lia.
  - apply split20. lia.
Qed.

(** X14: For [4 <= output_ms <= 2048] and [0 <= rdiv <= 7] the
    output multisynth bytes are P3 = 1, P2 = 0 and P1 = 128 output_ms - 512,
    byte 2 holding the R divider in bits 5 to 7 (rdiv * 32) and P1[17:16]
    in bits 0 and 1. *)
Theorem output_data_closed_form output_ms rdiv :
  4 <= output_ms <= 2048 -> 0 <= rdiv <= 7 ->
  configure_clock_output_data output_ms rdiv =
  [0; 1; rdiv * 32 + (128 * output_ms - 512) / 65536;
   ((128 * output_ms - 512) / 256) mod 256; (128 * output_ms - 512) mod 256; 0; 0; 0].
Proof.
  intros Hms Hr. unfold configure_clock_output_data.
  rewrite (u32_id (128 * output_ms - 512)) by (change (2 ^ 32) with 4294967296; lia).
  set (p1 := 128 * output_ms - 512).
  assert (0 <= p1 < 2 ^ 18) by (unfold p1; change (2 ^ 18) with 262144; lia).
  assert (0 <= p1 / 65536 < 4) by (split; [apply Z.div_pos | apply Z.div_lt_upper_bound]; change (2 ^ 18) with 262144 in *; lia).
  assert (Z.shiftr (Z.land p1 196608) 16 = p1 / 65536) as B2.
  { change 196608 with (Z.shiftl (Z.ones 2) 16).
    rewrite land_field, Z.shiftr_div_pow2, Z.div_mul by (lia || (apply Z.pow_nonzero; lia)).
    apply Z.mod_small. change (2 ^ 16) with 65536. change (2 ^ 2) with 4. lia. }
  assert (Z.shiftr (Z.land p1 65280) 8 = (p1 / 256) mod 256) as B3.
  { change 65280 with (Z.shiftl (Z.ones 8) 8). rewrite byte_field by lia. reflexivity. }
  assert (Z.land p1 255 = p1 mod 256) as B4.
  { change 255 with (Z.ones 8). rewrite Z.land_ones by lia. reflexivity. }
  assert (Z.lor (Z.shiftl rdiv 5) (p1 / 65536) = rdiv * 32 + p1 / 65536) as E.
  { rewrite Z.shiftl_mul_pow2 by lia. change (2 ^ 5) with 32.
    replace (rdiv * 32) with ((rdiv * 2) * 16) by lia. rewrite lor_low4 by lia. lia. }
  rewrite B2, B3, B4, E. cbn [map].
  rewrite (u8_id (rdiv * 32 + p1 / 65536)) by lia.
  rewrite (u8_id ((p1 / 256) mod 256)) by apply byte_range.
  rewrite (u8_id (p1 mod 256)) by apply byte_range.
  reflexivity.
Qed.

Lemma issue_writes_all_ok ok ws : forall n,
  (forall j, (j < length ws)%nat -> ok (n + j)%nat = true) ->
  issue_writes ok n ws = (true, ws).
Proof.
  induction ws as [|w ws IH]; intros n H; [reflexivity|].
  cbn [issue_writes]. rewrite <- (Nat.add_0_r n), (H 0%nat) by (cbn; lia). rewrite Nat.add_0_r.
  rewrite IH; [reflexivity|]. intros j Hj. replace (S n + j)%nat with (n + S j)%nat by lia. apply (H (S j)). cbn; lia.
Qed.

Lemma issue_writes_first_failure ok ws : forall n k,
  (k < length ws)%nat -> ok (n + k)%nat = false ->
  (forall j, (j < k)%nat -> ok (n + j)%nat = true) ->
  issue_writes ok n ws = (false, firstn (S k) ws).
Proof.
  induction ws as [|w ws IH]; intros n k Hk Hf Hok; [cbn in Hk; lia|].
  cbn [issue_writes]. destruct k as [|k].
  - rewrite Nat.add_0_r in Hf. rewrite Hf. reflexivity.
  - rewrite <- (Nat.add_0_r n), (Hok 0%nat) by lia. rewrite Nat.add_0_r.
    rewrite (IH (S n) k); [reflexivity | cbn in Hk; lia | |].
    + replace (S n + k)%nat with (n + S k)%nat by lia. exact Hf.
    + intros j Hj. replace (S n + j)%nat with (n + S j)%nat by lia. apply Hok. lia.
Qed.

(** X15: When the parameters are computed, [set_clock]
    sends the four register writes in order. It succeeds when all four
    succeed, and stops at the first failed write, reporting an I2C failure
    after sending exactly the writes up to that one. *)
Theorem set_clock_stops_at_first_failure this i2c_ok index frequency p :
  compute_clock this index frequency = inr p ->
  ((forall n, (n < 4)%nat -> i2c_ok n = true) ->
   clock_source_set_clock this i2c_ok index frequency = (inr p, set_clock_writes index p)) /\
  (forall k, (k < 4)%nat -> i2c_ok k = false -> (forall n, (n < k)%nat -> i2c_ok n = true) ->
   clock_source_set_clock this i2c_ok index frequency =
     (inl I2CFailure, firstn (S k) (set_clock_writes index p))).
Proof.
  intros Hc. unfold clock_source_set_clock. rewrite Hc. split.
  - intros H. rewrite issue_writes_all_ok; [reflexivity|]. intros j Hj. apply H. exact Hj.
  - intros k Hk Hf Hok. rewrite (issue_writes_first_failure _ _ 0 k); [reflexivity | exact Hk | exact Hf |].
    intros j Hj. apply Hok. exact Hj.
Qed.

(** X23: Whenever [set_clock] succeeds, the output multisynth divider OUT
    is the truncation of the double quotient [900e6 / f_r] with bit 0
    cleared; it lies in [4, 2048] and is even, the denominator [c] is at
    most 1,048,575, and FB is the double [OUT * f_r / (f_xtal / correction)].
    With the default crystal (27 MHz, correction 0.9999314),
    [set_clock(0, 32,000,000.0)] chooses OUT = 28, R = 0, a = 33,
    b = 46461 and c = 254012: [a + b/c] is within 1/c of FB, within 10^-6
    of 33.182909 and more than 10^-3 away from 33.185185.
    [set_clock(0, 34615384.615384616)] chooses R = 0 (so f_r is the
    requested frequency) and OUT = 26, and [OUT * f_r] exceeds 900 MHz:
    the quotient [900e6 / f_r] rounds up to 26. *)
Theorem set_clock_chosen_parameters (this : clock_source) (i2c_ok : nat -> bool)
    (index : Z) (frequency : float) (p : clock_params) (sent : list i2c_write) :
  clock_source_set_clock this i2c_ok index frequency = (inr p, sent) ->
  (cp_output_ms p =
     Z.land (u32 (float_trunc_Z (SI5351_MAX_VCO_FREQ / cp_r_frequency p)%float))
       (u32 (Z.lnot 1)) /\
   4 <= cp_output_ms p <= 2048 /\ Z.even (cp_output_ms p) = true /\
   0 <= cp_c p <= SI5351_MAX_DENOMINATOR /\
   cp_feedback_ms p =
     (cp_r_frequency p * float_of_Z (cp_output_ms p) /
      (crystal_frequency this / frequency_correction this))%float) /\
  match fst (clock_source_set_clock clock_source_default (fun _ => true) 0 32e6) with
  | inr q =>
      cp_output_ms q = 28 /\ cp_rdiv q = 0 /\
      cp_a q = 33 /\ cp_b q = 46461 /\ cp_c q = 254012 /\
      (Qabs (pll_ratio q - Q_of_float (cp_feedback_ms q)) < 1 / inject_Z (cp_c q))%Q /\
      (Qabs (pll_ratio q - (33182909 # 1000000)) < 1 # 1000000)%Q /\
      (1 # 1000 < Qabs (pll_ratio q - (33185185 # 1000000)))%Q
  | inl _ => False
  end /\
  match fst (clock_source_set_clock clock_source_default (fun _ => true) 0
               34615384.615384616) with
  | inr q =>
      cp_rdiv q = 0 /\ cp_r_frequency q = 34615384.615384616%float /\
      cp_output_ms q = 26 /\
      (900000000 < inject_Z (cp_output_ms q) * Q_of_float (cp_r_frequency q))%Q
  | inl _ => False
  end.
Proof.
  intros H; split; [|split].
  - apply ClockSourceProofs.set_clock_inr in H.
    exact (ClockSourceProofs.compute_clock_params this index frequency p H).
  - vm_compute; repeat split.
  - vm_compute; repeat split.
Qed.

Lemma pll_data_round_trip_witness :
  msn_params (configure_clock_input_and_pll_data 33 46461 254012) =
  (128 * 33 + 128 * 46461 / 254012 - 512, (128 * 46461) mod 254012, 254012).
Proof. apply pll_data_round_trip; unfold SI5351_MAX_DENOMINATOR; lia. Defined.

Lemma output_data_closed_form_witness :
  configure_clock_output_data 28 0 =
  [0; 1; 0 * 32 + (128 * 28 - 512) / 65536;
   ((128 * 28 - 512) / 256) mod 256; (128 * 28 - 512) mod 256; 0; 0; 0].
Proof. apply output_data_closed_form; lia. Defined.

Lemma set_clock_stops_at_first_failure_witness :
  compute_clock clock_source_default 0 32e6 = inr set_clock_demo_params /\
  clock_source_set_clock clock_source_default (fun n => negb (Nat.eqb n 2)) 0 32e6 =
    (inl I2CFailure, firstn 3 (set_clock_writes 0 set_clock_demo_params)).
Proof.
  assert (E : compute_clock clock_source_default 0 32e6 = inr set_clock_demo_params)
    by (vm_compute; reflexivity).
  split; [exact E|].
  apply (proj2 (set_clock_stops_at_first_failure clock_source_default (fun n => negb (Nat.eqb n 2))
                  0 32e6 set_clock_demo_params E) 2%nat).
  - lia.
  - reflexivity.
  - intros n Hn. destruct n as [|[|n]]; [reflexivity | reflexivity | lia].
Defined.

Lemma set_clock_chosen_parameters_witness :
  match clock_source_set_clock clock_source_default (fun _ => true) 0 32e6 with
  | (inr p, sent) =>
      clock_source_set_clock clock_source_default (fun _ => true) 0 32e6 = (inr p, sent) /\
      cp_output_ms p =
        Z.land (u32 (float_trunc_Z (SI5351_MAX_VCO_FREQ / cp_r_frequency p)%float))
          (u32 (Z.lnot 1))
  | (inl _, _) => False
  end.
Proof.
  destruct (clock_source_set_clock clock_source_default (fun _ => true) 0 32e6)
    as [[e|p] sent] eqn:E.
  - vm_compute in E; injection E as E1 _; discriminate E1.
  - split; [reflexivity|].
    destruct (set_clock_chosen_parameters clock_source_default (fun _ => true) 0 32e6 p sent E)
      as [[Hout _] _].
    exact Hout.
Defined.

End ClockSourceExtraProofs.

(** ** Firmware: the chunks of a section *)
Module FirmwareExtraProofs.
Import Firmware.

Lemma transfer_chunks_none_left fuel usb n address data :
  transfer_chunks fuel usb n address data 0 = (Some n, []).
Proof. destruct fuel; reflexivity. Qed.

(** X16: A section of [nleft] bytes is sent as
    [ceil(nleft / 2048)] control transfers. Transfer [i] sends
    [min(2048, nleft - 2048 i)] bytes from offset [2048 i] of the section. Every
    transfer goes to the section's start address, which is never advanced. *)
Theorem transfer_chunks_layout fuel : forall usb n address data nleft n' calls,
  0 < nleft < 2 ^ 32 ->
  (Z.to_nat (nleft / max_write_size) + 1 <= fuel)%nat ->
  transfer_chunks fuel usb n address data nleft = (Some n', calls) ->
  length calls = Z.to_nat ((nleft + max_write_size - 1) / max_write_size) /\
  forall i, (i < length calls)%nat ->
    nth i calls no_call =
    {| uc_value := Z.land address 65535; uc_index := Z.shiftr address 16;
       uc_data := data + max_write_size * Z.of_nat i;
       uc_length := Z.min max_write_size (nleft - max_write_size * Z.of_nat i) |}.
Proof.
  change max_write_size with 2048.
  induction fuel as [|fuel IH]; intros usb n address data nleft n' calls Hn Hf H; [lia|].
  cbn [transfer_chunks] in H.
  destruct (Z.gtb_spec nleft 0) as [_|]; [|lia].
  assert (u16 (if nleft >? 2048 then 2048 else nleft) = Z.min 2048 nleft) as Ew.
  { destruct (Z.gtb_spec nleft 2048); unfold u16; rewrite Z.mod_small by (cbn; lia); lia. }
  change max_write_size with 2048 in H. rewrite Ew in H.
  destruct (usb n <? 0); [discriminate|].
  destruct (negb (usb n =? Z.min 2048 nleft)); [discriminate|].
  destruct (transfer_chunks fuel usb (S n) address (data + Z.min 2048 nleft) (nleft - Z.min 2048 nleft))
    as [r calls'] eqn:Er.
  injection H as -> <-.
  destruct (Z.leb_spec nleft 2048) as [Hle|Hgt].
  - rewrite Z.min_r in Er by lia. rewrite Z.sub_diag, transfer_chunks_none_left in Er.
    injection Er as _ <-.
    assert ((nleft + 2048 - 1) / 2048 = 1) as E1.
    { symmetry. apply Z.div_unique with (nleft - 1); lia. }
    rewrite E1. split; [reflexivity|].
    intros i Hi. cbn in Hi. destruct i as [|i]; [|lia].
    cbn [nth]. rewrite Z.min_r by lia. f_equal; lia.
  - rewrite Z.min_l in Er by lia. rewrite Z.min_l by lia.
    assert (nleft / 2048 = (nleft - 2048) / 2048 + 1) as Ed.
    { replace nleft with ((nleft - 2048) + 1 * 2048) at 1 by lia. apply Z.div_add; lia. }
    assert ((nleft + 2048 - 1) / 2048 = (nleft - 2048 + 2048 - 1) / 2048 + 1) as Ec.
    { replace (nleft + 2048 - 1) with ((nleft - 2048 + 2048 - 1) + 1 * 2048) by lia.
      apply Z.div_add; lia. }
    assert (0 <= (nleft - 2048) / 2048) by (apply Z.div_pos; lia).
    assert (0 <= (nleft - 2048 + 2048 - 1) / 2048) by (apply Z.div_pos; lia).
    destruct (IH usb (S n) address (data + 2048) (nleft - 2048) n' calls' ltac:(lia)
                ltac:(rewrite Ed, Z2Nat.inj_add in Hf by lia; cbn in Hf; lia) Er) as [L N].
    rewrite Ec, Z2Nat.inj_add, <- L by lia. cbn [length]. split; [cbn; lia|].
    intros i Hi. destruct i as [|i].
    + cbn [nth]. rewrite Z.min_l by lia. f_equal; lia.
    + cbn [nth]. rewrite N by (cbn in Hi; lia). rewrite Nat2Z.inj_succ. f_equal; lia.
Qed.

Lemma transfer_chunks_layout_witness :
  let usb := fun i : nat => match i with 0%nat | 1%nat => 2048 | _ => 904 end in
  let calls := snd (transfer_chunks 3 usb 0 4096 8 5000) in
  length calls = Z.to_nat ((5000 + max_write_size - 1) / max_write_size) /\
  nth 2 calls no_call =
    {| uc_value := Z.land 4096 65535; uc_index := Z.shiftr 4096 16;
       uc_data := 8 + max_write_size * Z.of_nat 2;
       uc_length := Z.min max_write_size (5000 - max_write_size * Z.of_nat 2) |}.
Proof.
  intros usb calls.
  destruct (transfer_chunks_layout 3 usb 0 4096 8 5000 3%nat calls) as [L N].
  - lia.
  - vm_compute. lia.
  - reflexivity.
  - split; [exact L | apply N]. rewrite L. vm_compute. lia.
Defined.

End FirmwareExtraProofs.

(** ** The rf103 library *)
Module RF103Proofs.
Import RF103.

Section Steps.
Variable Inv : rf103 -> Prop.
Variable P : ext_call -> Prop.

Lemma steps_ret {A} (a : A) : steps Inv P (ret a).
Proof.
  intros w a' w' HI H. injection H as _ <-. split; [exact HI|].
  exists []. rewrite app_nil_r. split; [reflexivity | constructor].
Qed.

Lemma steps_bind {A B} (m : M A) (k : A -> M B) :
  steps Inv P m -> (forall a, steps Inv P (k a)) -> steps Inv P (bind m k).
Proof.
  intros Hm Hk w b w'' HI H. unfold bind in H.
  destruct (m w) as [a w'] eqn:E.
  destruct (Hm w a w' HI E) as [HI' (n1 & L1 & F1)].
  destruct (Hk a w' b w'' HI' H) as [HI'' (n2 & L2 & F2)].
  split; [exact HI''|]. exists (n1 ++ n2). split.
  - rewrite L2, L1, app_assoc. reflexivity.
  - apply Forall_app. split; assumption.
Qed.

Lemma steps_call c : P c -> steps Inv P (call c).
Proof.
  intros Hc w a w' HI H. injection H as _ <-. split; [exact HI|].
  exists [c]. split; [reflexivity | constructor; [exact Hc | constructor]].
Qed.

Lemma steps_call_in c : P c -> steps Inv P (call_in c).
Proof.
  intros Hc w a w' HI H. injection H as _ <-. split; [exact HI|].
  exists [c]. split; [reflexivity | constructor; [exact Hc | constructor]].
Qed.

Lemma steps_get {A} (k : rf103 -> M A) :
  (forall this, Inv this -> steps Inv P (k this)) -> steps Inv P (bind get_rf k).
Proof.
  intros Hk w a w' HI H. unfold bind, get_rf in H. exact (Hk (w_rf w) HI w a w' HI H).
Qed.

Lemma steps_put this : Inv this -> steps Inv P (put_rf this).
Proof.
  intros HI w a w' _ H. injection H as _ <-. split; [exact HI|].
  exists []. rewrite app_nil_r. split; [reflexivity | constructor].
Qed.

Lemma steps_run :
  (forall o, steps Inv P (rf103_api o)) -> forall os, steps Inv P (rf103_api_run os).
Proof.
  intros Ho os. induction os as [|o os IH]; cbn [rf103_api_run].
  - apply steps_ret.
  - apply steps_bind; [apply Ho | intros r].
    apply steps_bind; [exact IH | intros rs]. apply steps_ret.
Qed.

End Steps.

Ltac steps_tac :=
  repeat match goal with
  | |- steps _ _ (bind get_rf _) => apply steps_get; intros ? ?
  | |- steps _ _ (bind _ _) => apply steps_bind; [|intros ?]
  | |- steps _ _ (ret _) => apply steps_ret
  | |- steps _ _ (call _) => apply steps_call
  | |- steps _ _ (call_in _) => apply steps_call_in
  | |- steps _ _ (put_rf _) => apply steps_put
  | |- steps _ _ (if ?b then _ else _) => destruct b
  | |- steps _ _ (match ?x with _ => _ end) => destruct x
  end.

Lemma open_steps index :
  steps (fun _ => True) (fun c => tuner_clock_call c = false) (rf103_open index).
Proof. unfold rf103_open, has_tuner_probe. steps_tac; auto. Qed.

Lemma api_hf_steps o :
  steps (fun t => rf_mode t = HF_MODE) (fun c => tuner_clock_call c = false) (rf103_api o).
Proof.
  destruct o as [[[|]|v]|p|p|p|d|d|x|x|fs nf| | |]; cbn [rf103_api].
  all: unfold rf103_set_rf_mode, rf103_led_on, rf103_led_off, rf103_led_toggle,
         rf103_adc_dither, rf103_adc_random, rf103_hf_attenuation, rf103_set_sample_rate,
         rf103_set_async_params, rf103_stop_streaming, rf103_reset_status.
  all: try (steps_tac; first [reflexivity | assumption]).
  unfold rf103_start_streaming. apply steps_get. intros this Hm. rewrite Hm.
  cbn [RFMode_eqb andb]. steps_tac; first [reflexivity | assumption].
Qed.

Lemma open_hf index w w' :
  rf103_open index w = (true, w') -> rf_mode (w_rf w') = HF_MODE.
Proof.
  intros H. cbv [rf103_open has_tuner_probe bind call call_in put_rf ret] in H.
  cbn [w_calls w_ret w_data w_rf] in H.
  repeat match type of H with
  | context [if ?b then _ else _] => destruct b
  end.
  all: try discriminate.
  all: injection H as <-; reflexivity.
Qed.

(** X17: Once [rf103_open] has succeeded, no sequence
    of library operations leaves HF mode, because [rf103_set_rf_mode] never
    assigns [rf_mode]. So the tuner clock is never programmed or started and
    [tuner_start] is never called, even after a successful switch to VHF. *)
Theorem streaming_never_programs_tuner_clock index os w w1 rs w' :
  rf103_open index w = (true, w1) ->
  rf103_api_run os w1 = (rs, w') ->
  rf_mode (w_rf w') = HF_MODE /\
  exists new, w_calls w' = w_calls w ++ new /\ Forall (fun c => tuner_clock_call c = false) new.
Proof.
  intros Ho Hr.
  destruct (open_steps index w true w1 I Ho) as [_ (n1 & L1 & F1)].
  destruct (steps_run _ _ api_hf_steps os w1 rs w' (open_hf index w w1 Ho) Hr)
    as [Hm (n2 & L2 & F2)].
  split; [exact Hm|]. exists (n1 ++ n2). split.
  - rewrite L2, L1, app_assoc. reflexivity.
  - apply Forall_app. split; assumption.
Qed.

(** X18: Without a tuner [rf103_set_rf_mode VHF_MODE] returns -1
    and changes nothing. With one it calls [tuner_open] and nothing else,
    replaces the tuner handle with the result, even over an open tuner that is
    not closed, and returns -1 exactly when the result is NULL. *)
Theorem set_rf_mode_vhf_replaces_tuner w r w' :
  rf103_set_rf_mode (Mode VHF_MODE) w = (r, w') ->
  (has_tuner (w_rf w) = 0 -> r = -1 /\ w' = w) /\
  (has_tuner (w_rf w) <> 0 ->
   w_calls w' = w_calls w ++ [TunerOpen] /\
   tuner (w_rf w') = w_ret w (length (w_calls w)) /\
   rf_mode (w_rf w') = rf_mode (w_rf w) /\
   r = (if tuner (w_rf w') =? 0 then -1 else 0)).
Proof.
  unfold rf103_set_rf_mode, bind, get_rf, call, put_rf, ret. cbn [w_rf w_calls w_ret w_data].
  destruct (Z.eqb_spec (has_tuner (w_rf w)) 0) as [Hz|Hz].
  - intros H. injection H as <- <-. split; [auto | intros; contradiction].
  - intros H. split; [intros; contradiction|]. intros _.
    destruct (w_ret w (length (w_calls w)) =? 0) eqn:E; injection H as <- <-;
      cbn [w_calls w_rf tuner with_tuner rf_mode]; rewrite E; auto.
Qed.

Lemma led_check p : 0 <= p < 256 ->
  (Z.land p (Z.lnot LED_BITS) =? 0) = (p <? 8).
Proof.
  intros Hp. unfold LED_BITS, GPIO_LED_RED, GPIO_LED_YELLOW, GPIO_LED_BLUE.
  change (Z.lnot (Z.lor (Z.lor 1 2) 4)) with (Z.lnot (Z.ones 3)).
  rewrite <- Z.ldiff_land, Z.ldiff_ones_r by lia.
  destruct (Z.ltb_spec p 8).
  - rewrite Z.shiftr_div_pow2, Z.div_small by (cbn; lia). reflexivity.
  - apply Z.eqb_neq. intros E. apply Z.shiftl_eq_0_iff in E; [|lia].
    rewrite Z.shiftr_div_pow2 in E by lia. change (2 ^ 3) with 8 in E.
    assert (1 <= p / 8) by (apply Z.div_le_lower_bound; lia). lia.
Qed.

(** X19: An LED pattern with a bit above the three LED bits is
    rejected with -1 and no call; any other pattern is passed unchanged to
    the GPIO call. *)
Theorem led_pattern_checked p w :
  0 <= p < 256 ->
  (8 <= p -> rf103_led_on p w = (-1, w) /\ rf103_led_off p w = (-1, w) /\
             rf103_led_toggle p w = (-1, w)) /\
  (p < 8 -> rf103_led_on p w = call (UsbDeviceGpioOn p) w /\
            rf103_led_off p w = call (UsbDeviceGpioOff p) w /\
            rf103_led_toggle p w = call (UsbDeviceGpioToggle p) w).
Proof.
  intros Hp. unfold rf103_led_on, rf103_led_off, rf103_led_toggle. rewrite led_check by exact Hp.
  split; intros H.
  - destruct (Z.ltb_spec p 8); [lia|]. repeat split.
  - destruct (Z.ltb_spec p 8); [|lia]. repeat split.
Qed.

Lemma led_no_shutdown p : Z.land p (Z.lnot LED_BITS) = 0 -> Z.land p GPIO_SHDWN = 0.
Proof.
  intros H. change GPIO_SHDWN with (Z.land (Z.lnot LED_BITS) GPIO_SHDWN).
  rewrite Z.land_assoc, H. reflexivity.
Qed.

Lemma api_gpio_steps o :
  steps (fun _ => True) (fun c => Z.land (gpio_bits c) GPIO_SHDWN = 0) (rf103_api o).
Proof.
  destruct o as [[[|]|v]|p|p|p|d|d|x|x|fs nf| | |]; cbn [rf103_api].
  all: unfold rf103_set_rf_mode, rf103_adc_dither, rf103_adc_random, rf103_hf_attenuation,
         rf103_set_sample_rate, rf103_set_async_params, rf103_stop_streaming, rf103_reset_status,
         rf103_start_streaming, start_tuner_clock.
  all: try (steps_tac; first [reflexivity | exact I]).
  all: unfold rf103_led_on, rf103_led_off, rf103_led_toggle.
  all: destruct (Z.land p (Z.lnot LED_BITS) =? 0) eqn:E; cbn [negb];
         [apply steps_call; apply led_no_shutdown; apply Z.eqb_eq; exact E | apply steps_ret].
Qed.

(** X20: No library operation drives the SHDWN GPIO bit (0x20):
    every GPIO on/off/toggle pattern and set mask of a run leaves it out. *)
Theorem api_never_drives_shutdown os w rs w' :
  rf103_api_run os w = (rs, w') ->
  exists new, w_calls w' = w_calls w ++ new /\
    Forall (fun c => Z.land (gpio_bits c) GPIO_SHDWN = 0) new.
Proof.
  intros H. exact (proj2 (steps_run _ _ api_gpio_steps os w rs w' I H)).
Qed.

Lemma api_adc_steps a o :
  steps (fun t => adc t = a /\ a <> 0)
        (fun c => match c with AdcOpenAsync _ _ => False | _ => True end) (rf103_api o).
Proof.
  destruct o as [[[|]|v]|p|p|p|d|d|x|x|fs nf| | |]; cbn [rf103_api].
  all: unfold rf103_set_rf_mode, rf103_adc_dither, rf103_adc_random, rf103_hf_attenuation,
         rf103_set_sample_rate, rf103_set_async_params, rf103_stop_streaming, rf103_reset_status,
         rf103_start_streaming, start_tuner_clock, rf103_led_on, rf103_led_off, rf103_led_toggle.
  all: try (steps_tac; first [exact I | assumption]).
  apply steps_get. intros this [Ha Hz]. rewrite Ha.
  destruct (Z.eqb_spec a 0); [contradiction|]. apply steps_ret.
Qed.

(** X21: Once an ADC is open, no sequence of library operations
    replaces its handle or opens another one. *)
Theorem adc_handle_kept os w rs w' :
  adc (w_rf w) <> 0 ->
  rf103_api_run os w = (rs, w') ->
  adc (w_rf w') = adc (w_rf w) /\
  exists new, w_calls w' = w_calls w ++ new /\
    Forall (fun c => match c with AdcOpenAsync _ _ => False | _ => True end) new.
Proof.
  intros Hz H.
  destruct (steps_run _ _ (api_adc_steps (adc (w_rf w))) os w rs w' (conj eq_refl Hz) H)
    as [[Ha _] Hn].
  split; [exact Ha | exact Hn].
Qed.

(** X22: In HF mode [rf103_start_streaming] leaves the handle
    unchanged and makes a prefix of: set and start the ADC clock, set the
    ADC sample rate, start the ADC, send STARTFX3. It returns 0 only after
    all five, and -1 otherwise. *)
Theorem start_streaming_hf_calls w r w' :
  rf_mode (w_rf w) = HF_MODE ->
  rf103_start_streaming w = (r, w') ->
  w_rf w' = w_rf w /\
  exists k, w_calls w' = w_calls w ++ firstn k (hf_streaming_calls (w_rf w)) /\
    (r = 0 /\ k = 5%nat \/ r = -1).
Proof.
  intros Hm H. unfold rf103_start_streaming, bind, get_rf in H. rewrite Hm in H.
  cbn [RFMode_eqb andb] in H. unfold call, ret in H. cbn [w_rf w_calls w_ret w_data] in H.
  repeat match type of H with
  | context [if ?b then _ else _] => destruct b
  end; injection H as <- <-; cbn [w_rf w_calls]; split; try reflexivity.
  all: rewrite <- ?app_assoc; cbn [app].
  all: first [ exists 5%nat; split; [reflexivity | auto]
             | exists 4%nat; split; [reflexivity | auto]
             | exists 2%nat; split; [reflexivity | auto]
             | exists 1%nat; split; [reflexivity | auto] ].
Qed.

Lemma streaming_never_programs_tuner_clock_witness :
  rf103_open 0 rf_demo_device = (true, rf_demo_opened) /\
  rf_mode (w_rf rf_demo_final) = HF_MODE /\
  exists new, w_calls rf_demo_final = w_calls rf_demo_device ++ new /\
    Forall (fun c => tuner_clock_call c = false) new.
Proof.
  split; [reflexivity|].
  apply (streaming_never_programs_tuner_clock 0 rf_demo_ops rf_demo_device rf_demo_opened
           (fst (rf103_api_run rf_demo_ops rf_demo_opened)) rf_demo_final); reflexivity.
Defined.

Lemma set_rf_mode_vhf_replaces_tuner_witness :
  let w := snd (rf103_set_rf_mode (Mode VHF_MODE) rf_demo_opened) in
  w_calls (snd (rf103_set_rf_mode (Mode VHF_MODE) w)) = w_calls w ++ [TunerOpen].
Proof.
  intros w.
  apply (proj2 (set_rf_mode_vhf_replaces_tuner w _ _ eq_refl)). cbv. discriminate.
Defined.

Lemma led_pattern_checked_witness :
  rf103_led_on 9 rf_demo_opened = (-1, rf_demo_opened) /\
  rf103_led_on 5 rf_demo_opened = call (UsbDeviceGpioOn 5) rf_demo_opened.
Proof.
  split.
  - apply (proj1 (led_pattern_checked 9 rf_demo_opened ltac:(lia)) ltac:(lia)).
  - apply (proj2 (led_pattern_checked 5 rf_demo_opened ltac:(lia)) ltac:(lia)).
Defined.

Lemma api_never_drives_shutdown_witness :
  exists new, w_calls rf_demo_final = w_calls rf_demo_opened ++ new /\
    Forall (fun c => Z.land (gpio_bits c) GPIO_SHDWN = 0) new.
Proof.
  apply (api_never_drives_shutdown rf_demo_ops rf_demo_opened
           (fst (rf103_api_run rf_demo_ops rf_demo_opened)) rf_demo_final).
  reflexivity.
Defined.

Lemma adc_handle_kept_witness :
  let w := snd (rf103_set_async_params 65536 8 rf_demo_opened) in
  adc (w_rf (snd (rf103_api_run rf_demo_ops w))) = adc (w_rf w).
Proof.
  intros w.
  apply (proj1 (adc_handle_kept rf_demo_ops w _ _ ltac:(cbv; discriminate) eq_refl)).
Defined.

Lemma start_streaming_hf_calls_witness :
  let w := snd (rf103_set_sample_rate 32e6 rf_demo_opened) in
  w_rf (snd (rf103_start_streaming w)) = w_rf w.
Proof.
  intros w.
  apply (proj1 (start_streaming_hf_calls w _ _ eq_refl eq_refl)).
Defined.

End RF103Proofs.
